(** * QuasisPycies: diversity indices from clustered reads and pileups

    A shallow embedding of [quasispycies.py] (classes [Clusters] and
    [Pileup], and the module-level functions) together with the
    properties of its natural-language specification and further
    properties of the code.

    Conventions of the embedding.
    - A text file is the list of its lines as [readlines()] returns them,
      each line keeping its final newline; characters are ASCII.
    - A Python [dict] is an association list in insertion order with
      unique keys: assigning to an existing key replaces its value in
      place, a new key goes last.  The order is the one in which
      [items()] and [values()] iterate and in which records are written.
    - Python integers are [Z].  A Python [float] is read as the number it
      stands for, a rational.  Where a comparison or a written text
      depends on it (the product of [polymorphic_sites], the products and
      percentages of the module-level writers) the operations round to
      binary64 as the machine does, see [binary64]; the sums of the
      diversity indices are carried out exactly in [Q], and [math.log] in
      [R], and what is stated of them holds up to the rounding of the
      machine arithmetic.  Decimal rounding by [round] is part of the
      model.
    - An exception aborts the call: fallible code returns [result]. *)

From Stdlib Require Import Bool List String Ascii ZArith QArith Qround Qabs Qpower.
From Stdlib Require Import Reals Lia Psatz.
From Stdlib Require PrimFloat SpecFloat FloatOps.
Import ListNotations.

Local Open Scope list_scope.
Local Open Scope string_scope.
Local Open Scope Z_scope.

(** ** Exceptions and results *)

(** The built-in exceptions the module can run into.  The source has no
    [raise] statement of its own; [Raised] stands for an exception class
    a program defines and raises itself. *)
Inductive exn : Type :=
| ZeroDivisionError
| ValueError
| AttributeError
| IndexError
| Raised (name : string).

Inductive result (A : Type) : Type :=
| Ok (a : A)
| Err (e : exn).

Arguments Ok {A} a.
Arguments Err {A} e.

Definition bind {A B : Type} (r : result A) (f : A -> result B) : result B :=
  match r with
  | Ok a => f a
  | Err e => Err e
  end.

Notation "x <- r ;; k" := (bind r (fun x => k))
  (at level 61, r at next level, right associativity).

(** [AttributeError]: what [m.group(1)] and [m.start()] raise when
    [re.search] returned [None]. *)
Definition group_or_fail {A : Type} (m : option A) : result A :=
  match m with
  | Some a => Ok a
  | None => Err AttributeError
  end.

(** [l[i]] on a list. *)
Definition index_or_fail {A : Type} (l : list A) (i : nat) : result A :=
  match nth_error l i with
  | Some a => Ok a
  | None => Err IndexError
  end.

(** A [for] loop over a list whose body may fail. *)
Fixpoint for_each {A S : Type} (body : S -> A -> result S) (l : list A) (s : S)
  : result S :=
  match l with
  | [] => Ok s
  | a :: l' => s' <- body s a ;; for_each body l' s'
  end.

(** ** Strings *)

Definition is_digit (c : ascii) : bool :=
  let n := nat_of_ascii c in (48 <=? n)%nat && (n <=? 57)%nat.

Definition digit_value (c : ascii) : Z := Z.of_nat (nat_of_ascii c) - 48.

(** [c in "\t\n\x0b\x0c\r\x1c\x1d\x1e\x1f "]: the ASCII characters
    [str.rstrip()] removes. *)
Definition is_space (c : ascii) : bool :=
  let n := nat_of_ascii c in
  ((9 <=? n)%nat && (n <=? 13)%nat) || ((28 <=? n)%nat && (n <=? 32)%nat).

Definition newline : ascii := "010"%char.
Definition tab : ascii := "009"%char.

(** The one-character string ["\n"]. *)
Definition nl : string := String newline EmptyString.

Definition upper_char (c : ascii) : ascii :=
  let n := nat_of_ascii c in
  if (97 <=? n)%nat && (n <=? 122)%nat then ascii_of_nat (n - 32) else c.

(** [s.upper()] *)
Fixpoint upper (s : string) : string :=
  match s with
  | EmptyString => EmptyString
  | String c s' => String (upper_char c) (upper s')
  end.

(** [s.count(c)] for a one-character [c]. *)
Fixpoint count (c : ascii) (s : string) : Z :=
  match s with
  | EmptyString => 0
  | String d s' => (if Ascii.eqb d c then 1 else 0) + count c s'
  end.

(** [s.startswith(p)] *)
Fixpoint startswith (p s : string) : bool :=
  match p, s with
  | EmptyString, _ => true
  | String a p', String b s' => Ascii.eqb a b && startswith p' s'
  | String _ _, EmptyString => false
  end.

(** [s[n:]] and [s[:n]] *)
Fixpoint drop (n : nat) (s : string) : string :=
  match n, s with
  | O, _ => s
  | S n', String _ s' => drop n' s'
  | S _, EmptyString => EmptyString
  end.

Fixpoint take (n : nat) (s : string) : string :=
  match n, s with
  | O, _ => EmptyString
  | S n', String c s' => String c (take n' s')
  | S _, EmptyString => EmptyString
  end.

(** [s[i:j]] for [0 <= i], [0 <= j]. *)
Definition slice (i j : nat) (s : string) : string := take (j - i) (drop i s).

(** The longest prefix of digits, and what follows it. *)
Fixpoint span_digits (s : string) : string * string :=
  match s with
  | EmptyString => (EmptyString, EmptyString)
  | String c s' =>
      if is_digit c
      then let (d, r) := span_digits s' in (String c d, r)
      else (EmptyString, s)
  end.

(** [s.rstrip()] *)
Fixpoint rstrip (s : string) : string :=
  match s with
  | EmptyString => EmptyString
  | String c s' =>
      match rstrip s' with
      | EmptyString => if is_space c then EmptyString else String c EmptyString
      | t => String c t
      end
  end.

(** [s.split("\t")] *)
Fixpoint split_tab (s : string) : list string :=
  match s with
  | EmptyString => [EmptyString]
  | String c s' =>
      if Ascii.eqb c tab then EmptyString :: split_tab s'
      else match split_tab s' with
           | [] => [String c EmptyString]
           | f :: fs => String c f :: fs
           end
  end.

(** What [readlines()] makes of a text: lines end after each newline. *)
Fixpoint readlines (s : string) : list string :=
  match s with
  | EmptyString => []
  | String c s' =>
      if Ascii.eqb c newline then String c EmptyString :: readlines s'
      else match readlines s' with
           | [] => [String c EmptyString]
           | l :: ls => String c l :: ls
           end
  end.

Fixpoint int_of_digits_from (acc : Z) (s : string) : Z :=
  match s with
  | EmptyString => acc
  | String c s' => int_of_digits_from (10 * acc + digit_value c) s'
  end.

(** [int(s)] for a string of digits. *)
Definition int_of_digits (s : string) : Z := int_of_digits_from 0 s.

Fixpoint only_digits (s : string) : bool :=
  match s with
  | EmptyString => true
  | String c s' => is_digit c && only_digits s'
  end.

Definition digit_char (d : Z) : ascii := ascii_of_nat (48 + Z.to_nat d).

Fixpoint str_digits (fuel : nat) (n : Z) (acc : string) : string :=
  match fuel with
  | O => acc
  | S fuel' =>
      let acc' := String (digit_char (n mod 10)) acc in
      if n <? 10 then acc' else str_digits fuel' (n / 10) acc'
  end.

(** [str(n)] for an integer. *)
Definition str_int (n : Z) : string :=
  if n <? 0
  then String "-"%char (str_digits (S (Z.to_nat (Z.log2 (- n)))) (- n) EmptyString)
  else str_digits (S (Z.to_nat (Z.log2 n))) n EmptyString.

(** ** Regular expressions of the module *)

(** [re.search(";size=(\d+)", s)]: the start of the leftmost match and
    the text of group 1. *)
Fixpoint search_size (s : string) : option (nat * string) :=
  match s with
  | EmptyString => None
  | String _ s' =>
      if startswith ";size=" s
      then match span_digits (drop 6 s) with
           | (String d ds, _) => Some (O, String d ds)
           | (EmptyString, _) =>
               match search_size s' with
               | Some (i, g) => Some (S i, g)
               | None => None
               end
           end
      else match search_size s' with
           | Some (i, g) => Some (S i, g)
           | None => None
           end
  end.

(** One attempt of ["(\d+.\d+)%"] at the head of [s] with the first
    [\d+] taking [k] characters: any character but a newline, then the
    longest run of digits, then a percent sign.  (A shorter second run
    would be followed by a digit, not by ["%"].) *)
Definition match_percent_with (k : nat) (s : string) : option string :=
  match drop k s with
  | String c r =>
      if Ascii.eqb c newline then None
      else match span_digits r with
           | (String d ds, String p _) =>
               if Ascii.eqb p "%"%char
               then Some (take (k + 1 + String.length (String d ds)) s)
               else None
           | _ => None
           end
  | EmptyString => None
  end.

(** The greedy first [\d+] gives back one digit at a time, down to one. *)
Fixpoint match_percent_from (k : nat) (s : string) : option string :=
  match k with
  | O => None
  | S k' =>
      match match_percent_with k s with
      | Some g => Some g
      | None => match_percent_from k' s
      end
  end.

Definition match_percent_here (s : string) : option string :=
  match_percent_from (String.length (fst (span_digits s))) s.

(** [re.search("(\d+.\d+)%", s)]: the text of group 1 of the leftmost
    match. *)
Fixpoint search_percent (s : string) : option string :=
  match s with
  | EmptyString => None
  | String _ s' =>
      match match_percent_here s with
      | Some g => Some g
      | None => search_percent s'
      end
  end.

Definition is_base_or_match (c : ascii) : bool :=
  existsb (Ascii.eqb c) (list_ascii_of_string "ACTGNacgtn.,").

(** [re.sub(r"\^.([ACTGNacgtn.,])", r"\1", s)]: scanning from the left,
    a caret, any character but a newline and a base symbol are replaced
    by the base symbol; matches do not overlap. *)
Fixpoint sub_read_start (s : string) : string :=
  match s with
  | EmptyString => EmptyString
  | String c1 s' =>
      match s' with
      | String c2 (String c3 r) =>
          if Ascii.eqb c1 "^"%char && negb (Ascii.eqb c2 newline) && is_base_or_match c3
          then String c3 (sub_read_start r)
          else String c1 (sub_read_start s')
      | _ => String c1 (sub_read_start s')
      end
  end.

(** [re.sub("[.,]", repl, s)] for a replacement without backslash, which
    the template leaves as it is. *)
Fixpoint sub_match_symbols (repl : string) (s : string) : string :=
  match s with
  | EmptyString => EmptyString
  | String c s' =>
      if Ascii.eqb c "."%char || Ascii.eqb c ","%char
      then repl ++ sub_match_symbols repl s'
      else String c (sub_match_symbols repl s')
  end.

(** ** Numbers *)

Definition sum (l : list Z) : Z := fold_left Z.add l 0.

(** [a / b] on integers: true division, the quotient taken exactly. *)
Definition true_div (a b : Z) : result Q :=
  if b =? 0 then Err ZeroDivisionError else Ok (inject_Z a / inject_Z b)%Q.

(** [a / b] on floats, the quotient taken exactly. *)
Definition float_div (a b : Q) : result Q :=
  if Qeq_bool b 0 then Err ZeroDivisionError else Ok (a / b)%Q.

(** The nearest integer, ties to the even one. *)
Definition round_half_even (x : Q) : Z :=
  let f := Qfloor x in
  match (x - inject_Z f ?= 1 # 2)%Q with
  | Lt => f
  | Gt => f + 1
  | Eq => if Z.even f then f else f + 1
  end.

(** [round(x, ndigits)]: the nearest multiple of [10^-ndigits]. *)
Definition py_round (x : Q) (ndigits : nat) : Q :=
  let scale := 10 ^ Z.of_nat ndigits in
  Qred (inject_Z (round_half_even (x * inject_Z scale)) / inject_Z scale).

(** [floor(log2 |x|)] for a number other than 0. *)
Definition binade (x : Q) : Z :=
  let e := Z.log2 (Z.abs (Qnum x)) - Z.log2 (Zpos (Qden x)) in
  if Qle_bool (2 ^ e) (Qabs x) then e else e - 1.

(** The float nearest to [x]: binary64, a mantissa of 53 bits, ties to
    the even mantissa.  The range of the exponent is not bounded: the
    numbers of the module stay far from overflow and underflow. *)
Definition binary64 (x : Q) : Q :=
  if Qeq_bool x 0 then 0%Q
  else let ulp := (2 ^ (binade x - 52))%Q in
       (inject_Z (round_half_even (x / ulp)) * ulp)%Q.

(** [x * y] on floats; an integer operand is converted to a float
    first, a float operand is left as it is. *)
Definition float_mul (x y : Q) : Q := binary64 (binary64 x * binary64 y).

(** [a / b] on integers, as a float: the quotient is rounded once. *)
Definition float_true_div (a b : Z) : result Q :=
  if b =? 0 then Err ZeroDivisionError else Ok (binary64 (inject_Z a / inject_Z b)).

Definition all_digits (s : string) : bool :=
  match span_digits s with
  | (_, EmptyString) => true
  | _ => false
  end.

(** [float(t)] for a text [t] that begins with a digit, as group 1 of
    ["(\d+.\d+)%"] does.  Between two runs of digits [float] accepts a
    decimal point, an exponent mark and (since Python 3.6) an
    underscore; with anything else it raises [ValueError]. *)
Definition float_of_text (t : string) : result Q :=
  match span_digits t with
  | (EmptyString, _) => Err ValueError
  | (a, EmptyString) => Ok (inject_Z (int_of_digits a))
  | (a, String c b) =>
      if negb (all_digits b) || (String.length b =? 0)%nat && negb (Ascii.eqb c "."%char)
      then Err ValueError
      else if Ascii.eqb c "."%char
      then Ok (inject_Z (int_of_digits a)
               + inject_Z (int_of_digits b) / inject_Z (10 ^ Z.of_nat (String.length b)))%Q
      else if Ascii.eqb c "_"%char
      then Ok (inject_Z (int_of_digits (a ++ b)))
      else if Ascii.eqb c "e"%char || Ascii.eqb c "E"%char
      then Ok (inject_Z (int_of_digits a) * inject_Z (10 ^ int_of_digits b))%Q
      else Err ValueError
  end.

Fixpoint frac_digits (fuel : nat) (r d : Z) : string :=
  match fuel with
  | O => EmptyString
  | S fuel' =>
      if r =? 0 then EmptyString
      else String (digit_char (10 * r / d)) (frac_digits fuel' ((10 * r) mod d) d)
  end.

(** [str(x)] for a float [x], in positional notation: the integer part,
    a point and the decimals, at least one.  Python prints the shortest
    decimal that reads back as [x]; for a number given by a decimal of
    up to 15 significant digits between [1e-4] and [1e16] that is the
    decimal itself, which is what this prints.  (Outside of that range
    Python writes an exponent; at most 17 decimals are printed here.) *)
Definition str_float (x : Q) : string :=
  let n := Z.abs (Qnum x) in
  let d := Zpos (Qden x) in
  let frac := frac_digits 17 (n mod d) d in
  (if Qnum x <? 0 then "-" else EmptyString) ++ str_int (n / d) ++ "."
  ++ (match frac with EmptyString => "0" | _ => frac end).

(** ** Dictionaries *)

Section Dict.
Context {V : Type}.

Definition dict : Type := list (string * V).

(** [d[k] = v] *)
Fixpoint dict_set (k : string) (v : V) (d : dict) : dict :=
  match d with
  | [] => [(k, v)]
  | (k', v') :: d' =>
      if String.eqb k' k then (k, v) :: d' else (k', v') :: dict_set k v d'
  end.

(** [d.get(k)] *)
Fixpoint dict_get (k : string) (d : dict) : option V :=
  match d with
  | [] => None
  | (k', v') :: d' => if String.eqb k' k then Some v' else dict_get k d'
  end.

Definition items (d : dict) : list (string * V) := d.
Definition values (d : dict) : list V := map snd d.
Definition keys (d : dict) : list string := map fst d.
End Dict.

Arguments dict V : clear implicits.

(** [enumerate(l)] *)
Definition enumerate {A : Type} (l : list A) : list (nat * A) :=
  combine (seq 0 (List.length l)) l.

(** ** class Clusters *)

(** The value [[sequence, percentage, n]] stored under a cluster name. *)
Record fasta_value : Type := {
  value_0 : string;   (* sequence *)
  value_1 : Q;        (* percentage *)
  value_2 : Z         (* number of reads *)
}.

Record Clusters : Type := {
  fasta_file : list string;
  dict_fasta : dict fasta_value;
  names : list string;
  sequences : list string;
  percentages : list Q;
  number_reads : list Z
}.

(** The body of the loop of [Clusters.__init__] for one numbered line. *)
Definition Clusters_init_line (self : Clusters) (item : nat * string)
  : result Clusters :=
  let (number, line) := item in
  if startswith ">" line then
    n_search <- group_or_fail (search_size line) ;;
    let n := int_of_digits (snd n_search) in
    percentage_search <- group_or_fail (search_percent line) ;;
    percentage <- float_of_text percentage_search ;;
    let name := slice 1 (fst n_search) line in
    sequence <- index_or_fail (fasta_file self) (number + 1) ;;
    Ok {| fasta_file := fasta_file self;
          dict_fasta := dict_set name
                          {| value_0 := sequence; value_1 := percentage; value_2 := n |}
                          (dict_fasta self);
          names := (names self ++ [name])%list;
          sequences := (sequences self ++ [sequence])%list;
          percentages := (percentages self ++ [percentage])%list;
          number_reads := (number_reads self ++ [n])%list |}
  else Ok self.

(** [Clusters.__init__], from the lines of the fasta file. *)
Definition Clusters_init (lines : list string) : result Clusters :=
  for_each Clusters_init_line (enumerate lines)
    {| fasta_file := lines; dict_fasta := []; names := []; sequences := [];
       percentages := []; number_reads := [] |}.

(** The loop the three Simpson methods share:
    [D = 0; for element in self.number_reads:
       d = (element/sum(self.number_reads))**2; D += d].
    The quotients, the squares and the sum are taken exactly. *)
Definition simpsons_D (self : Clusters) : result Q :=
  for_each (fun D element =>
              p <- true_div element (sum (number_reads self)) ;;
              Ok (D + p * p)%Q)
           (number_reads self) 0%Q.

Definition simpsons_index (self : Clusters) : result Q :=
  D <- simpsons_D self ;; Ok (py_round D 2).

Definition simpsons_index_of_diversity (self : Clusters) : result Q :=
  D <- simpsons_D self ;; Ok (py_round (1 - D) 2).

Definition simpsons_reciprocal_index (self : Clusters) : result Q :=
  D <- simpsons_D self ;;
  r <- float_div 1 D ;;
  Ok (py_round r 2).

(** [a / b] on integers, read in the real numbers. *)
Definition true_div_R (a b : Z) : result R :=
  if b =? 0 then Err ZeroDivisionError else Ok (IZR a / IZR b)%R.

(** [a / b] on floats, read in the real numbers. *)
Definition float_div_R (a b : R) : result R :=
  if Req_dec_T b 0 then Err ZeroDivisionError else Ok (a / b)%R.

(** [math.log(x)]: the natural logarithm, [ValueError] outside of its
    domain. *)
Definition math_log (x : R) : result R :=
  if Rlt_dec 0 x then Ok (ln x) else Err ValueError.

Definition round_half_even_R (x : R) : Z :=
  let f := Int_part x in
  if Rlt_dec (x - IZR f) (1 / 2) then f
  else if Rlt_dec (1 / 2) (x - IZR f) then f + 1
  else if Z.even f then f else f + 1.

(** [round(x, ndigits)] on a real number. *)
Definition py_round_R (x : R) (ndigits : nat) : R :=
  (IZR (round_half_even_R (x * 10 ^ ndigits)) / 10 ^ ndigits)%R.

(** The first loop of [shannon_entropy]: the sizes of the clusters at
    or above [minimun_perc], and their sum. *)
Definition sizes_above (self : Clusters) (minimun_perc : Q) : Z * list Z :=
  fold_left (fun acc kv =>
               let value := snd (kv : string * fasta_value) in
               if Qle_bool minimun_perc (value_1 value)
               then (fst acc + value_2 value, (snd acc ++ [value_2 value])%list)
               else acc)
            (items (dict_fasta self)) (0, []).

Definition shannon_entropy (self : Clusters) (minimun_perc : Q) : result R :=
  let (number_reads, list_sizes) := sizes_above self minimun_perc in
  entropy <-
    for_each (fun entropy v =>
                p <- true_div_R v number_reads ;;
                l <- math_log p ;;
                Ok (entropy + p * l)%R)
             list_sizes 0%R ;;
  l <- math_log (IZR number_reads) ;;
  q <- float_div_R entropy l ;;
  Ok (py_round_R (- q) 3).

(** [clusters_object_to_fasta]: the text written to the output file. *)
Definition clusters_object_to_fasta (self : Clusters) : string :=
  fold_left (fun out kv =>
               let (key, value) := (kv : string * fasta_value) in
               out ++ (">" ++ key ++ "_size=" ++ str_float (value_1 value) ++ "_"
                       ++ str_float (value_1 value) ++ "%" ++ nl)
                   ++ value_0 value)
            (items (dict_fasta self)) EmptyString.

(** [filtering_clusters_by_percentage_to_fasta]: the text written to the
    output file (what the method prints on the way is left out).  The
    product [number_reads * minimun_perc] is taken exactly. *)
Definition filtering_clusters_by_percentage_to_fasta
    (self : Clusters) (minimun_perc : Q) : string :=
  let number_reads :=
    fold_left (fun acc kv => acc + value_2 (snd kv)) (items (dict_fasta self)) 0 in
  fold_left (fun out kv =>
               let value := snd (kv : string * fasta_value) in
               if Qle_bool (inject_Z number_reads * minimun_perc) (inject_Z (value_2 value))
               then out ++ value_0 value
               else out)
            (items (dict_fasta self)) EmptyString.

(** [line[0] == ">"] *)
Definition first_is_gt (line : string) : result bool :=
  match line with
  | EmptyString => Err IndexError
  | String c _ => Ok (Ascii.eqb c ">"%char)
  end.

(** The module-level [filtering_fastaclusters_by_percentage], from the
    lines of the input file to the text of the output file. *)
Definition filtering_fastaclusters_by_percentage
    (fasta_in : list string) (minimun_perc : Q) : result string :=
  number_reads <-
    for_each (fun acc item =>
                h <- first_is_gt (snd item) ;;
                if (h : bool) then
                  n_search <- group_or_fail (search_size (snd item)) ;;
                  Ok (acc + int_of_digits (snd n_search))
                else Ok acc)
             (enumerate fasta_in) 0 ;;
  for_each (fun out item =>
              let (number, line) := (item : nat * string) in
              h <- first_is_gt line ;;
              if (h : bool) then
                n_search <- group_or_fail (search_size line) ;;
                let n := int_of_digits (snd n_search) in
                if Qle_bool (float_mul (inject_Z number_reads) minimun_perc) (inject_Z n) then
                  p <- float_true_div n number_reads ;;
                  sequence <- index_or_fail fasta_in (number + 1) ;;
                  Ok (out ++ (rstrip line ++ "_" ++ str_float (py_round (float_mul p 100) 2)
                              ++ "%" ++ nl)
                          ++ sequence)
                else Ok out
              else Ok out)
           (enumerate fasta_in) EmptyString.

(** ** class Pileup *)

Record Pileup : Type := {
  dict_pileup : dict string;
  polymorphic_sites_dict : dict string;
  pileup_file : list string
}.

(** The body of the loop of [Pileup.__init__] for one numbered line. *)
Definition Pileup_init_line (min_reads_per_position : Z) (self : Pileup)
    (item : nat * string) : result Pileup :=
  let (n, line) := item in
  let line_elements := split_tab line in
  ref <- index_or_fail line_elements 0 ;;
  line_number <- index_or_fail line_elements 1 ;;
  ref_base <- index_or_fail line_elements 2 ;;
  pos_depth <- index_or_fail line_elements 3 ;;
  base_qualities <- index_or_fail line_elements 5 ;;
  pos_bases_original <- index_or_fail line_elements 4 ;;
  if Z.of_nat n <? min_reads_per_position then
    let pos_bases_sub_1 := upper (sub_read_start pos_bases_original) in
    let pos_bases_sub_2 := upper (sub_match_symbols ref_base pos_bases_sub_1) in
    Ok {| dict_pileup := dict_set line_number pos_bases_sub_2 (dict_pileup self);
          polymorphic_sites_dict := polymorphic_sites_dict self;
          pileup_file := pileup_file self |}
  else
    let pos_bases_sub := upper (sub_match_symbols ref_base pos_bases_original) in
    Ok {| dict_pileup := dict_set line_number pos_bases_sub (dict_pileup self);
          polymorphic_sites_dict := polymorphic_sites_dict self;
          pileup_file := pileup_file self |}.

(** [Pileup.__init__], from the lines of the pileup file. *)
Definition Pileup_init (lines : list string) (min_reads_per_position : Z)
  : result Pileup :=
  for_each (Pileup_init_line min_reads_per_position) (enumerate lines)
    {| dict_pileup := []; polymorphic_sites_dict := []; pileup_file := lines |}.

(** The four counts [A], [T], [C], [G] both methods take of a stored
    base string. *)
Record tally : Type := { nA : Z; nT : Z; nC : Z; nG : Z }.

Definition base_counts (pos : string) : tally :=
  {| nA := count "A" (upper pos);
     nT := count "T" (upper pos);
     nC := count "C" (upper pos);
     nG := count "G" (upper pos) |}.

Definition sum_floats (l : list Q) : Q := fold_left Qplus l 0%Q.

(** [Di] of one position, as line 265 computes it, the quotient taken
    exactly. *)
Definition position_Di (pos : string) : result Q :=
  let t := base_counts pos in
  let A := nA t in let T := nT t in let C := nC t in let G := nG t in
  let reads := A + C + T + G in
  float_div (inject_Z (A * C + A * G + A * T + C * G + C * T + G * T))
            (inject_Z (reads ^ 2 - reads) / 2)%Q.

Definition nucleotide_diversity (self : Pileup) : result Q :=
  nuc_diversity_list <-
    for_each (fun acc pos => Di <- position_Di pos ;; Ok (acc ++ [Di])%list)
             (values (dict_pileup self)) [] ;;
  total_nuc_diversity <-
    float_div (sum_floats nuc_diversity_list)
              (inject_Z (Z.of_nat (List.length (values (dict_pileup self))))) ;;
  Ok (py_round total_nuc_diversity 4).

(** [l.sort()] on integers. *)
Fixpoint insert_sorted (x : Z) (l : list Z) : list Z :=
  match l with
  | [] => [x]
  | y :: l' => if x <=? y then x :: l else y :: insert_sorted x l'
  end.

Definition sort (l : list Z) : list Z := fold_right insert_sorted [] l.

(** [list_n_bases = [A,T,C,G]; list_n_bases.sort()] *)
Definition list_n_bases (value : string) : list Z :=
  let t := base_counts value in sort [nA t; nT t; nC t; nG t].

(** The test of one position in [polymorphic_sites]; [None] when
    [value_type] is neither of the two names, and nothing is looked at.
    [sum(list_n_bases) * cutoff] is a product of floats. *)
Definition site_test (value_type : string) (cutoff : Q) (value : string)
  : option bool :=
  if (value_type =? "percentage")%string then
    Some (negb (Qle_bool (inject_Z (nth 2 (list_n_bases value) 0))
                         (float_mul (inject_Z (sum (list_n_bases value))) cutoff)))
  else if (value_type =? "number_reads")%string then
    Some (negb (Qle_bool (inject_Z (nth 2 (list_n_bases value) 0)) cutoff))
  else None.

(** [polymorphic_sites]: the number returned and the object afterwards.
    (Line 300 of the source is indented with a tab among lines indented
    with spaces; it is read at the depth of the three lines after it,
    as the loop body of the [number_reads] branch.) *)
Definition polymorphic_sites (value_type : string) (cutoff : Q) (self : Pileup)
  : Z * Pileup :=
  fold_left (fun st kv =>
               let (number_polymorphic_sites, self') := (st : Z * Pileup) in
               let (key, value) := (kv : string * string) in
               match site_test value_type cutoff value with
               | Some true =>
                   (number_polymorphic_sites + 1,
                    {| dict_pileup := dict_pileup self';
                       polymorphic_sites_dict :=
                         dict_set key value (polymorphic_sites_dict self');
                       pileup_file := pileup_file self' |})
               | _ => st
               end)
            (items (dict_pileup self)) (0, self).

(** ** Clusters: the number of haplotypes *)

(** The line [number_haplotypes] prints. *)
Definition haplotypes_message (counter_haplotypes counter_over : Z) : string :=
  "From a total of " ++ str_int counter_haplotypes ++ " haplotypes only "
  ++ str_int counter_over ++ " are above the cutoff" ++ nl.

(** [number_haplotypes]: what is printed and what is returned.  The
    loops run over the keys and read [self.dict_fasta[key]], which a key
    of the dictionary always has. *)
Definition number_haplotypes (self : Clusters) (value_type : string) (cutoff : Q)
  : string * Z :=
  let counters :=
    if (value_type =? "percentage")%string then
      fold_left (fun c key =>
                   (fst c + 1,
                    match dict_get key (dict_fasta self) with
                    | Some value =>
                        if Qle_bool cutoff (value_1 value) then snd c + 1 else snd c
                    | None => snd c
                    end))
                (keys (dict_fasta self)) (0, 0)
    else if (value_type =? "number_reads")%string then
      fold_left (fun c key =>
                   (fst c + 1,
                    match dict_get key (dict_fasta self) with
                    | Some value =>
                        if Qle_bool cutoff (inject_Z (value_2 value)) then snd c + 1
                        else snd c
                    | None => snd c
                    end))
                (keys (dict_fasta self)) (0, 0)
    else (0, 0) in
  (haplotypes_message (fst counters) (snd counters), snd counters).

(** ** Built-ins and regular expressions of the module-level functions *)

(** [line[0]] *)
Definition first_char (line : string) : result ascii :=
  match line with
  | EmptyString => Err IndexError
  | String c _ => Ok c
  end.

(** [range(start, stop, step)] for a positive step; at most [stop]
    numbers are below [stop]. *)
Fixpoint range_from (fuel start stop step : nat) : list nat :=
  match fuel with
  | O => []
  | S fuel' =>
      if (start <? stop)%nat then start :: range_from fuel' (start + step) stop step
      else []
  end.

Definition range (start stop step : nat) : list nat := range_from stop start stop step.

(** [re.sub('^@', '>', line)] *)
Definition sub_leading_at (line : string) : string :=
  match line with
  | String c r => if Ascii.eqb c "@"%char then String ">"%char r else line
  | EmptyString => line
  end.

(** [re.sub(";\|", "\n", s)]: scanning from the left, a semicolon and a
    bar are replaced by a newline. *)
Fixpoint sub_semicolon_bar (s : string) : string :=
  match s with
  | EmptyString => EmptyString
  | String c s' =>
      match s' with
      | String c2 r =>
          if Ascii.eqb c ";"%char && Ascii.eqb c2 "|"%char
          then String newline (sub_semicolon_bar r)
          else String c (sub_semicolon_bar s')
      | EmptyString => String c EmptyString
      end
  end.

(** [re.sub("\|", "", s)] *)
Fixpoint remove_bars (s : string) : string :=
  match s with
  | EmptyString => EmptyString
  | String c s' =>
      if Ascii.eqb c "|"%char then remove_bars s' else String c (remove_bars s')
  end.

(** [re.search("size=(\d+)", s)]: the text of group 1 of the leftmost
    match. *)
Fixpoint search_plain_size (s : string) : option string :=
  match s with
  | EmptyString => None
  | String _ s' =>
      if startswith "size=" s
      then match span_digits (drop 5 s) with
           | (String d ds, _) => Some (String d ds)
           | (EmptyString, _) => search_plain_size s'
           end
      else search_plain_size s'
  end.

(** [s.find(";size")]: the index of the first occurrence, [None] for
    the [-1] of no occurrence. *)
Fixpoint find_size (s : string) : option nat :=
  match s with
  | EmptyString => None
  | String _ s' =>
      if startswith ";size" s then Some O
      else match find_size s' with
           | Some i => Some (S i)
           | None => None
           end
  end.

(** [re.sub("(\d+.\d+)%", repl, s)] for a replacement without
    backslash: scanning from the left, every match is replaced and the
    scan goes on behind it.  [skip] counts the characters of a match
    still to pass over. *)
Fixpoint sub_percent_from (skip : nat) (repl s : string) : string :=
  match s with
  | EmptyString => EmptyString
  | String c s' =>
      match skip with
      | S k => sub_percent_from k repl s'
      | O =>
          match match_percent_here s with
          | Some g => repl ++ sub_percent_from (String.length g) repl s'
          | None => String c (sub_percent_from O repl s')
          end
      end
  end.

Definition sub_percent (repl s : string) : string := sub_percent_from 0 repl s.

(** ** Module-level functions *)

(** The module-level [normalize_percentage], from the lines of the
    input file to the text of the output file. *)
Definition normalize_percentage (fasta_in : list string) : result string :=
  number_reads <-
    for_each (fun acc item =>
                h <- first_is_gt (snd item) ;;
                if (h : bool) then
                  n_search <- group_or_fail (search_size (snd item)) ;;
                  Ok (acc + int_of_digits (snd n_search))
                else Ok acc)
             (enumerate fasta_in) 0 ;;
  for_each (fun out item =>
              let (number, line) := (item : nat * string) in
              h <- first_is_gt line ;;
              if (h : bool) then
                n_search <- group_or_fail (search_size line) ;;
                let n := int_of_digits (snd n_search) in
                p <- float_true_div n number_reads ;;
                let new_n := py_round (float_mul 100 p) 2 in
                let new_line := sub_percent (str_float new_n) line in
                sequence <- index_or_fail fasta_in (number + 1) ;;
                Ok (out ++ (rstrip new_line ++ "%" ++ nl) ++ sequence)
              else Ok out)
           (enumerate fasta_in) EmptyString.

(** [sam_to_fasta], from the lines of the SAM file to the text of the
    fasta file. *)
Definition sam_to_fasta (SAM_lines : list string) : result string :=
  for_each (fun out line =>
              c <- first_char line ;;
              if negb (Ascii.eqb c "@"%char) then
                let line_elements := split_tab line in
                name <- index_or_fail line_elements 0 ;;
                bases <- index_or_fail line_elements 9 ;;
                Ok (out ++ (">" ++ name ++ nl) ++ (bases ++ nl))
              else Ok out)
           SAM_lines EmptyString.

(** [fastq_to_fasta], from the lines of the fastq file to the text of
    the fasta file. *)
Definition fastq_to_fasta (fastq : list string) : string :=
  let list_name_lines := range 0 (List.length fastq + 1) 4 in
  let list_bases_lines := range 1 (List.length fastq + 1) 4 in
  fold_left (fun out item =>
               let (number, line) := (item : nat * string) in
               if existsb (Nat.eqb number) list_name_lines
               then out ++ sub_leading_at line
               else if existsb (Nat.eqb number) list_bases_lines
               then out ++ line
               else out)
            (enumerate fastq) EmptyString.

(** [multiline_fasta_to_singleline], from the lines of the input file
    to the text of the output file. *)
Definition multiline_fasta_to_singleline (fasta_ML : list string) : string :=
  let fasta_ML' :=
    map (fun line => if startswith ">" line then nl ++ rstrip line else rstrip line)
        fasta_ML in
  let data := String.concat "|" fasta_ML' in
  let data := drop 1 data in
  let x := sub_semicolon_bar data in
  let y := remove_bars x in
  y ++ nl.

(** [clusters_to_single_reads], from the lines of the clusters file to
    the text of the reads file.  With no [";size"] in the line the
    slice [line[:-1]] leaves out its last character. *)
Definition clusters_to_single_reads (fasta_ML : list string) : result string :=
  for_each (fun out item =>
              let (n, line) := (item : nat * string) in
              if startswith ">" line then
                count_match <- group_or_fail (search_plain_size line) ;;
                let count_number := int_of_digits count_match in
                let read_name :=
                  match find_size line with
                  | Some i => take i line
                  | None => take (String.length line - 1) line
                  end in
                for_each (fun out i =>
                            sequence <- index_or_fail fasta_ML (n + 1) ;;
                            Ok (out ++ (read_name ++ "_" ++ str_int i ++ nl) ++ sequence))
                         (map Z.of_nat (seq 0 (Z.to_nat count_number))) out
              else Ok out)
           (enumerate fasta_ML) EmptyString.

(** The module-level [writing_percentage_to_clusters], from the lines of
    the input file to the text of the output file. *)
Definition writing_percentage_to_clusters
    (fasta_in : list string) (minimun_perc : Q) : result string :=
  number_reads <-
    for_each (fun acc item =>
                h <- first_is_gt (snd item) ;;
                if (h : bool) then
                  n_search <- group_or_fail (search_size (snd item)) ;;
                  Ok (acc + int_of_digits (snd n_search))
                else Ok acc)
             (enumerate fasta_in) 0 ;;
  for_each (fun out item =>
              let (number, line) := (item : nat * string) in
              h <- first_is_gt line ;;
              if (h : bool) then
                n_search <- group_or_fail (search_size line) ;;
                let n := int_of_digits (snd n_search) in
                if Qle_bool (float_mul (inject_Z number_reads) minimun_perc) (inject_Z n) then
                  p <- float_true_div n number_reads ;;
                  sequence <- index_or_fail fasta_in (number + 1) ;;
                  Ok (out ++ (rstrip line ++ str_float (py_round (float_mul p 100) 2)
                              ++ "%" ++ nl)
                          ++ sequence)
                else Ok out
              else Ok out)
           (enumerate fasta_in) EmptyString.

(** ** Notions of the specification *)

(** *** On pileups *)

(** The read bases of a pileup column as the specification describes
    them: read-start markup removed, match symbols replaced by the
    reference base, upper case. *)
Definition read_bases (ref_base pos_bases : string) : string :=
  upper (sub_match_symbols ref_base (upper (sub_read_start pos_bases))).

(** [n = A + C + T + G] *)
Definition reads_counted (pos : string) : Z :=
  let t := base_counts pos in nA t + nC t + nT t + nG t.

(** [Di = (AC+AG+AT+CG+CT+GT) / C(n,2)] with [C(n,2) = n(n-1)/2]. *)
Definition Di_spec (t : tally) : Q :=
  let n := nA t + nC t + nT t + nG t in
  (inject_Z (nA t * nC t + nA t * nG t + nA t * nT t
             + nC t * nG t + nC t * nT t + nG t * nT t)
   / (inject_Z (n * (n - 1)) / 2))%Q.



(** How many characters of the column are the letter, in upper or in
    lower case. *)
Definition letter_count (upper_case lower_case : ascii) (value : string) : Z :=
  Z.of_nat (List.length (filter (fun c => Ascii.eqb c upper_case || Ascii.eqb c lower_case)
                                (list_ascii_of_string value))).

(** The four base counts of a column. *)
Definition observed (value : string) : tally :=
  {| nA := letter_count "A" "a" value;
     nT := letter_count "T" "t" value;
     nC := letter_count "C" "c" value;
     nG := letter_count "G" "g" value |}.

Definition total_count (t : tally) : Z := nA t + nT t + nC t + nG t.

(** The second-most-abundant count: the largest number that two of the
    four counts reach. *)
Definition second_highest (t : tally) : Z :=
  Z.max (Z.max (Z.max (Z.min (nA t) (nT t)) (Z.min (nA t) (nC t)))
               (Z.max (Z.min (nA t) (nG t)) (Z.min (nT t) (nC t))))
        (Z.max (Z.min (nT t) (nG t)) (Z.min (nC t) (nG t))).

Definition Qlt_bool (x y : Q) : bool := if Qlt_le_dec x y then true else false.

(** [second_highest > total_count * cutoff], the product being the
    exact one. *)
Definition above_percentage (cutoff : Q) (value : string) : bool :=
  Qlt_bool (inject_Z (total_count (observed value)) * cutoff)
           (inject_Z (second_highest (observed value))).

(** [second_highest > total_count * cutoff], the product being the
    product of floats. *)
Definition above_float_product (cutoff : Q) (value : string) : bool :=
  Qlt_bool (float_mul (inject_Z (total_count (observed value))) cutoff)
           (inject_Z (second_highest (observed value))).

(** [second_highest > cutoff] *)
Definition above_number_reads (cutoff : Q) (value : string) : bool :=
  Qlt_bool cutoff (inject_Z (second_highest (observed value))).

(** How many of the four bases were observed at all. *)
Definition distinct_bases (t : tally) : nat :=
  List.length (filter (fun n => 0 <? n) [nA t; nT t; nC t; nG t]).

Definition count_positions (P : string -> bool) (self : Pileup) : Z :=
  Z.of_nat (List.length (filter (fun kv => P (snd kv)) (items (dict_pileup self)))).

(** A sequence of calls [polymorphic_sites(value_type, cutoff)] on one
    object. *)
Definition run_calls (calls : list (string * Q)) (self : Pileup) : Pileup :=
  fold_left (fun s call => snd (polymorphic_sites (fst call) (snd call) s)) calls self.

(** The position's column passes the test of one of the calls. *)
Definition qualifies_in (calls : list (string * Q)) (value : string) : Prop :=
  exists call, In call calls /\ site_test (fst call) (snd call) value = Some true.

(** *** On clusters *)


(** The clusters at or above the threshold of [shannon_entropy]. *)
Definition restricted (self : Clusters) (minimun_perc : Q) : list (string * fasta_value) :=
  filter (fun kv => Qle_bool minimun_perc (value_1 (snd kv))) (items (dict_fasta self)).

(** The total [filtering_clusters_by_percentage_to_fasta] compares with. *)
Definition total_reads (self : Clusters) : Z :=
  fold_right Z.add 0 (map (fun kv => value_2 (snd kv)) (items (dict_fasta self))).

(** [read_count >= total_reads * min_fraction] *)
Definition selected (self : Clusters) (min_fraction : Q) (kv : string * fasta_value) : bool :=
  Qle_bool (inject_Z (total_reads self) * min_fraction) (inject_Z (value_2 (snd kv))).

(** ** Auxiliary definitions of the proofs *)

(** One step of the loop of [polymorphic_sites]. *)
Definition site_step (value_type : string) (cutoff : Q) (st : Z * Pileup)
    (kv : string * string) : Z * Pileup :=
  match site_test value_type cutoff (snd kv) with
  | Some true =>
      (fst st + 1,
       {| dict_pileup := dict_pileup (snd st);
          polymorphic_sites_dict := dict_set (fst kv) (snd kv) (polymorphic_sites_dict (snd st));
          pileup_file := pileup_file (snd st) |})
  | _ => st
  end.

Definition sum_squares (l : list Z) : Z := fold_right (fun x a => x * x + a) 0 l.

(** [";size="] and a digit begin the string. *)
Definition size_tag_here (s : string) : bool :=
  startswith ";size=" s
  && match drop 6 s with
     | String d _ => is_digit d
     | EmptyString => false
     end.

(** No position of the string begins a size annotation. *)
Fixpoint tag_free (s : string) : bool :=
  match s with
  | EmptyString => true
  | String c s' => negb (size_tag_here s) && tag_free s'
  end.

Fixpoint mentions (c : ascii) (s : string) : bool :=
  match s with
  | EmptyString => false
  | String d s' => Ascii.eqb d c || mentions c s'
  end.

(** The header line [clusters_object_to_fasta] writes for one cluster. *)
Definition export_header (key : string) (value : fasta_value) : string :=
  ">" ++ key ++ "_size=" ++ str_float (value_1 value) ++ "_"
  ++ str_float (value_1 value) ++ "%" ++ nl.

(** Square roots in fixed point: [a] stands for [a / M].  [sqrt_up]
    takes [k] square roots rounding up, [sqrt_down] rounding down. *)
Fixpoint sqrt_up (M : Z) (k : nat) (a : Z) : Z :=
  match k with
  | O => a
  | S k' => sqrt_up M k' (Z.sqrt (a * M) + 1)
  end.

Fixpoint sqrt_down (M : Z) (k : nat) (a : Z) : Z :=
  match k with
  | O => a
  | S k' => sqrt_down M k' (Z.sqrt (a * M))
  end.

Definition M18 : Z := 10 ^ 18.

(** ** Inputs used below *)

Definition pileup_line (ref pos ref_base depth bases quals : string) : string :=
  ref ++ String tab pos ++ String tab ref_base ++ String tab depth
  ++ String tab bases ++ String tab quals ++ nl.

(** The two clusters of the module's docstring. *)
Definition doc_example : list string :=
  [ ">ReadA;size=180_90.0%" ++ nl; "AAATTTCCCGGG" ++ nl;
    ">ReadB;size=20_10.0%" ++ nl; "TTTAAATTTGGG " ++ nl ].

Definition one_cluster : list string :=
  [ ">ReadA;size=180_100.0%" ++ nl; "AAATTTCCCGGG" ++ nl ].

Definition three_singletons : list string :=
  [ ">a;size=1_33.33%" ++ nl; "AAA" ++ nl;
    ">b;size=1_33.33%" ++ nl; "AAC" ++ nl;
    ">c;size=1_33.33%" ++ nl; "AAG" ++ nl ].

Definition loaded (r : result Clusters) : Clusters :=
  match r with
  | Ok c => c
  | Err _ => {| fasta_file := []; dict_fasta := []; names := []; sequences := [];
                percentages := []; number_reads := [] |}
  end.

Definition doc_clusters : Clusters := Eval vm_compute in loaded (Clusters_init doc_example).

Definition one_cluster_clusters : Clusters :=
  Eval vm_compute in loaded (Clusters_init one_cluster).

Definition three_singletons_clusters : Clusters :=
  Eval vm_compute in loaded (Clusters_init three_singletons).

(** One read that starts at the position, with mapping quality 32
    (the character [A]), and matches the reference base [T]. *)
Definition read_start_line (pos : string) : string :=
  pileup_line "chr1" pos "T" "1" "^A." "I".

Definition eight_reads_line : string :=
  pileup_line "chr1" "1" "T" "8" "AAAA,,,," "IIIIIIII".

Definition single_read_line : string :=
  pileup_line "chr1" "2" "T" "1" "." "I".

Definition eight_reads_pileup : Pileup :=
  {| dict_pileup := [("1", "AAAATTTT")];
     polymorphic_sites_dict := [];
     pileup_file := [eight_reads_line] |}.

Definition single_read_pileup : Pileup :=
  {| dict_pileup := [("2", "T")];
     polymorphic_sites_dict := [];
     pileup_file := [single_read_line] |}.


(** One position with 71 reads of A and 29 of T. *)
Definition boundary_column : string :=
  Eval vm_compute in
    string_of_list_ascii (repeat "A"%char 71 ++ repeat "T"%char 29).

Definition boundary_line : string :=
  pileup_line "chr1" "1" "A" "100" boundary_column "*".

Definition boundary_pileup : Pileup :=
  {| dict_pileup := [("1", boundary_column)];
     polymorphic_sites_dict := [];
     pileup_file := [boundary_line] |}.

(** One position with 7 reads of A and 3 of T. *)
Definition ten_reads_line : string :=
  pileup_line "chr1" "1" "A" "10" "AAAAAAATTT" "IIIIIIIIII".

Definition ten_reads_pileup : Pileup :=
  {| dict_pileup := [("1", "AAAAAAATTT")];
     polymorphic_sites_dict := [];
     pileup_file := [ten_reads_line] |}.

Definition accumulate_calls : list (string * Q) := [("number_reads", 0%Q); ("number_reads", 5%Q)].

(** ** Notions of the further properties *)

(** [r] is the integer nearest to [x], the even one of two. *)
Definition nearest_even (x : Q) (r : Z) : Prop :=
  (- (1 # 2) < x - inject_Z r /\ x - inject_Z r < 1 # 2)%Q
  \/ ((x - inject_Z r == 1 # 2 \/ x - inject_Z r == - (1 # 2))%Q /\ Z.even r = true).

(** What [Clusters.__init__] needs of the header on line [number]: a
    size annotation, a percentage that [float] reads, and a line after
    it. *)
Definition header_ok (lines : list string) (number : nat) (line : string) : Prop :=
  search_size line <> None
  /\ (exists t q, search_percent line = Some t /\ float_of_text t = Ok q)
  /\ nth_error lines (number + 1) <> None.

(** The collection [Clusters.__init__] starts from. *)
Definition empty_clusters (lines : list string) : Clusters :=
  {| fasta_file := lines; dict_fasta := []; names := []; sequences := [];
     percentages := []; number_reads := [] |}.

(** What the loop of [Clusters.__init__] keeps true. *)
Definition lists_agree (c : Clusters) : Prop :=
  List.length (sequences c) = List.length (names c)
  /\ List.length (percentages c) = List.length (names c)
  /\ List.length (number_reads c) = List.length (names c)
  /\ NoDup (keys (dict_fasta c))
  /\ (forall name, In name (names c) <-> In name (keys (dict_fasta c))).

(** The clusters with at least [cutoff] reads. *)
Definition with_reads (self : Clusters) (cutoff : Q) : list (string * fasta_value) :=
  filter (fun kv => Qle_bool cutoff (inject_Z (value_2 (snd kv)))) (items (dict_fasta self)).

(** The pileup [Pileup.__init__] starts from. *)
Definition empty_pileup (lines : list string) : Pileup :=
  {| dict_pileup := []; polymorphic_sites_dict := []; pileup_file := lines |}.

(** The reference base of the line, when it has one, holds no
    backslash: [re.sub] then takes it as the replacement as it is. *)
Definition plain_reference (line : string) : bool :=
  match nth_error (split_tab line) 2 with
  | Some ref_base => negb (mentions "\" ref_base)
  | None => true
  end.

(** The position and the column [Pileup.__init__] stores for line
    number [n], when the line has its six fields. *)
Definition stored_column (min_reads_per_position : Z) (n : nat) (line : string)
  : option (string * string) :=
  match split_tab line with
  | _ :: line_number :: ref_base :: _ :: pos_bases_original :: _ :: _ =>
      Some (line_number,
            if Z.of_nat n <? min_reads_per_position
            then read_bases ref_base pos_bases_original
            else upper (sub_match_symbols ref_base pos_bases_original))
  | _ => None
  end.

(** The column of the last line that has position [key]. *)
Definition last_column (min_reads_per_position : Z) (key : string)
    (l : list (nat * string)) : option string :=
  fold_left (fun found item =>
               match stored_column min_reads_per_position (fst item) (snd item) with
               | Some (k, v) => if String.eqb k key then Some v else found
               | None => found
               end) l None.

(** The positions of [l] that pass the test. *)
Definition passing (value_type : string) (cutoff : Q) (l : list (string * string))
  : list (string * string) :=
  filter (fun kv => match site_test value_type cutoff (snd kv) with
                    | Some true => true
                    | _ => false
                    end) l.

(** A line as [readlines()] gives it: a newline, if any, is its last
    character. *)
Fixpoint one_line (s : string) : bool :=
  match s with
  | EmptyString => true
  | String c s' =>
      if Ascii.eqb c newline
      then match s' with EmptyString => true | _ => false end
      else one_line s'
  end.

(** What [sam_to_fasta] does with one line: nothing for a header line,
    the name and the bases for an alignment line. *)
Definition sam_record (line : string) : list string :=
  if startswith "@" line then []
  else [">" ++ nth 0 (split_tab line) EmptyString ++ nl;
        nth 9 (split_tab line) EmptyString ++ nl].

(** A header line, or an alignment line with its eleven mandatory
    fields. *)
Definition sam_line (line : string) : bool :=
  startswith "@" line || (11 <=? List.length (split_tab line))%nat.

(** The four lines of the reads of a fastq file. *)
Definition fastq_lines (records : list (string * string * string * string)) : list string :=
  flat_map (fun r => match r with (name, bases, plus, quals) => [name; bases; plus; quals] end)
           records.

Definition sam_piece (line : string) : result string :=
  c <- first_char line ;;
  if negb (Ascii.eqb c "@"%char) then
    name <- index_or_fail (split_tab line) 0 ;;
    bases <- index_or_fail (split_tab line) 9 ;;
    Ok ((">" ++ name ++ nl) ++ (bases ++ nl))
  else Ok EmptyString.

(** What [fastq_to_fasta] copies of line [number]. *)
Definition fastq_copy (number : nat) (line : string) : string :=
  if (number mod 4 =? 0)%nat then sub_leading_at line
  else if (number mod 4 =? 1)%nat then line
  else EmptyString.

(** A line that ends with its only newline. *)
Fixpoint full_line (s : string) : bool :=
  match s with
  | EmptyString => false
  | String c s' =>
      if Ascii.eqb c newline
      then match s' with EmptyString => true | _ => false end
      else full_line s'
  end.

(** In a header line, the text before the size annotation holds
    neither [;] nor [=]. *)
Definition plain_header (line : string) : bool :=
  negb (startswith ">" line)
  || match search_size line with
     | Some (i, _) => negb (mentions ";" (take i line)) && negb (mentions "=" (take i line))
     | None => true
     end.

(** The reads of one cluster: name and sequence line, [n] times. *)
Definition single_reads (name sequence : string) (n : Z) : list string :=
  flat_map (fun i => [">" ++ name ++ "_" ++ str_int i ++ nl; sequence])
           (map Z.of_nat (seq 0 (Z.to_nat n))).

(** The reads of the clusters, in their order. *)
Fixpoint expand (names sequences : list string) (number_reads : list Z) : list string :=
  match names, sequences, number_reads with
  | name :: names', sequence :: sequences', n :: number_reads' =>
      (single_reads name sequence n ++ expand names' sequences' number_reads')%list
  | _, _, _ => []
  end.

(** A cluster as a clustering tool writes it: a name, the digits of its
    size and a sequence. *)
Definition cluster_lines (records : list (string * string * string)) : list string :=
  flat_map (fun r => match r with
                     | (name, digits, sequence) =>
                         [">" ++ name ++ ";size=" ++ digits ++ nl; sequence ++ nl]
                     end)
           records.

Definition record_size (r : string * string * string) : Z := int_of_digits (snd (fst r)).

Definition plain_record (r : string * string * string) : bool :=
  match r with
  | (name, digits, sequence) =>
      negb (mentions ";" name) && negb (mentions newline name)
      && only_digits digits && (1 <=? int_of_digits digits)
      && negb (mentions newline sequence) && negb (startswith ">" sequence)
  end.

Definition total_size (records : list (string * string * string)) : Z :=
  fold_right Z.add 0 (map record_size records).

(** The clusters both functions keep: those whose size is at least the
    product of floats [total * minimun_perc]. *)
Definition kept (records : list (string * string * string)) (minimun_perc : Q)
  : list (string * string * string) :=
  filter (fun r => Qle_bool (float_mul (inject_Z (total_size records)) minimun_perc)
                            (inject_Z (record_size r)))
         records.

(** The percentage written for [n] reads of [total]: the quotient and
    its product with 100 are floats, and the product is rounded to two
    decimals. *)
Definition percentage_of (n total : Z) : Q :=
  py_round (float_mul (binary64 (inject_Z n / inject_Z total)) 100) 2.

(** The header line written for a kept cluster, with the text [sep]
    between the input line and the percentage. *)
Definition written_header (sep : string) (total : Z) (r : string * string * string)
  : string :=
  match r with
  | (name, digits, _) =>
      ">" ++ name ++ ";size=" ++ digits ++ sep
      ++ str_float (percentage_of (int_of_digits digits) total)
      ++ "%" ++ nl
  end.

(** The size the parser reads in a header line. *)
Definition read_size (header : string) : Z :=
  match search_size header with
  | Some (_, g) => int_of_digits g
  | None => 0
  end.

(** What is written for one numbered line, with [sep] between the line
    and the percentage. *)
Definition write_piece (sep : string) (fasta_in : list string) (number_reads : Z)
    (minimun_perc : Q) (item : nat * string) : result string :=
  let (number, line) := item in
  h <- first_is_gt line ;;
  if (h : bool) then
    n_search <- group_or_fail (search_size line) ;;
    let n := int_of_digits (snd n_search) in
    if Qle_bool (float_mul (inject_Z number_reads) minimun_perc) (inject_Z n) then
      p <- float_true_div n number_reads ;;
      sequence <- index_or_fail fasta_in (number + 1) ;;
      Ok ((rstrip line ++ sep ++ str_float (py_round (float_mul p 100) 2) ++ "%" ++ nl)
          ++ sequence)
    else Ok EmptyString
  else Ok EmptyString.

(** A record of a multi-line fasta file whose headers end with a
    semicolon: the header without [>] and [;], and the lines of the
    sequence. *)
Definition multiline_lines (records : list (string * list string)) : list string :=
  flat_map (fun r => (">" ++ fst r ++ ";" ++ nl) :: map (fun s => s ++ nl) (snd r)) records.

Definition singleline_text (records : list (string * list string)) : string :=
  String.concat EmptyString
    (map (fun r => ">" ++ fst r ++ nl ++ String.concat EmptyString (snd r) ++ nl) records).

Fixpoint no_space (s : string) : bool :=
  match s with
  | EmptyString => true
  | String c s' => negb (is_space c) && no_space s'
  end.

Definition sequence_text (s : string) : bool :=
  no_space s && negb (mentions "|" s) && negb (mentions ";" s) && negb (startswith ">" s).

Definition multiline_record (r : string * list string) : bool :=
  negb (mentions "|" (fst r))
  && match snd r with [] => false | _ => true end
  && forallb sequence_text (snd r).

(** A cluster whose name holds no percent sign either. *)
Definition percent_free_record (r : string * string * string) : bool :=
  plain_record r && negb (mentions "%" (fst (fst r))).

Definition normalize_piece (fasta_in : list string) (number_reads : Z)
    (item : nat * string) : result string :=
  let (number, line) := item in
  h <- first_is_gt line ;;
  if (h : bool) then
    n_search <- group_or_fail (search_size line) ;;
    let n := int_of_digits (snd n_search) in
    p <- float_true_div n number_reads ;;
    let new_n := py_round (float_mul 100 p) 2 in
    let new_line := sub_percent (str_float new_n) line in
    sequence <- index_or_fail fasta_in (number + 1) ;;
    Ok ((rstrip new_line ++ "%" ++ nl) ++ sequence)
  else Ok EmptyString.

(** [sum p * ln p] over the sizes, with [p = v / number_reads]. *)
Definition plogp_sum (number_reads : Z) (l : list Z) : R :=
  (fold_right
     (fun v a => IZR v / IZR number_reads * ln (IZR v / IZR number_reads) + a)
     0 l)%R.

(** The floats of the machine, to compare [binary64] with: the float
    of a positive integer, and the number a finite float stands for. *)
Definition machine_float (z : positive) : PrimFloat.float :=
  FloatOps.SF2Prim (SpecFloat.S754_finite false z 0).

Definition machine_value (f : PrimFloat.float) : option Q :=
  match FloatOps.Prim2SF f with
  | SpecFloat.S754_zero _ => Some 0%Q
  | SpecFloat.S754_finite s m e =>
      Some (Qred ((if s then -1 else 1) * inject_Z (Zpos m) * 2 ^ e))%Q
  | _ => None
  end.

(** ** Further inputs *)

(** One cluster annotated with size 0. *)
Definition zero_size : list string :=
  [ ">a;size=0_0.0%" ++ nl; "AAA" ++ nl ].

Definition zero_size_clusters : Clusters :=
  Eval vm_compute in loaded (Clusters_init zero_size).

Definition loaded_pileup (r : result Pileup) : Pileup :=
  match r with
  | Ok p => p
  | Err _ => empty_pileup []
  end.

(** Position 1 on two reference sequences. *)
Definition two_references : list string :=
  [ pileup_line "chr1" "1" "T" "8" "AAAA,,,," "IIIIIIII";
    pileup_line "chr2" "1" "A" "2" ".," "II" ].

Definition two_references_pileup : Pileup :=
  Eval vm_compute in loaded_pileup (Pileup_init two_references 0).

(** Four reads of one base at the only position. *)
Definition uniform_line : string := pileup_line "chr1" "1" "A" "4" "..,," "IIII".

Definition uniform_pileup : Pileup :=
  Eval vm_compute in loaded_pileup (Pileup_init [uniform_line] 0).

Definition sam_example : list string :=
  [ "@HD" ++ String tab "VN:1.6" ++ nl;
    "r1" ++ String tab "0" ++ String tab "chr1" ++ String tab "1" ++ String tab "60"
    ++ String tab "4M" ++ String tab "*" ++ String tab "0" ++ String tab "0"
    ++ String tab "ACGT" ++ String tab "IIII" ++ nl ].

Definition fastq_example : list (string * string * string * string) :=
  [ ("@r1" ++ nl, "ACGT" ++ nl, "+" ++ nl, "@III" ++ nl);
    ("@r2" ++ nl, "TTGA" ++ nl, "+" ++ nl, "IIII" ++ nl) ].

Definition vsearch_example : list (string * string * string) :=
  [ ("ReadA", "180", "AAATTTCCCGGG"); ("ReadB", "20", "TTTAAATTTGGG") ].

Definition multiline_example : list (string * list string) :=
  [ ("ReadA;size=180", ["AAATTT"; "CCCGGG"]); ("ReadB;size=20", ["TTTAAA"]) ].

(** * Proofs *)

(** ** Small facts about the result monad and the numbers *)

Lemma count_nonneg (c : ascii) (s : string) : 0 <= count c s.
Proof.
  induction s as [|d s IH]; simpl; [lia|].
  destruct (Ascii.eqb d c); lia.
Qed.

Lemma reads_counted_nonneg (pos : string) : 0 <= reads_counted pos.
Proof.
  unfold reads_counted, base_counts; simpl.
  pose proof (count_nonneg "A" (upper pos)). pose proof (count_nonneg "T" (upper pos)).
  pose proof (count_nonneg "C" (upper pos)). pose proof (count_nonneg "G" (upper pos)).
  lia.
Qed.

Lemma float_div_error (a b : Q) (e : exn) : float_div a b = Err e -> e = ZeroDivisionError.
Proof.
  unfold float_div. destruct (Qeq_bool b 0); congruence.
Qed.

Lemma float_div_ok (a b : Q) : ~ (b == 0)%Q -> float_div a b = Ok (a / b)%Q.
Proof.
  intros H. unfold float_div.
  destruct (Qeq_bool b 0) eqn:E; [|reflexivity].
  apply Qeq_bool_iff in E. contradiction.
Qed.

Lemma round_half_even_compat (x y : Q) : (x == y)%Q -> round_half_even x = round_half_even y.
Proof.
  intros H. unfold round_half_even.
  rewrite (Qfloor_comp _ _ H).
  assert (E : ((x - inject_Z (Qfloor y) ?= 1 # 2) = (y - inject_Z (Qfloor y) ?= 1 # 2))%Q).
  { apply Qcompare_comp; [rewrite H|]; reflexivity. }
  rewrite E. reflexivity.
Qed.

Lemma py_round_compat (x y : Q) (n : nat) : (x == y)%Q -> py_round x n = py_round y n.
Proof.
  intros H. unfold py_round.
  rewrite (round_half_even_compat (x * inject_Z (10 ^ Z.of_nat n))
                                  (y * inject_Z (10 ^ Z.of_nat n))); [reflexivity|].
  rewrite H. reflexivity.
Qed.

Lemma sum_floats_fold_right (l : list Q) (a : Q) :
  (fold_left Qplus l a == a + fold_right Qplus 0 l)%Q.
Proof.
  revert a. induction l as [|x l IH]; intros a; simpl; [ring|].
  rewrite IH. ring.
Qed.

Lemma round_half_even_near (x : Q) :
  (inject_Z (round_half_even x) - x <= 1 # 2 /\ x - inject_Z (round_half_even x) <= 1 # 2)%Q.
Proof.
  unfold round_half_even.
  pose proof (Qfloor_le x) as Hl. pose proof (Qlt_floor x) as Hu.
  rewrite inject_Z_plus in Hu. change (inject_Z 1) with 1%Q in Hu.
  destruct (Qcompare_spec (x - inject_Z (Qfloor x)) (1 # 2)) as [E|E|E].
  - destruct (Z.even (Qfloor x));
      [|rewrite inject_Z_plus; change (inject_Z 1) with 1%Q]; lra.
  - lra.
  - rewrite inject_Z_plus. change (inject_Z 1) with 1%Q. lra.
Qed.

Lemma round_half_even_floor (x : Q) : Qfloor x <= round_half_even x.
Proof.
  unfold round_half_even.
  destruct (x - inject_Z (Qfloor x) ?= 1 # 2)%Q; [destruct (Z.even (Qfloor x))| |]; lia.
Qed.

Lemma scale_positive (n : nat) : (0 < inject_Z (10 ^ Z.of_nat n))%Q.
Proof.
  assert (0 < 10 ^ Z.of_nat n) by (apply Z.pow_pos_nonneg; lia).
  unfold Qlt. simpl. lia.
Qed.

Lemma py_round_value (x : Q) (n : nat) :
  (py_round x n
   == inject_Z (round_half_even (x * inject_Z (10 ^ Z.of_nat n))) / inject_Z (10 ^ Z.of_nat n))%Q.
Proof. unfold py_round. apply Qred_correct. Qed.



(** ** Pileup: read-start markup *)

(** With the default [min_reads_per_position] no line is stripped of its
    read-start markup. *)
Lemma Pileup_init_line_default (self : Pileup) (n : nat) (line : string)
    (ref pos ref_base depth bases quals : string) (more : list string) :
  split_tab line = ref :: pos :: ref_base :: depth :: bases :: quals :: more ->
  Pileup_init_line 0 self (n, line)
  = Ok {| dict_pileup :=
            dict_set pos (upper (sub_match_symbols ref_base bases)) (dict_pileup self);
          polymorphic_sites_dict := polymorphic_sites_dict self;
          pileup_file := pileup_file self |}.
Proof.
  intros E. unfold Pileup_init_line. rewrite E. cbn [index_or_fail nth_error bind].
  destruct (Z.ltb_spec (Z.of_nat n) 0); [lia | reflexivity].
Qed.

(** C3, at a failing input.  With the default [min_reads_per_position]
    the read-start markup is kept: for the single read [^A.] on
    reference base [T] the stored column is [^AT], and the
    mapping-quality character is counted as a base [A].  With
    [min_reads_per_position = 1] the same column is stripped on the
    first line of the file and kept on the second. *)
Theorem read_start_markup_depends_on_line :
  (exists p, Pileup_init [read_start_line "7"] 0 = Ok p
             /\ dict_pileup p = [("7", "^AT")]
             /\ base_counts "^AT" = {| nA := 1; nT := 1; nC := 0; nG := 0 |})
  /\ read_bases "T" "^A." = "T"
  /\ base_counts (read_bases "T" "^A.") = {| nA := 0; nT := 1; nC := 0; nG := 0 |}
  /\ (exists p, Pileup_init [read_start_line "7"; read_start_line "8"] 1 = Ok p
              /\ dict_pileup p = [("7", "T"); ("8", "^AT")]).
Proof.
  split; [|split; [|split]].
  - eexists. split; [reflexivity|]. split; reflexivity.
  - reflexivity.
  - reflexivity.
  - eexists. split; reflexivity.
Qed.

(** ** Pileup: nucleotide diversity *)

Lemma position_Di_degenerate (pos : string) :
  reads_counted pos <= 1 -> position_Di pos = Err ZeroDivisionError.
Proof.
  intros H. pose proof (reads_counted_nonneg pos) as H0.
  unfold position_Di. unfold reads_counted in H, H0.
  set (n := nA (base_counts pos) + nC (base_counts pos)
            + nT (base_counts pos) + nG (base_counts pos)) in *.
  assert (E : n ^ 2 - n = 0) by nia.
  rewrite E. reflexivity.
Qed.

Lemma position_Di_defined (pos : string) :
  2 <= reads_counted pos ->
  exists d, position_Di pos = Ok d /\ (d == Di_spec (base_counts pos))%Q.
Proof.
  intros H. unfold position_Di, Di_spec. unfold reads_counted in H.
  set (n := nA (base_counts pos) + nC (base_counts pos)
            + nT (base_counts pos) + nG (base_counts pos)) in *.
  assert (E : n ^ 2 - n = n * (n - 1)) by ring.
  rewrite E. eexists. split; [|reflexivity].
  apply float_div_ok.
  assert (P : 0 < n * (n - 1)) by nia.
  intros Z0. unfold Qeq in Z0. simpl in Z0. lia.
Qed.

Lemma Di_loop_degenerate (l : list string) (acc : list Q) (pos : string) :
  In pos l -> reads_counted pos <= 1 ->
  for_each (fun acc pos => Di <- position_Di pos ;; Ok (acc ++ [Di])%list) l acc
  = Err ZeroDivisionError.
Proof.
  revert acc. induction l as [|x l IH]; intros acc HIn Hd; [destruct HIn|].
  simpl. destruct (position_Di x) as [d|e] eqn:E; simpl.
  - destruct HIn as [->|HIn].
    + rewrite (position_Di_degenerate _ Hd) in E. discriminate.
    + apply IH; assumption.
  - unfold position_Di in E. apply float_div_error in E. now subst.
Qed.

Lemma Di_loop_defined (l : list string) (acc : list Q) :
  (forall pos, In pos l -> 2 <= reads_counted pos) ->
  exists ds,
    for_each (fun acc pos => Di <- position_Di pos ;; Ok (acc ++ [Di])%list) l acc
    = Ok (acc ++ ds)%list
    /\ (fold_right Qplus 0 ds
        == fold_right Qplus 0 (map (fun pos => Di_spec (base_counts pos)) l))%Q.
Proof.
  revert acc. induction l as [|x l IH]; intros acc H.
  - exists []. simpl. rewrite app_nil_r. split; reflexivity.
  - destruct (position_Di_defined x) as [d [E Ed]]; [apply H; now left|].
    destruct (IH (acc ++ [d])%list) as [ds [Els Eds]]; [intros; apply H; now right|].
    exists (d :: ds). simpl. rewrite E. simpl. rewrite Els.
    rewrite <- app_assoc. split; [reflexivity|].
    rewrite Ed, Eds. reflexivity.
Qed.

Lemma eight_reads_pileup_loaded : Pileup_init [eight_reads_line] 0 = Ok eight_reads_pileup.
Proof. reflexivity. Qed.

Lemma single_read_pileup_loaded : Pileup_init [single_read_line] 0 = Ok single_read_pileup.
Proof. reflexivity. Qed.




(** C6, as the code has it.  A position with at most one counted read
    makes [nucleotide_diversity] fail with the division by zero of
    line 265: the exception is [ZeroDivisionError]. *)
Theorem nucleotide_diversity_degenerate (self : Pileup) (pos : string) :
  In pos (values (dict_pileup self)) ->
  reads_counted pos <= 1 ->
  nucleotide_diversity self = Err ZeroDivisionError.
Proof.
  intros HIn Hd. unfold nucleotide_diversity.
  rewrite (Di_loop_degenerate _ [] pos HIn Hd). reflexivity.
Qed.

Lemma nucleotide_diversity_degenerate_witness :
  In "T" (values (dict_pileup single_read_pileup))
  /\ reads_counted "T" <= 1
  /\ nucleotide_diversity single_read_pileup = Err ZeroDivisionError.
Proof.
  assert (H1 : In "T" (values (dict_pileup single_read_pileup))) by (simpl; left; reflexivity).
  assert (H2 : reads_counted "T" <= 1) by (vm_compute; discriminate).
  split; [exact H1|]. split; [exact H2|].
  exact (nucleotide_diversity_degenerate single_read_pileup "T" H1 H2).
Defined.

(** C6 as stated fails: on the pileup of one position with a single
    read the call ends in [ZeroDivisionError], not in an error named
    [DegeneratePosition]. *)
Lemma nucleotide_diversity_no_DegeneratePosition :
  Pileup_init [single_read_line] 0 = Ok single_read_pileup
  /\ (exists pos, In pos (values (dict_pileup single_read_pileup))
                  /\ reads_counted pos <= 1)
  /\ nucleotide_diversity single_read_pileup = Err ZeroDivisionError
  /\ nucleotide_diversity single_read_pileup <> Err (Raised "DegeneratePosition").
Proof.
  split; [reflexivity|]. split.
  - exists "T". split; [simpl; now left | vm_compute; discriminate].
  - split; [reflexivity | discriminate].
Qed.

(** ** Pileup: polymorphic sites *)

Lemma Qlt_bool_negb_le (x y : Q) : Qlt_bool x y = negb (Qle_bool y x).
Proof.
  unfold Qlt_bool. destruct (Qlt_le_dec x y) as [H|H].
  - destruct (Qle_bool y x) eqn:E; [|reflexivity].
    apply Qle_bool_iff in E. exfalso. exact (Qlt_not_le _ _ H E).
  - apply Qle_bool_iff in H. rewrite H. reflexivity.
Qed.

Lemma sorted_third_is_second_highest (value : string) :
  nth 2 (list_n_bases value) 0 = second_highest (base_counts value).
Proof.
  unfold list_n_bases, second_highest, sort.
  generalize (nA (base_counts value)) (nT (base_counts value))
             (nC (base_counts value)) (nG (base_counts value)).
  intros a t c g. simpl.
  repeat match goal with
         | |- context [?x <=? ?y] => destruct (Z.leb_spec x y); simpl
         end; lia.
Qed.

Lemma sorted_sum_is_total (value : string) :
  sum (list_n_bases value) = total_count (base_counts value).
Proof.
  unfold list_n_bases, total_count, sort, sum.
  generalize (nA (base_counts value)) (nT (base_counts value))
             (nC (base_counts value)) (nG (base_counts value)).
  intros a t c g. simpl.
  repeat match goal with
         | |- context [?x <=? ?y] => destruct (Z.leb_spec x y); simpl
         end; lia.
Qed.

Lemma upper_char_A (d : ascii) :
  Ascii.eqb (upper_char d) "A" = Ascii.eqb d "A" || Ascii.eqb d "a".
Proof. destruct d as [[] [] [] [] [] [] [] []]; reflexivity. Qed.

Lemma upper_char_T (d : ascii) :
  Ascii.eqb (upper_char d) "T" = Ascii.eqb d "T" || Ascii.eqb d "t".
Proof. destruct d as [[] [] [] [] [] [] [] []]; reflexivity. Qed.

Lemma upper_char_C (d : ascii) :
  Ascii.eqb (upper_char d) "C" = Ascii.eqb d "C" || Ascii.eqb d "c".
Proof. destruct d as [[] [] [] [] [] [] [] []]; reflexivity. Qed.

Lemma upper_char_G (d : ascii) :
  Ascii.eqb (upper_char d) "G" = Ascii.eqb d "G" || Ascii.eqb d "g".
Proof. destruct d as [[] [] [] [] [] [] [] []]; reflexivity. Qed.

Lemma count_upper_letter (U L : ascii) (s : string) :
  (forall d, Ascii.eqb (upper_char d) U = Ascii.eqb d U || Ascii.eqb d L) ->
  count U (upper s) = letter_count U L s.
Proof.
  intros H. unfold letter_count. induction s as [|d s IH]; [reflexivity|].
  cbn [upper count list_ascii_of_string filter]. rewrite IH, H.
  destruct (Ascii.eqb d U || Ascii.eqb d L); cbn [List.length]; lia.
Qed.

(** The counts both methods take are the numbers of letters of the
    column, in either case. *)
Lemma base_counts_observed (value : string) : base_counts value = observed value.
Proof.
  unfold base_counts, observed.
  rewrite (count_upper_letter "A" "a" value upper_char_A),
          (count_upper_letter "T" "t" value upper_char_T),
          (count_upper_letter "C" "c" value upper_char_C),
          (count_upper_letter "G" "g" value upper_char_G).
  reflexivity.
Qed.

Lemma site_test_percentage (cutoff : Q) (value : string) :
  site_test "percentage" cutoff value = Some (above_float_product cutoff value).
Proof.
  unfold site_test, above_float_product. simpl.
  rewrite sorted_third_is_second_highest, sorted_sum_is_total, Qlt_bool_negb_le,
          base_counts_observed.
  reflexivity.
Qed.

Lemma site_test_number_reads (cutoff : Q) (value : string) :
  site_test "number_reads" cutoff value = Some (above_number_reads cutoff value).
Proof.
  unfold site_test, above_number_reads. simpl.
  rewrite sorted_third_is_second_highest, Qlt_bool_negb_le, base_counts_observed.
  reflexivity.
Qed.

Lemma second_highest_positive (t : tally) :
  0 <= nA t -> 0 <= nT t -> 0 <= nC t -> 0 <= nG t ->
  (0 < second_highest t <-> (2 <= distinct_bases t)%nat).
Proof.
  unfold second_highest, distinct_bases.
  generalize (nA t) (nT t) (nC t) (nG t). intros a b c d Ha Hb Hc Hd. simpl.
  destruct (Z.ltb_spec 0 a); destruct (Z.ltb_spec 0 b);
    destruct (Z.ltb_spec 0 c); destruct (Z.ltb_spec 0 d); simpl; lia.
Qed.

Lemma above_zero_reads_iff (value : string) :
  above_number_reads 0 value = (2 <=? distinct_bases (observed value))%nat.
Proof.
  unfold above_number_reads, Qlt_bool. rewrite <- base_counts_observed.
  pose proof (second_highest_positive (base_counts value)
                (count_nonneg _ _) (count_nonneg _ _) (count_nonneg _ _) (count_nonneg _ _)) as H.
  destruct (Qlt_le_dec 0 (inject_Z (second_highest (base_counts value)))) as [L|L];
    unfold Qlt, Qle in L; simpl in L; rewrite Z.mul_1_r in L;
    destruct (Nat.leb_spec 2 (distinct_bases (base_counts value))); try reflexivity; lia.
Qed.

Lemma polymorphic_sites_fold (value_type : string) (cutoff : Q) (self : Pileup) :
  polymorphic_sites value_type cutoff self
  = fold_left (site_step value_type cutoff) (items (dict_pileup self)) (0, self).
Proof.
  unfold polymorphic_sites.
  generalize (0, self). induction (items (dict_pileup self)) as [|[k v] l IH]; intros st.
  - reflexivity.
  - simpl. rewrite <- IH. f_equal. unfold site_step. destruct st. simpl.
    destruct (site_test value_type cutoff v) as [[|]|]; reflexivity.
Qed.

Lemma site_fold_count (value_type : string) (cutoff : Q) (P : string -> bool)
    (l : list (string * string)) (st : Z * Pileup) :
  (forall v, site_test value_type cutoff v = Some (P v)) ->
  fst (fold_left (site_step value_type cutoff) l st)
  = fst st + Z.of_nat (List.length (filter (fun kv => P (snd kv)) l)).
Proof.
  intros HP. revert st. induction l as [|[k v] l IH]; intros st; simpl.
  - lia.
  - rewrite IH. unfold site_step. simpl. rewrite HP.
    destruct (P v); simpl; lia.
Qed.

(** C5, as the code has it.  The counts being the numbers of the
    letters A, T, C, G of the stored column in either case,
    [polymorphic_sites] counts the positions whose second-highest count
    is above the product of floats [total_count * cutoff] (percentage)
    or above [cutoff] (number_reads); with number_reads and cutoff 0
    these are the positions where at least two distinct bases were
    observed. *)
Theorem polymorphic_sites_counts (self : Pileup) (cutoff : Q) :
  fst (polymorphic_sites "percentage" cutoff self)
  = count_positions (above_float_product cutoff) self
  /\ fst (polymorphic_sites "number_reads" cutoff self)
     = count_positions (above_number_reads cutoff) self
  /\ fst (polymorphic_sites "number_reads" 0 self)
     = count_positions (fun value => (2 <=? distinct_bases (observed value))%nat) self.
Proof.
  rewrite !polymorphic_sites_fold. unfold count_positions. repeat split.
  - rewrite (site_fold_count _ _ (above_float_product cutoff)); [reflexivity|].
    apply site_test_percentage.
  - rewrite (site_fold_count _ _ (above_number_reads cutoff)); [reflexivity|].
    apply site_test_number_reads.
  - rewrite (site_fold_count _ _ (fun value => (2 <=? distinct_bases (observed value))%nat));
      [reflexivity|].
    intros v. rewrite site_test_number_reads, above_zero_reads_iff. reflexivity.
Qed.

Lemma boundary_pileup_loaded : Pileup_init [boundary_line] 0 = Ok boundary_pileup.
Proof. reflexivity. Qed.

Lemma ten_reads_pileup_loaded : Pileup_init [ten_reads_line] 0 = Ok ten_reads_pileup.
Proof. reflexivity. Qed.

(** C5 as stated fails: the product is not the exact one.  At a
    position with 71 A and 29 T and the cutoff 0.29 the second-highest
    count, 29, does not exceed [100 * 0.29 = 29], and the position is
    counted: the product of floats is 28.999999999999996.  The other way
    round, at a position with 7 A and 3 T and the float nearest to 0.3
    as cutoff, which is below 3/10, the count 3 exceeds the exact
    product and the position is not counted: the product of floats
    is 3. *)
Lemma polymorphic_sites_not_exact_product :
  (Pileup_init [boundary_line] 0 = Ok boundary_pileup
   /\ observed boundary_column = {| nA := 71; nT := 29; nC := 0; nG := 0 |}
   /\ second_highest (observed boundary_column) = 29
   /\ (inject_Z (total_count (observed boundary_column)) * (29 # 100) == 29)%Q
   /\ count_positions (above_percentage (29 # 100)) boundary_pileup = 0
   /\ fst (polymorphic_sites "percentage" (29 # 100) boundary_pileup) = 1)
  /\ (Pileup_init [ten_reads_line] 0 = Ok ten_reads_pileup
      /\ observed "AAAAAAATTT" = {| nA := 7; nT := 3; nC := 0; nG := 0 |}
      /\ (binary64 (3 # 10) < 3 # 10)%Q
      /\ count_positions (above_percentage (binary64 (3 # 10))) ten_reads_pileup = 1
      /\ fst (polymorphic_sites "percentage" (binary64 (3 # 10)) ten_reads_pileup) = 0).
Proof.
  split.
  - split; [reflexivity|]. split; [reflexivity|]. split; [reflexivity|].
    split; [reflexivity|]. split; vm_compute; reflexivity.
  - split; [reflexivity|]. split; [reflexivity|]. split; [vm_compute; reflexivity|].
    split; vm_compute; reflexivity.
Qed.

(** ** Pileup: the stored polymorphic positions *)

Lemma dict_get_set_same {V : Type} (k : string) (v : V) (d : dict V) :
  dict_get k (dict_set k v d) = Some v.
Proof.
  induction d as [|[k' v'] d IH]; simpl.
  - now rewrite String.eqb_refl.
  - destruct (String.eqb k' k) eqn:E; simpl.
    + now rewrite String.eqb_refl.
    + now rewrite E.
Qed.

Lemma dict_get_set_other {V : Type} (k k0 : string) (v : V) (d : dict V) :
  k0 <> k -> dict_get k (dict_set k0 v d) = dict_get k d.
Proof.
  intros N. induction d as [|[k' v'] d IH]; simpl.
  - destruct (String.eqb k0 k) eqn:E; [apply String.eqb_eq in E; contradiction | reflexivity].
  - destruct (String.eqb k' k0) eqn:E; simpl.
    + apply String.eqb_eq in E. subst k'.
      destruct (String.eqb k0 k) eqn:E'; [apply String.eqb_eq in E'; contradiction | reflexivity].
    + destruct (String.eqb k' k); [reflexivity | exact IH].
Qed.

Lemma keys_dict_set {V : Type} (k : string) (v : V) (d : dict V) :
  In k (keys d) -> keys (dict_set k v d) = keys d.
Proof.
  induction d as [|[k' v'] d IH]; simpl; [tauto|].
  intros H. destruct (String.eqb k' k) eqn:E; simpl.
  - apply String.eqb_eq in E. now subst.
  - f_equal. apply IH. destruct H as [H|H]; [|exact H].
    subst. rewrite String.eqb_refl in E. discriminate.
Qed.

Lemma keys_dict_set_new {V : Type} (k : string) (v : V) (d : dict V) :
  ~ In k (keys d) -> keys (dict_set k v d) = (keys d ++ [k])%list.
Proof.
  induction d as [|[k' v'] d IH]; simpl; [reflexivity|].
  intros H. destruct (String.eqb k' k) eqn:E; simpl.
  - apply String.eqb_eq in E. subst. tauto.
  - f_equal. apply IH. tauto.
Qed.

Lemma NoDup_keys_dict_set {V : Type} (k : string) (v : V) (d : dict V) :
  NoDup (keys d) -> NoDup (keys (dict_set k v d)).
Proof.
  intros H. destruct (in_dec string_dec k (keys d)) as [I|I].
  - now rewrite keys_dict_set.
  - rewrite keys_dict_set_new by exact I.
    apply NoDup_app; [exact H | repeat constructor; simpl; tauto |].
    intros x Hx [<-|[]]. exact (I Hx).
Qed.

Lemma dict_get_not_in {V : Type} (k : string) (d : dict V) :
  ~ In k (keys d) -> dict_get k d = None.
Proof.
  induction d as [|[k' v'] d IH]; simpl; [reflexivity|].
  intros H. destruct (String.eqb k' k) eqn:E.
  - apply String.eqb_eq in E. tauto.
  - apply IH. tauto.
Qed.

Lemma Pileup_init_line_keeps (m : Z) (self self' : Pileup) (x : nat * string) :
  Pileup_init_line m self x = Ok self' ->
  polymorphic_sites_dict self' = polymorphic_sites_dict self
  /\ (NoDup (keys (dict_pileup self)) -> NoDup (keys (dict_pileup self'))).
Proof.
  unfold Pileup_init_line. destruct x as [n line].
  repeat match goal with
         | |- context [index_or_fail ?l ?i] => destruct (index_or_fail l i); simpl; try discriminate
         end.
  destruct (Z.of_nat n <? m); intros E; inversion E; subst; simpl;
    (split; [reflexivity | apply NoDup_keys_dict_set]).
Qed.

Lemma Pileup_init_fresh (lines : list string) (m : Z) (self : Pileup) :
  Pileup_init lines m = Ok self ->
  polymorphic_sites_dict self = [] /\ NoDup (keys (dict_pileup self)).
Proof.
  unfold Pileup_init.
  set (s0 := {| dict_pileup := []; polymorphic_sites_dict := []; pileup_file := lines |}).
  assert (H0 : polymorphic_sites_dict s0 = [] /\ NoDup (keys (dict_pileup s0)))
    by (split; [reflexivity | constructor]).
  revert H0. generalize s0. generalize (enumerate lines).
  induction l as [|x l IH]; intros s [H1 H2]; simpl.
  - intros E. inversion E. subst. now split.
  - destruct (Pileup_init_line m s x) as [s'|e] eqn:E; simpl; [|discriminate].
    apply Pileup_init_line_keeps in E. destruct E as [E1 E2].
    apply IH. split; [congruence | auto].
Qed.

(** What one call leaves in the object, position by position. *)
Lemma site_fold_dicts (value_type : string) (cutoff : Q)
    (l : list (string * string)) (st : Z * Pileup) :
  NoDup (keys l) ->
  let st' := fold_left (site_step value_type cutoff) l st in
  dict_pileup (snd st') = dict_pileup (snd st)
  /\ forall k,
      dict_get k (polymorphic_sites_dict (snd st'))
      = match dict_get k l with
        | Some v =>
            match site_test value_type cutoff v with
            | Some true => Some v
            | _ => dict_get k (polymorphic_sites_dict (snd st))
            end
        | None => dict_get k (polymorphic_sites_dict (snd st))
        end.
Proof.
  revert st. induction l as [|[k0 v0] l IH]; intros st ND; simpl.
  - split; reflexivity.
  - inversion ND as [|? ? Hnin ND']; subst.
    destruct (IH (site_step value_type cutoff st (k0, v0)) ND') as [E1 E2].
    split.
    + rewrite E1. unfold site_step. simpl.
      destruct (site_test value_type cutoff v0) as [[|]|]; reflexivity.
    + intros k. rewrite E2.
      destruct (String.eqb k0 k) eqn:E.
      * apply String.eqb_eq in E. subst k0.
        rewrite (dict_get_not_in k l Hnin).
        unfold site_step. simpl.
        destruct (site_test value_type cutoff v0) as [[|]|]; simpl;
          [apply dict_get_set_same | reflexivity | reflexivity].
      * assert (N : k0 <> k) by (intros ->; rewrite String.eqb_refl in E; discriminate).
        assert (G : dict_get k (polymorphic_sites_dict
                                  (snd (site_step value_type cutoff st (k0, v0))))
                    = dict_get k (polymorphic_sites_dict (snd st))).
        { unfold site_step. simpl.
          destruct (site_test value_type cutoff v0) as [[|]|]; simpl;
            [apply dict_get_set_other; exact N | reflexivity | reflexivity]. }
        rewrite G. reflexivity.
Qed.

Lemma polymorphic_sites_dicts (value_type : string) (cutoff : Q) (self : Pileup) :
  NoDup (keys (dict_pileup self)) ->
  let self' := snd (polymorphic_sites value_type cutoff self) in
  dict_pileup self' = dict_pileup self
  /\ forall k,
      dict_get k (polymorphic_sites_dict self')
      = match dict_get k (dict_pileup self) with
        | Some v =>
            match site_test value_type cutoff v with
            | Some true => Some v
            | _ => dict_get k (polymorphic_sites_dict self)
            end
        | None => dict_get k (polymorphic_sites_dict self)
        end.
Proof.
  intros ND. rewrite polymorphic_sites_fold.
  exact (site_fold_dicts value_type cutoff (items (dict_pileup self)) (0, self) ND).
Qed.

Lemma run_calls_snoc (calls : list (string * Q)) (call : string * Q) (self : Pileup) :
  run_calls (calls ++ [call]) self
  = snd (polymorphic_sites (fst call) (snd call) (run_calls calls self)).
Proof.
  unfold run_calls. rewrite fold_left_app. reflexivity.
Qed.

Lemma run_calls_stored (calls : list (string * Q)) (self : Pileup) :
  NoDup (keys (dict_pileup self)) ->
  polymorphic_sites_dict self = [] ->
  dict_pileup (run_calls calls self) = dict_pileup self
  /\ forall k v,
      dict_get k (polymorphic_sites_dict (run_calls calls self)) = Some v
      <-> dict_get k (dict_pileup self) = Some v /\ qualifies_in calls v.
Proof.
  intros ND E0. induction calls as [|call calls IH] using rev_ind.
  - simpl. split; [reflexivity|]. intros k v. rewrite E0. simpl. split.
    + discriminate.
    + intros [_ [c [[] _]]].
  - destruct IH as [IH1 IH2]. rewrite run_calls_snoc.
    destruct (polymorphic_sites_dicts (fst call) (snd call) (run_calls calls self))
      as [P1 P2]; [rewrite IH1; exact ND|].
    split; [congruence|].
    intros k v. rewrite P2, IH1.
    destruct (dict_get k (dict_pileup self)) as [v0|] eqn:G.
    + destruct (site_test (fst call) (snd call) v0) as [[|]|] eqn:T.
      * split.
        -- intros E. inversion E. subst v0. split; [reflexivity|].
           exists call. split; [apply in_or_app; right; now left | exact T].
        -- intros [E _]. exact E.
      * rewrite IH2, G. split.
        -- intros [E [c [Hc Tc]]]. split; [exact E|].
           exists c. split; [apply in_or_app; now left | exact Tc].
        -- intros [E [c [Hc Tc]]]. split; [exact E|].
           apply in_app_or in Hc. destruct Hc as [Hc|[<-|[]]].
           ++ exists c. now split.
           ++ inversion E. subst v0. congruence.
      * rewrite IH2, G. split.
        -- intros [E [c [Hc Tc]]]. split; [exact E|].
           exists c. split; [apply in_or_app; now left | exact Tc].
        -- intros [E [c [Hc Tc]]]. split; [exact E|].
           apply in_app_or in Hc. destruct Hc as [Hc|[<-|[]]].
           ++ exists c. now split.
           ++ inversion E. subst v0. congruence.
    + rewrite IH2, G. split; intros [E _]; discriminate.
Qed.

(** C10.  On a loaded pileup, after any sequence of calls of
    [polymorphic_sites] the stored dictionary holds exactly the
    positions that passed the test of at least one of the calls, each
    with its column; a further call removes nothing. *)
Theorem polymorphic_sites_dict_accumulates
    (lines : list string) (m : Z) (self : Pileup) (calls : list (string * Q)) :
  Pileup_init lines m = Ok self ->
  (forall k v,
      dict_get k (polymorphic_sites_dict (run_calls calls self)) = Some v
      <-> dict_get k (dict_pileup self) = Some v /\ qualifies_in calls v)
  /\ (forall call k v,
         dict_get k (polymorphic_sites_dict (run_calls calls self)) = Some v ->
         dict_get k (polymorphic_sites_dict (run_calls (calls ++ [call]) self)) = Some v).
Proof.
  intros L. destruct (Pileup_init_fresh lines m self L) as [E0 ND].
  split.
  - apply run_calls_stored; assumption.
  - intros call k v H.
    apply (proj2 (run_calls_stored (calls ++ [call]) self ND E0)).
    apply (proj2 (run_calls_stored calls self ND E0)) in H.
    destruct H as [E [c [Hc Tc]]]. split; [exact E|].
    exists c. split; [apply in_or_app; now left | exact Tc].
Qed.

Lemma polymorphic_sites_dict_accumulates_witness :
  Pileup_init [eight_reads_line] 0 = Ok eight_reads_pileup
  /\ ((forall k v,
         dict_get k (polymorphic_sites_dict (run_calls accumulate_calls eight_reads_pileup)) = Some v
         <-> dict_get k (dict_pileup eight_reads_pileup) = Some v
             /\ qualifies_in accumulate_calls v)
      /\ (forall call k v,
             dict_get k (polymorphic_sites_dict (run_calls accumulate_calls eight_reads_pileup))
             = Some v ->
             dict_get k (polymorphic_sites_dict
                           (run_calls (accumulate_calls ++ [call]) eight_reads_pileup))
             = Some v)).
Proof.
  split; [reflexivity|].
  exact (polymorphic_sites_dict_accumulates [eight_reads_line] 0 eight_reads_pileup
           accumulate_calls eq_refl).
Defined.

(** The position of [eight_reads_pileup] passes with cutoff 0, fails
    with cutoff 5, and is still stored after both calls. *)
Example stored_position_outlives_cutoff :
  fst (polymorphic_sites "number_reads" 0 eight_reads_pileup) = 1
  /\ fst (polymorphic_sites "number_reads" 5
            (snd (polymorphic_sites "number_reads" 0 eight_reads_pileup))) = 0
  /\ polymorphic_sites_dict (run_calls accumulate_calls eight_reads_pileup)
     = [("1", "AAAATTTT")].
Proof. repeat split; reflexivity. Qed.

(** ** Clusters: the Simpson indices *)


Lemma for_each_invariant {A S : Type} (P : S -> Prop) (body : S -> A -> result S)
    (l : list A) (s s' : S) :
  (forall s a s', P s -> body s a = Ok s' -> P s') ->
  P s -> for_each body l s = Ok s' -> P s'.
Proof.
  intros Hb. revert s. induction l as [|a l IH]; intros s Hs; simpl.
  - intros E. inversion E. now subst.
  - destruct (body s a) as [s1|e] eqn:E; simpl; [|discriminate].
    apply IH. exact (Hb s a s1 Hs E).
Qed.

Lemma span_digits_only (s : string) : only_digits (fst (span_digits s)) = true.
Proof.
  induction s as [|c s IH]; simpl; [reflexivity|].
  destruct (is_digit c) eqn:E; [|reflexivity].
  destruct (span_digits s) as [d r]. simpl in *. now rewrite E.
Qed.

Lemma search_size_cons (c : ascii) (s : string) :
  search_size (String c s)
  = if startswith ";size=" (String c s)
    then match span_digits (drop 6 (String c s)) with
         | (String d ds, _) => Some (O, String d ds)
         | (EmptyString, _) =>
             match search_size s with
             | Some (i, g) => Some (S i, g)
             | None => None
             end
         end
    else match search_size s with
         | Some (i, g) => Some (S i, g)
         | None => None
         end.
Proof. reflexivity. Qed.

Lemma search_size_only_digits (s : string) (i : nat) (g : string) :
  search_size s = Some (i, g) -> only_digits g = true.
Proof.
  revert i. induction s as [|c s IH]; intros i; [discriminate|].
  rewrite search_size_cons.
  assert (R : match search_size s with
              | Some (i, g) => Some (S i, g)
              | None => None
              end = Some (i, g) -> only_digits g = true).
  { destruct (search_size s) as [[j h]|]; [|discriminate].
    intros E. inversion E. subst. exact (IH j eq_refl). }
  destruct (startswith ";size=" (String c s)); [|exact R].
  pose proof (span_digits_only (drop 6 (String c s))) as D.
  destruct (span_digits (drop 6 (String c s))) as [[|d ds] r]; [exact R|].
  intros E. inversion E. subst. exact D.
Qed.

Lemma int_of_digits_from_nonneg (s : string) (acc : Z) :
  only_digits s = true -> 0 <= acc -> 0 <= int_of_digits_from acc s.
Proof.
  revert acc. induction s as [|c s IH]; intros acc;
    cbn [int_of_digits_from only_digits]; [auto|].
  intros H Ha. apply andb_prop in H. destruct H as [Hc Hs].
  apply IH; [exact Hs|].
  unfold is_digit in Hc. apply andb_prop in Hc. destruct Hc as [Hc _].
  apply Nat.leb_le in Hc. unfold digit_value. lia.
Qed.

Lemma Clusters_init_counts_nonneg (lines : list string) (self : Clusters) :
  Clusters_init lines = Ok self -> Forall (fun n => 0 <= n) (number_reads self).
Proof.
  unfold Clusters_init.
  apply (for_each_invariant (fun c => Forall (fun n => 0 <= n) (number_reads c))).
  - intros c [number line] c' Hc. unfold Clusters_init_line.
    destruct (startswith ">" line); [|intros E; inversion E; now subst].
    destruct (search_size line) as [[i g]|] eqn:G; simpl; [|discriminate].
    destruct (search_percent line) as [t|]; simpl; [|discriminate].
    destruct (float_of_text t); simpl; [|discriminate].
    destruct (index_or_fail (fasta_file c) (number + 1)); simpl; [|discriminate].
    intros E. inversion E. subst. simpl.
    apply Forall_app. split; [exact Hc|].
    constructor; [|constructor].
    apply int_of_digits_from_nonneg; [|lia].
    exact (search_size_only_digits _ _ _ G).
  - constructor.
Qed.

Lemma sum_from (l : list Z) (a : Z) : fold_left Z.add l a = a + fold_right Z.add 0 l.
Proof.
  revert a. induction l as [|x l IH]; intros a; simpl; [lia|].
  rewrite IH. lia.
Qed.

Lemma sum_squares_bounds (l : list Z) :
  Forall (fun n => 0 <= n) l ->
  0 <= fold_right Z.add 0 l
  /\ fold_right Z.add 0 l <= sum_squares l
  /\ sum_squares l <= fold_right Z.add 0 l * fold_right Z.add 0 l.
Proof.
  induction 1 as [|x l Hx Hl IH]; simpl; [lia|].
  destruct IH as [I0 [I1 I2]]. repeat split; nia.
Qed.






Lemma doc_clusters_loaded : Clusters_init doc_example = Ok doc_clusters.
Proof. reflexivity. Qed.

Lemma three_singletons_loaded : Clusters_init three_singletons = Ok three_singletons_clusters.
Proof. reflexivity. Qed.



(** ** Clusters: the export and the filters *)

Lemma dict_set_values_nonneg (k : string) (v : fasta_value) (d : dict fasta_value) :
  (0 <= value_2 v)%Z ->
  Forall (fun kv => (0 <= value_2 (snd kv))%Z) d ->
  Forall (fun kv => (0 <= value_2 (snd kv))%Z) (dict_set k v d).
Proof.
  intros Hv. induction 1 as [|[k' v'] d Hk Hd IH]; simpl.
  - constructor; [exact Hv | constructor].
  - destruct (String.eqb k' k); constructor; auto.
Qed.

Lemma Clusters_init_values_nonneg (lines : list string) (self : Clusters) :
  Clusters_init lines = Ok self ->
  Forall (fun kv => (0 <= value_2 (snd kv))%Z) (dict_fasta self).
Proof.
  unfold Clusters_init.
  apply (for_each_invariant
           (fun c => Forall (fun kv => (0 <= value_2 (snd kv))%Z) (dict_fasta c))).
  - intros c [number line] c' Hc. unfold Clusters_init_line.
    destruct (startswith ">" line); [|intros E; inversion E; now subst].
    destruct (search_size line) as [[i g]|] eqn:G; simpl; [|discriminate].
    destruct (search_percent line) as [t|]; simpl; [|discriminate].
    destruct (float_of_text t); simpl; [|discriminate].
    destruct (index_or_fail (fasta_file c) (number + 1)); simpl; [|discriminate].
    intros E. inversion E. subst. simpl.
    apply dict_set_values_nonneg; [|exact Hc]. simpl.
    apply int_of_digits_from_nonneg; [|lia].
    exact (search_size_only_digits _ _ _ G).
  - constructor.
Qed.

Lemma span_digits_head (s : string) :
  match span_digits s with
  | (String _ _, _) => match s with String d _ => is_digit d | EmptyString => false end = true
  | (EmptyString, _) => match s with String d _ => is_digit d | EmptyString => false end = false
  end.
Proof.
  destruct s as [|c s]; simpl; [reflexivity|].
  destruct (is_digit c); [|reflexivity].
  destruct (span_digits s). reflexivity.
Qed.

Lemma search_size_step (c : ascii) (s : string) :
  search_size (String c s)
  = if size_tag_here (String c s)
    then Some (O, fst (span_digits (drop 6 (String c s))))
    else match search_size s with
         | Some (i, g) => Some (S i, g)
         | None => None
         end.
Proof.
  rewrite search_size_cons. unfold size_tag_here.
  destruct (startswith ";size=" (String c s)); [|reflexivity].
  rewrite andb_true_l.
  pose proof (span_digits_head (drop 6 (String c s))) as H.
  destruct (span_digits (drop 6 (String c s))) as [[|d ds] r]; rewrite H; reflexivity.
Qed.

Lemma search_size_none (s : string) : search_size s = None <-> tag_free s = true.
Proof.
  induction s as [|c s IH]; [simpl; tauto|].
  rewrite search_size_step. cbn [tag_free].
  destruct (size_tag_here (String c s)); simpl.
  - split; discriminate.
  - destruct (search_size s) as [[i g]|].
    + split; [discriminate|]. intros H. apply IH in H. discriminate.
    + split; [intros _; now apply IH | reflexivity].
Qed.

Lemma size_tag_here_app (a t : string) :
  size_tag_here a = true -> size_tag_here (a ++ t) = true.
Proof.
  destruct a as [|c1 [|c2 [|c3 [|c4 [|c5 [|c6 [|c7 r]]]]]]]; unfold size_tag_here; simpl;
    rewrite ?andb_false_r; try discriminate; auto.
Qed.

Lemma size_tag_here_before_underscore (a t : string) (c : ascii) :
  size_tag_here (String c a ++ String "_" t) = true -> size_tag_here (String c a) = true.
Proof.
  destruct a as [|c2 [|c3 [|c4 [|c5 [|c6 [|c7 r]]]]]]; unfold size_tag_here; simpl;
    rewrite ?andb_false_r; try discriminate; auto.
Qed.

Lemma tag_free_prefix (a t : string) : tag_free (a ++ t) = true -> tag_free a = true.
Proof.
  induction a as [|c a IH]; [reflexivity|].
  change (String c a ++ t) with (String c (a ++ t)). cbn [tag_free].
  intros H. apply andb_prop in H. destruct H as [H1 H2].
  rewrite (IH H2), andb_true_r.
  destruct (size_tag_here (String c a)) eqn:E; [|reflexivity].
  apply (size_tag_here_app _ t) in E.
  change (String c a ++ t) with (String c (a ++ t)) in E. rewrite E in H1. discriminate.
Qed.

Lemma tag_free_tail (c : ascii) (s : string) : tag_free (String c s) = true -> tag_free s = true.
Proof. cbn [tag_free]. intros H. apply andb_prop in H. tauto. Qed.

Lemma tag_free_drop (n : nat) (s : string) : tag_free s = true -> tag_free (drop n s) = true.
Proof.
  revert s. induction n as [|n IH]; intros s H; [destruct s; exact H|].
  destruct s as [|c s]; [reflexivity|]. simpl. apply IH. exact (tag_free_tail _ _ H).
Qed.

Lemma tag_free_underscore (a t : string) :
  tag_free a = true -> tag_free (String "_" t) = true -> tag_free (a ++ String "_" t) = true.
Proof.
  intros Ha Ht. induction a as [|c a IH]; [exact Ht|].
  change (String c a ++ String "_" t) with (String c (a ++ String "_" t)).
  cbn [tag_free] in *. apply andb_prop in Ha. destruct Ha as [H1 H2].
  rewrite (IH H2), andb_true_r.
  destruct (size_tag_here (String c (a ++ String "_" t))) eqn:E; [|reflexivity].
  change (String c (a ++ String "_" t)) with (String c a ++ String "_" t) in E.
  apply size_tag_here_before_underscore in E. rewrite E in H1. discriminate.
Qed.

Lemma tag_free_without_semicolon (s : string) : mentions ";" s = false -> tag_free s = true.
Proof.
  induction s as [|c s IH]; [reflexivity|].
  cbn [mentions tag_free]. intros H. apply orb_false_elim in H. destruct H as [H1 H2].
  rewrite (IH H2), andb_true_r.
  unfold size_tag_here. cbn [startswith]. rewrite Ascii.eqb_sym, H1. reflexivity.
Qed.

Lemma take_drop (n : nat) (s : string) : take n s ++ drop n s = s.
Proof.
  revert s. induction n as [|n IH]; intros s; [reflexivity|].
  destruct s as [|c s]; [reflexivity|]. simpl. now rewrite IH.
Qed.

(** The match [re.search] returns is the leftmost one. *)
Lemma search_size_leftmost (s : string) (i : nat) (g : string) :
  search_size s = Some (i, g) -> tag_free (take i s) = true.
Proof.
  revert i. induction s as [|c s IH]; intros i; [discriminate|].
  rewrite search_size_step.
  destruct (size_tag_here (String c s)) eqn:E.
  - intros H. inversion H. reflexivity.
  - destruct (search_size s) as [[j h]|]; [|discriminate].
    intros H. inversion H. subst. cbn [take tag_free].
    rewrite (IH j eq_refl), andb_true_r.
    destruct (size_tag_here (String c (take j s))) eqn:E'; [|reflexivity].
    apply (size_tag_here_app _ (drop j s)) in E'.
    change (String c (take j s) ++ drop j s) with (String c (take j s ++ drop j s)) in E'.
    rewrite take_drop in E'. congruence.
Qed.

Lemma slice_name_tag_free (line : string) (i : nat) (g : string) :
  search_size line = Some (i, g) -> tag_free (slice 1 i line) = true.
Proof.
  destruct line as [|c line]; [discriminate|].
  intros H. apply search_size_leftmost in H. unfold slice.
  destruct i as [|i]; [reflexivity|].
  simpl. rewrite Nat.sub_0_r. exact (tag_free_tail _ _ H).
Qed.

Lemma digit_char_not_semicolon (d : Z) : 0 <= d < 10 -> Ascii.eqb (digit_char d) ";" = false.
Proof.
  intros H. unfold digit_char.
  assert (C : d = 0 \/ d = 1 \/ d = 2 \/ d = 3 \/ d = 4 \/ d = 5 \/ d = 6 \/ d = 7
              \/ d = 8 \/ d = 9) by lia.
  repeat (destruct C as [C|C]; [subst d; reflexivity|]). subst d. reflexivity.
Qed.

Lemma mentions_app (c : ascii) (a b : string) :
  mentions c (a ++ b) = mentions c a || mentions c b.
Proof.
  induction a as [|d a IH]; [reflexivity|].
  simpl. rewrite IH. now rewrite orb_assoc.
Qed.

Lemma str_digits_no_semicolon (fuel : nat) (n : Z) (acc : string) :
  mentions ";" acc = false -> mentions ";" (str_digits fuel n acc) = false.
Proof.
  revert n acc. induction fuel as [|fuel IH]; intros n acc H; [exact H|].
  cbn [str_digits].
  assert (H' : mentions ";" (String (digit_char (n mod 10)) acc) = false).
  { cbn [mentions]. rewrite digit_char_not_semicolon, H; [reflexivity|].
    apply Z.mod_pos_bound. lia. }
  destruct (n <? 10); [exact H' | apply IH; exact H'].
Qed.

Lemma str_int_no_semicolon (n : Z) : mentions ";" (str_int n) = false.
Proof.
  unfold str_int. destruct (n <? 0).
  - cbn [mentions]. rewrite str_digits_no_semicolon; reflexivity.
  - apply str_digits_no_semicolon. reflexivity.
Qed.

Lemma frac_digits_no_semicolon (fuel : nat) (r d : Z) :
  0 <= r < d -> mentions ";" (frac_digits fuel r d) = false.
Proof.
  revert r. induction fuel as [|fuel IH]; intros r H; [reflexivity|].
  cbn [frac_digits]. destruct (r =? 0); [reflexivity|].
  cbn [mentions]. rewrite digit_char_not_semicolon.
  - apply IH. apply Z.mod_pos_bound. lia.
  - split; [apply Z.div_pos; lia | apply Z.div_lt_upper_bound; lia].
Qed.

Lemma str_float_no_semicolon (x : Q) : mentions ";" (str_float x) = false.
Proof.
  unfold str_float. rewrite !mentions_app, str_int_no_semicolon.
  assert (F : mentions ";" (frac_digits 17 (Z.abs (Qnum x) mod Z.pos (Qden x)) (Z.pos (Qden x)))
              = false).
  { apply frac_digits_no_semicolon. apply Z.mod_pos_bound. lia. }
  destruct (frac_digits 17 (Z.abs (Qnum x) mod Z.pos (Qden x)) (Z.pos (Qden x)));
    [|rewrite F]; destruct (Qnum x <? 0); reflexivity.
Qed.

Lemma string_app_assoc (a b c : string) : (a ++ b) ++ c = a ++ (b ++ c).
Proof. induction a as [|x a IH]; [reflexivity|]. simpl. now rewrite IH. Qed.

Lemma export_from (l : list (string * fasta_value)) (acc : string) :
  fold_left (fun out kv =>
               let (key, value) := (kv : string * fasta_value) in
               out ++ (">" ++ key ++ "_size=" ++ str_float (value_1 value) ++ "_"
                       ++ str_float (value_1 value) ++ "%" ++ nl)
                   ++ value_0 value) l acc
  = acc ++ fold_left (fun out kv =>
               let (key, value) := (kv : string * fasta_value) in
               out ++ (">" ++ key ++ "_size=" ++ str_float (value_1 value) ++ "_"
                       ++ str_float (value_1 value) ++ "%" ++ nl)
                   ++ value_0 value) l EmptyString.
Proof.
  revert acc. induction l as [|[k v] l IH]; intros acc.
  - simpl. induction acc as [|c acc IHa]; [reflexivity | simpl; now rewrite <- IHa].
  - cbn [fold_left]. rewrite IH. rewrite (IH (EmptyString ++ _)).
    rewrite !string_app_assoc. reflexivity.
Qed.

Lemma export_first (self : Clusters) (key : string) (value : fasta_value)
    (rest : list (string * fasta_value)) :
  dict_fasta self = (key, value) :: rest ->
  exists more, clusters_object_to_fasta self = export_header key value ++ more.
Proof.
  intros E. unfold clusters_object_to_fasta, items. rewrite E. cbn [fold_left].
  rewrite export_from. eexists. unfold export_header.
  change (EmptyString ++ ?x) with x. rewrite !string_app_assoc. reflexivity.
Qed.

Lemma export_header_tag_free (key : string) (value : fasta_value) :
  tag_free key = true -> tag_free (export_header key value) = true.
Proof.
  intros Hk. unfold export_header.
  change (">" ++ ?x) with (String ">" x). cbn [tag_free].
  apply andb_true_intro. split; [reflexivity|].
  change ("_size=" ++ ?x) with (String "_" ("size=" ++ x)).
  apply tag_free_underscore; [exact Hk|].
  apply tag_free_without_semicolon.
  change (String "_" ("size=" ++ ?x)) with ("_size=" ++ x).
  rewrite !mentions_app, !str_float_no_semicolon. reflexivity.
Qed.

Lemma readlines_first (h rest : string) :
  mentions newline h = true ->
  exists c L ls t, readlines (h ++ rest) = String c L :: ls /\ h = String c L ++ t.
Proof.
  induction h as [|c h IH]; [discriminate|].
  intros H. change (String c h ++ rest) with (String c (h ++ rest)). cbn [readlines].
  destruct (Ascii.eqb c newline) eqn:E.
  - exists c, EmptyString, (readlines (h ++ rest)), h. split; reflexivity.
  - cbn [mentions] in H. rewrite E in H. simpl in H.
    destruct (IH H) as [c' [L [ls [t [E1 E2]]]]].
    rewrite E1. exists c, (String c' L), ls, t. split; [reflexivity|].
    rewrite E2. reflexivity.
Qed.

Lemma export_header_has_newline (key : string) (value : fasta_value) :
  mentions newline (export_header key value) = true.
Proof.
  unfold export_header, nl. rewrite !mentions_app. cbn [mentions].
  rewrite Ascii.eqb_refl. rewrite !orb_true_r. reflexivity.
Qed.

Lemma Clusters_init_untagged_header (line : string) (ls : list string) :
  startswith ">" line = true -> search_size line = None ->
  Clusters_init (line :: ls) = Err AttributeError.
Proof.
  intros H1 H2. unfold Clusters_init, enumerate.
  cbn [List.length seq combine for_each]. unfold Clusters_init_line at 1.
  rewrite H1, H2. reflexivity.
Qed.

Lemma dict_set_keys_tag_free {V : Type} (k : string) (v : V) (d : dict V) :
  tag_free k = true ->
  Forall (fun kv => tag_free (fst kv) = true) d ->
  Forall (fun kv => tag_free (fst kv) = true) (dict_set k v d).
Proof.
  intros Hk. induction 1 as [|[k' v'] d Hk' Hd IH]; simpl.
  - constructor; [exact Hk | constructor].
  - destruct (String.eqb k' k); constructor; auto.
Qed.

Lemma Clusters_init_names_tag_free (lines : list string) (self : Clusters) :
  Clusters_init lines = Ok self ->
  Forall (fun kv => tag_free (fst kv) = true) (dict_fasta self).
Proof.
  unfold Clusters_init.
  apply (for_each_invariant
           (fun c => Forall (fun kv => tag_free (fst kv) = true) (dict_fasta c))).
  - intros c [number line] c' Hc. unfold Clusters_init_line.
    destruct (startswith ">" line); [|intros E; inversion E; now subst].
    destruct (search_size line) as [[i g]|] eqn:G; simpl; [|discriminate].
    destruct (search_percent line) as [t|]; simpl; [|discriminate].
    destruct (float_of_text t); simpl; [|discriminate].
    destruct (index_or_fail (fasta_file c) (number + 1)); simpl; [|discriminate].
    intros E. inversion E. subst. simpl.
    apply dict_set_keys_tag_free; [|exact Hc].
    exact (slice_name_tag_free _ _ _ G).
  - constructor.
Qed.

(** Whatever the loaded collection, if it has a cluster the export is
    not read back: the first header has no [";size="] annotation. *)
Theorem export_never_read_back (lines : list string) (self : Clusters) :
  Clusters_init lines = Ok self ->
  dict_fasta self <> [] ->
  Clusters_init (readlines (clusters_object_to_fasta self)) = Err AttributeError.
Proof.
  intros L Hne.
  pose proof (Clusters_init_names_tag_free lines self L) as Hk.
  destruct (dict_fasta self) as [|[key value] rest] eqn:E; [congruence|].
  inversion Hk as [|? ? Hkey _]; subst. simpl in Hkey.
  destruct (export_first self key value rest E) as [more Em]. rewrite Em.
  destruct (readlines_first (export_header key value) more
              (export_header_has_newline key value)) as [c [l [ls [t [E1 E2]]]]].
  rewrite E1. apply Clusters_init_untagged_header.
  - unfold export_header in E2. change (">" ++ ?x) with (String ">" x) in E2.
    inversion E2. reflexivity.
  - apply search_size_none. apply (tag_free_prefix _ t). rewrite <- E2.
    apply export_header_tag_free. exact Hkey.
Qed.

Lemma total_from (l : list (string * fasta_value)) (acc : Z) :
  fold_left (fun acc kv => acc + value_2 (snd kv)) l acc
  = acc + fold_right Z.add 0 (map (fun kv => value_2 (snd kv)) l).
Proof.
  revert acc. induction l as [|kv l IH]; intros acc; simpl; [lia|].
  rewrite IH. lia.
Qed.

Lemma string_app_nil (a : string) : a ++ EmptyString = a.
Proof. induction a as [|c a IH]; [reflexivity | simpl; now rewrite IH]. Qed.

Lemma written_from (P : string * fasta_value -> bool) (l : list (string * fasta_value))
    (acc : string) :
  fold_left (fun out kv => if P kv then out ++ value_0 (snd kv) else out) l acc
  = acc ++ String.concat EmptyString (map (fun kv => value_0 (snd kv)) (filter P l)).
Proof.
  revert acc. induction l as [|kv l IH]; intros acc; cbn [fold_left filter].
  - simpl. now rewrite string_app_nil.
  - rewrite IH. destruct (P kv); [|reflexivity].
    cbn [map]. rewrite string_app_assoc. f_equal.
    destruct (map (fun kv0 => value_0 (snd kv0)) (filter P l)) eqn:E; simpl.
    + now rewrite string_app_nil.
    + reflexivity.
Qed.

(** What the method writes, for every collection and fraction: the
    sequence lines of the selected clusters, in the order of the
    collection, and nothing of their names, counts or percentages. *)
Lemma filter_method_output (self : Clusters) (min_fraction : Q) :
  filtering_clusters_by_percentage_to_fasta self min_fraction
  = String.concat EmptyString
      (map (fun kv => value_0 (snd kv))
           (filter (selected self min_fraction) (items (dict_fasta self)))).
Proof.
  unfold filtering_clusters_by_percentage_to_fasta.
  rewrite total_from, Z.add_0_l.
  exact (written_from (selected self min_fraction) (items (dict_fasta self)) EmptyString).
Qed.

(** With fraction 0 every cluster of a loaded collection is selected. *)
Lemma filter_zero_selects_all (lines : list string) (self : Clusters) :
  Clusters_init lines = Ok self ->
  filter (selected self 0) (items (dict_fasta self)) = items (dict_fasta self).
Proof.
  intros L. pose proof (Clusters_init_values_nonneg lines self L) as Hv.
  unfold items. induction Hv as [|kv d Hkv Hd IH]; [reflexivity|].
  cbn [filter]. rewrite IH.
  assert (S0 : selected self 0 kv = true).
  { unfold selected. apply Qle_bool_iff. rewrite Qmult_0_r.
    unfold Qle. simpl. lia. }
  rewrite S0. reflexivity.
Qed.

(** C1, at a failing input.  The export writes ["_size="] and the
    percentage where the parser looks for [";size="] and an integer:
    reading the exported file back fails on its first header. *)
Theorem export_is_not_read_back :
  exists c, Clusters_init doc_example = Ok c
    /\ clusters_object_to_fasta c
       = ">ReadA_size=90.0_90.0%" ++ nl ++ "AAATTTCCCGGG" ++ nl
         ++ ">ReadB_size=10.0_10.0%" ++ nl ++ "TTTAAATTTGGG " ++ nl
    /\ search_size (">ReadA_size=90.0_90.0%" ++ nl) = None
    /\ Clusters_init (readlines (clusters_object_to_fasta c)) = Err AttributeError.
Proof.
  eexists. split; [reflexivity|]. repeat split; reflexivity.
Qed.

(** C8, at a failing input.  The method writes the sequence lines of the
    selected clusters and nothing else: no name, no read count, no
    percentage.  The module-level function writes the records. *)
Theorem filter_method_writes_sequences_only :
  exists c, Clusters_init doc_example = Ok c
    /\ filtering_clusters_by_percentage_to_fasta c 0
       = "AAATTTCCCGGG" ++ nl ++ "TTTAAATTTGGG " ++ nl
    /\ filtering_fastaclusters_by_percentage doc_example 0
       = Ok (">ReadA;size=180_90.0%_90.0%" ++ nl ++ "AAATTTCCCGGG" ++ nl
             ++ ">ReadB;size=20_10.0%_10.0%" ++ nl ++ "TTTAAATTTGGG " ++ nl).
Proof.
  eexists. split; [reflexivity|]. split; reflexivity.
Qed.

(** ** Bounds on the natural logarithm *)

Local Open Scope R_scope.

(** [ln x] lies between [1 - 1/x] and [x - 1], closely so near 1; and
    [ln x] is [2^k] times the logarithm of the [2^k]-th root of [x].
    Taking the roots in fixed point, rounded up or down, gives rational
    bounds of [ln] that the kernel computes. *)

Lemma ln_le_mono (x y : R) : 0 < x -> x <= y -> ln x <= ln y.
Proof.
  intros Hx [H|H]; [left; apply ln_increasing; assumption | subst; right; reflexivity].
Qed.

Lemma ln_below (x : R) : 0 < x -> ln x <= x - 1.
Proof.
  intros Hx. pose proof (exp_ineq1_le (x - 1)) as H.
  rewrite <- (ln_exp (x - 1)). apply ln_le_mono; [exact Hx | lra].
Qed.

Lemma ln_above (x : R) : 0 < x -> 1 - / x <= ln x.
Proof.
  intros Hx. pose proof (Rinv_0_lt_compat x Hx) as Hi.
  pose proof (ln_below (/ x) Hi) as H. rewrite ln_Rinv in H by exact Hx. lra.
Qed.

Lemma ln_square (x : R) : 0 < x -> ln (x * x) = 2 * ln x.
Proof. intros Hx. rewrite ln_mult by exact Hx. ring. Qed.

Section LnBounds.
Variable M : Z.
Hypothesis M_pos : (0 < M)%Z.

Let RM_pos : 0 < IZR M.
Proof. apply IZR_lt. exact M_pos. Qed.

Lemma ratio_lt (a b : Z) :
  (a * M < b * b)%Z -> IZR a / IZR M < (IZR b / IZR M) * (IZR b / IZR M).
Proof.
  intros H. apply IZR_lt in H. rewrite !mult_IZR in H.
  replace (IZR a / IZR M) with (IZR a * IZR M * (/ IZR M * / IZR M)) by (field; lra).
  replace (IZR b / IZR M * (IZR b / IZR M)) with (IZR b * IZR b * (/ IZR M * / IZR M))
    by (field; lra).
  apply Rmult_lt_compat_r; [|exact H].
  apply Rmult_lt_0_compat; apply Rinv_0_lt_compat; exact RM_pos.
Qed.

Lemma ratio_le (a b : Z) :
  (b * b <= a * M)%Z -> (IZR b / IZR M) * (IZR b / IZR M) <= IZR a / IZR M.
Proof.
  intros H. apply IZR_le in H. rewrite !mult_IZR in H.
  replace (IZR a / IZR M) with (IZR a * IZR M * (/ IZR M * / IZR M)) by (field; lra).
  replace (IZR b / IZR M * (IZR b / IZR M)) with (IZR b * IZR b * (/ IZR M * / IZR M))
    by (field; lra).
  apply Rmult_le_compat_r; [|exact H].
  left. apply Rmult_lt_0_compat; apply Rinv_0_lt_compat; exact RM_pos.
Qed.

Lemma ln_sqrt_up (k : nat) (a : Z) :
  (0 < a)%Z ->
  (0 < sqrt_up M k a)%Z
  /\ ln (IZR a / IZR M) <= 2 ^ k * ln (IZR (sqrt_up M k a) / IZR M).
Proof.
  revert a. induction k as [|k IH]; intros a Ha; simpl.
  - split; [exact Ha | lra].
  - pose proof (Z.sqrt_spec (a * M) ltac:(nia)) as [_ Hs].
    pose proof (Z.sqrt_nonneg (a * M)) as Hn.
    set (b := (Z.sqrt (a * M) + 1)%Z) in *.
    assert (Hb : (0 < b)%Z) by (unfold b; lia).
    destruct (IH b Hb) as [Hp Hl]. split; [exact Hp|].
    assert (Ra : 0 < IZR a / IZR M).
    { apply Rdiv_lt_0_compat; [apply IZR_lt; exact Ha | exact RM_pos]. }
    assert (Rb : 0 < IZR b / IZR M).
    { apply Rdiv_lt_0_compat; [apply IZR_lt; exact Hb | exact RM_pos]. }
    assert (Hlt : IZR a / IZR M < IZR b / IZR M * (IZR b / IZR M)).
    { apply ratio_lt. unfold b. unfold Z.succ in Hs. exact Hs. }
    pose proof (ln_le_mono _ _ Ra (Rlt_le _ _ Hlt)) as H1.
    rewrite ln_square in H1 by exact Rb.
    lra.
Qed.

Lemma ln_sqrt_down (k : nat) (a : Z) :
  (0 < a)%Z ->
  (0 < sqrt_down M k a)%Z
  /\ 2 ^ k * ln (IZR (sqrt_down M k a) / IZR M) <= ln (IZR a / IZR M).
Proof.
  revert a. induction k as [|k IH]; intros a Ha; simpl.
  - split; [exact Ha | lra].
  - pose proof (Z.sqrt_spec (a * M) ltac:(nia)) as [Hs _].
    assert (Hb : (0 < Z.sqrt (a * M))%Z) by (apply Z.sqrt_pos; nia).
    set (b := Z.sqrt (a * M)) in *.
    destruct (IH b Hb) as [Hp Hl]. split; [exact Hp|].
    assert (Rb : 0 < IZR b / IZR M).
    { apply Rdiv_lt_0_compat; [apply IZR_lt; exact Hb | exact RM_pos]. }
    assert (Hle : IZR b / IZR M * (IZR b / IZR M) <= IZR a / IZR M).
    { apply ratio_le. exact Hs. }
    assert (Rbb : 0 < IZR b / IZR M * (IZR b / IZR M)) by (apply Rmult_lt_0_compat; exact Rb).
    pose proof (ln_le_mono _ _ Rbb Hle) as H1.
    rewrite ln_square in H1 by exact Rb.
    lra.
Qed.

(** [ln (a/M) <= 2^k (u/M - 1)] and [2^k (1 - M/d) <= ln (a/M)]. *)
Lemma ln_upper_bound (k : nat) (a u : Z) :
  (0 < a)%Z -> sqrt_up M k a = u ->
  ln (IZR a / IZR M) <= 2 ^ k * ((IZR u - IZR M) / IZR M).
Proof.
  intros Ha <-. destruct (ln_sqrt_up k a Ha) as [Hp Hl].
  assert (Rb : 0 < IZR (sqrt_up M k a) / IZR M).
  { apply Rdiv_lt_0_compat; [apply IZR_lt; exact Hp | exact RM_pos]. }
  pose proof (ln_below _ Rb) as H.
  replace ((IZR (sqrt_up M k a) - IZR M) / IZR M) with (IZR (sqrt_up M k a) / IZR M - 1)
    by (field; lra).
  assert (P : 0 < 2 ^ k) by (apply pow_lt; lra).
  nra.
Qed.

Lemma ln_lower_bound (k : nat) (a d : Z) :
  (0 < a)%Z -> sqrt_down M k a = d ->
  2 ^ k * ((IZR d - IZR M) / IZR d) <= ln (IZR a / IZR M).
Proof.
  intros Ha <-. destruct (ln_sqrt_down k a Ha) as [Hp Hl].
  assert (Rd : 0 < IZR (sqrt_down M k a)) by (apply IZR_lt; exact Hp).
  assert (Rb : 0 < IZR (sqrt_down M k a) / IZR M).
  { apply Rdiv_lt_0_compat; [exact Rd | exact RM_pos]. }
  pose proof (ln_above _ Rb) as H.
  replace ((IZR (sqrt_down M k a) - IZR M) / IZR (sqrt_down M k a))
    with (1 - / (IZR (sqrt_down M k a) / IZR M)) by (field; lra).
  assert (P : 0 < 2 ^ k) by (apply pow_lt; lra).
  nra.
Qed.
End LnBounds.

(** ** Clusters: Shannon entropy *)

Lemma true_div_R_ok (a b : Z) : b <> 0%Z -> true_div_R a b = Ok (IZR a / IZR b).
Proof.
  intros H. unfold true_div_R. destruct (Z.eqb_spec b 0); [contradiction | reflexivity].
Qed.

Lemma math_log_ok (x : R) : 0 < x -> math_log x = Ok (ln x).
Proof.
  intros H. unfold math_log. destruct (Rlt_dec 0 x); [reflexivity | contradiction].
Qed.

Lemma math_log_domain (x : R) : x <= 0 -> math_log x = Err ValueError.
Proof.
  intros H. unfold math_log. destruct (Rlt_dec 0 x); [lra | reflexivity].
Qed.

Lemma float_div_R_ok (a b : R) : b <> 0 -> float_div_R a b = Ok (a / b).
Proof.
  intros H. unfold float_div_R. destruct (Req_dec_T b 0); [contradiction | reflexivity].
Qed.

Lemma float_div_R_zero (a : R) : float_div_R a 0 = Err ZeroDivisionError.
Proof.
  unfold float_div_R. destruct (Req_dec_T 0 0); [reflexivity | contradiction].
Qed.

Lemma round_half_even_R_near (x : R) (k : Z) :
  IZR k - 1 / 2 < x < IZR k + 1 / 2 -> round_half_even_R x = k.
Proof.
  intros [Hl Hu]. unfold round_half_even_R.
  destruct (base_Int_part x) as [F1 F2].
  set (f := Int_part x) in *.
  assert (A : (f < k + 1)%Z) by (apply lt_IZR; rewrite plus_IZR; lra).
  assert (B : (k - 2 < f)%Z) by (apply lt_IZR; rewrite minus_IZR; lra).
  assert (C : f = k \/ f = (k - 1)%Z) by lia.
  destruct C as [C|C]; rewrite C in *.
  - destruct (Rlt_dec (x - IZR k) (1 / 2)); [reflexivity | lra].
  - rewrite minus_IZR in *.
    destruct (Rlt_dec (x - (IZR k - 1)) (1 / 2)); [lra|].
    destruct (Rlt_dec (1 / 2) (x - (IZR k - 1))); [lia | lra].
Qed.

Lemma py_round_R_near (x : R) (n : nat) (k : Z) :
  IZR k - 1 / 2 < x * 10 ^ n < IZR k + 1 / 2 -> py_round_R x n = IZR k / 10 ^ n.
Proof.
  intros H. unfold py_round_R. rewrite (round_half_even_R_near _ k H). reflexivity.
Qed.

Lemma py_round_R_zero (n : nat) : py_round_R 0 n = 0.
Proof.
  rewrite (py_round_R_near 0 n 0); [unfold Rdiv; ring | lra].
Qed.

Lemma sizes_above_from (minimun_perc : Q) (l : list (string * fasta_value)) (acc : Z * list Z) :
  fold_left (fun acc kv =>
               let value := snd (kv : string * fasta_value) in
               if Qle_bool minimun_perc (value_1 value)
               then ((fst acc + value_2 value)%Z, (snd acc ++ [value_2 value])%list)
               else acc) l acc
  = ((fst acc
      + fold_right Z.add 0%Z
          (map (fun kv => value_2 (snd kv))
               (filter (fun kv => Qle_bool minimun_perc (value_1 (snd kv))) l)))%Z,
     (snd acc
      ++ map (fun kv => value_2 (snd kv))
           (filter (fun kv => Qle_bool minimun_perc (value_1 (snd kv))) l))%list).
Proof.
  revert acc. induction l as [|kv l IH]; intros [n ls]; simpl.
  - rewrite Z.add_0_r, app_nil_r. reflexivity.
  - rewrite IH. destruct (Qle_bool minimun_perc (value_1 (snd kv))); simpl.
    + rewrite <- app_assoc. simpl. f_equal. lia.
    + reflexivity.
Qed.

Lemma sizes_above_restricted (self : Clusters) (minimun_perc : Q) :
  sizes_above self minimun_perc
  = (fold_right Z.add 0%Z (map (fun kv => value_2 (snd kv)) (restricted self minimun_perc)),
     map (fun kv => value_2 (snd kv)) (restricted self minimun_perc)).
Proof.
  unfold sizes_above, restricted. rewrite sizes_above_from. reflexivity.
Qed.

(** What [shannon_entropy] does when at most one cluster is at or above
    the threshold. *)
Lemma shannon_entropy_at_most_one (self : Clusters) (minimun_perc : Q) :
  (List.length (restricted self minimun_perc) <= 1)%nat ->
  shannon_entropy self minimun_perc
  = match restricted self minimun_perc with
    | [] => Err ValueError
    | kv :: _ =>
        if (value_2 (snd kv) <? 0)%Z then Err ValueError
        else if (value_2 (snd kv) <=? 1)%Z then Err ZeroDivisionError
        else Ok 0
    end.
Proof.
  intros Hlen. unfold shannon_entropy. rewrite sizes_above_restricted.
  destruct (restricted self minimun_perc) as [|kv [|kv' l]]; [| |simpl in Hlen; lia].
  - simpl. rewrite math_log_domain by lra. reflexivity.
  - cbn [map fold_right for_each]. rewrite Z.add_0_r.
    set (n := value_2 (snd kv)).
    destruct (Z.ltb_spec n 0) as [Hneg|Hnn].
    + rewrite true_div_R_ok by lia. cbn [bind].
      assert (N0 : IZR n < 0) by (apply IZR_lt; exact Hneg).
      assert (E : IZR n / IZR n = 1) by (field; lra).
      rewrite E. rewrite math_log_ok by lra. cbn [bind].
      rewrite math_log_domain by lra. reflexivity.
    + destruct (Z.leb_spec n 1) as [Hs|Hb].
      * assert (C : n = 0%Z \/ n = 1%Z) by lia. destruct C as [C|C]; rewrite C.
        -- reflexivity.
        -- rewrite true_div_R_ok by lia. cbn [bind].
           assert (E : IZR 1 / IZR 1 = 1) by (field; lra).
           rewrite E. rewrite math_log_ok by lra. cbn [bind].
           rewrite ln_1. rewrite float_div_R_zero. reflexivity.
      * rewrite true_div_R_ok by lia. cbn [bind].
        assert (N2 : 1 < IZR n) by (apply IZR_lt; exact Hb).
        assert (E : IZR n / IZR n = 1) by (field; lra).
        rewrite E. rewrite math_log_ok by lra. cbn [bind].
        rewrite math_log_ok by lra. cbn [bind].
        assert (L : 0 < ln (IZR n)) by (rewrite <- ln_1; apply ln_increasing; lra).
        rewrite float_div_R_ok by lra. cbn [bind].
        rewrite ln_1.
        replace (- ((0 + 1 * 0) / ln (IZR n))) with 0 by (field; lra).
        rewrite py_round_R_zero. reflexivity.
Qed.

(** C7, as the code has it.  On a loaded collection, with no cluster at
    or above the threshold [shannon_entropy] ends in the [ValueError] of
    [math.log(0)]; with exactly one such cluster it ends in
    [ZeroDivisionError] when the cluster has at most one read, and
    returns zero when it has more. *)
Theorem shannon_entropy_small_sets
    (lines : list string) (self : Clusters) (minimun_perc : Q) :
  Clusters_init lines = Ok self ->
  (List.length (restricted self minimun_perc) <= 1)%nat ->
  shannon_entropy self minimun_perc
  = match restricted self minimun_perc with
    | [] => Err ValueError
    | kv :: _ => if (value_2 (snd kv) <=? 1)%Z then Err ZeroDivisionError else Ok 0
    end.
Proof.
  intros L Hlen. rewrite (shannon_entropy_at_most_one self minimun_perc Hlen).
  pose proof (Clusters_init_values_nonneg lines self L) as Hv.
  assert (Hr : Forall (fun kv => (0 <= value_2 (snd kv))%Z) (restricted self minimun_perc)).
  { apply Forall_forall. intros kv Hin. unfold restricted in Hin.
    apply filter_In in Hin. destruct Hin as [Hin _].
    rewrite Forall_forall in Hv. exact (Hv kv Hin). }
  destruct (restricted self minimun_perc) as [|kv r]; [reflexivity|].
  inversion Hr as [|? ? H0 _]; subst.
  destruct (Z.ltb_spec (value_2 (snd kv)) 0); [lia | reflexivity].
Qed.

Lemma one_cluster_loaded : Clusters_init one_cluster = Ok one_cluster_clusters.
Proof. reflexivity. Qed.

Lemma shannon_entropy_small_sets_witness :
  Clusters_init one_cluster = Ok one_cluster_clusters
  /\ (List.length (restricted one_cluster_clusters 0) <= 1)%nat
  /\ shannon_entropy one_cluster_clusters 0
     = match restricted one_cluster_clusters 0 with
       | [] => Err ValueError
       | kv :: _ => if (value_2 (snd kv) <=? 1)%Z then Err ZeroDivisionError else Ok 0
       end.
Proof.
  assert (H1 : Clusters_init one_cluster = Ok one_cluster_clusters) by reflexivity.
  assert (H2 : (List.length (restricted one_cluster_clusters 0) <= 1)%nat)
    by (vm_compute; lia).
  split; [exact H1|]. split; [exact H2|].
  exact (shannon_entropy_small_sets one_cluster one_cluster_clusters 0 H1 H2).
Defined.

(** C7 as stated fails: for the file of one cluster of 180 reads and
    threshold 0, exactly one cluster is selected and [shannon_entropy]
    returns zero, no error; and with no cluster selected (threshold 95
    on the docstring's file) the error is the [ValueError] of
    [math.log], not one the module raises itself. *)
Lemma shannon_entropy_one_cluster_no_error :
  Clusters_init one_cluster = Ok one_cluster_clusters
  /\ List.length (restricted one_cluster_clusters 0) = 1%nat
  /\ shannon_entropy one_cluster_clusters 0 = Ok 0
  /\ ~ (exists e, shannon_entropy one_cluster_clusters 0 = Err e)
  /\ restricted doc_clusters 95 = []
  /\ shannon_entropy doc_clusters 95 = Err ValueError
  /\ ~ (exists name, shannon_entropy doc_clusters 95 = Err (Raised name)).
Proof.
  assert (A : shannon_entropy one_cluster_clusters 0 = Ok 0).
  { rewrite shannon_entropy_at_most_one by (vm_compute; lia).
    set (r := restricted one_cluster_clusters 0). vm_compute in r. subst r.
    reflexivity. }
  assert (B : shannon_entropy doc_clusters 95 = Err ValueError).
  { rewrite shannon_entropy_at_most_one by (vm_compute; lia).
    set (r := restricted doc_clusters 95). vm_compute in r. subst r.
    reflexivity. }
  split; [reflexivity|]. split; [reflexivity|]. split; [exact A|].
  split; [intros [e E]; rewrite A in E; discriminate|].
  split; [reflexivity|]. split; [exact B|].
  intros [name E]. rewrite B in E. discriminate.
Qed.

(** ** Clusters: the two indices on the docstring's file *)

(** Both bounds of [ln (a / 10^18)] after twenty square roots. *)
Ltac ln_interval a :=
  let U := fresh "U" in
  let L := fresh "L" in
  pose proof (ln_upper_bound M18 eq_refl 20 a _ eq_refl eq_refl) as U;
  pose proof (ln_lower_bound M18 eq_refl 20 a _ eq_refl eq_refl) as L;
  cbv [M18] in U, L;
  vm_compute (sqrt_up _ _ _) in U; vm_compute (sqrt_down _ _ _) in L;
  vm_compute (10 ^ 18)%Z in U; vm_compute (10 ^ 18)%Z in L;
  simpl pow in U, L.

Lemma ln_180_200 : -0.10537 <= ln (IZR 180 / IZR 200) <= -0.10535.
Proof.
  replace (IZR 180 / IZR 200) with (IZR 900000000000000000 / IZR 1000000000000000000) by lra.
  ln_interval 900000000000000000%Z. split; lra.
Qed.

Lemma ln_20_200 : -2.3027 <= ln (IZR 20 / IZR 200) <= -2.3025.
Proof.
  replace (IZR 20 / IZR 200) with (IZR 100000000000000000 / IZR 1000000000000000000) by lra.
  ln_interval 100000000000000000%Z. split; lra.
Qed.

Lemma ln_200 : 5.2982 <= ln (IZR 200) <= 5.2984.
Proof.
  replace (IZR 200) with (IZR 200000000000000000000 / IZR 1000000000000000000) by lra.
  ln_interval 200000000000000000000%Z. split; lra.
Qed.

(** [shannon_entropy(0)] on the docstring's file: the rounded value is
    [0.061]. *)
Lemma shannon_entropy_doc_value : shannon_entropy doc_clusters 0 = Ok (IZR 61 / 10 ^ 3).
Proof.
  unfold shannon_entropy. rewrite sizes_above_restricted.
  set (r := restricted doc_clusters 0). vm_compute in r. subst r.
  cbn [map fold_right for_each snd value_2].
  change (180 + (20 + 0))%Z with 200%Z.
  pose proof ln_180_200 as L1. pose proof ln_20_200 as L2. pose proof ln_200 as L3.
  rewrite !true_div_R_ok by lia. cbn [bind].
  rewrite (math_log_ok (IZR 180 / IZR 200)) by lra. cbn [bind].
  rewrite (math_log_ok (IZR 20 / IZR 200)) by lra. cbn [bind].
  rewrite (math_log_ok (IZR 200)) by lra. cbn [bind].
  rewrite float_div_R_ok by lra. cbn [bind].
  f_equal. apply py_round_R_near.
  set (l1 := ln (IZR 180 / IZR 200)) in *.
  set (l2 := ln (IZR 20 / IZR 200)) in *.
  set (l3 := ln (IZR 200)) in *.
  set (e := 0 + IZR 180 / IZR 200 * l1 + IZR 20 / IZR 200 * l2).
  assert (E1 : -0.32511 <= e <= -0.32506) by (unfold e; lra).
  assert (P3 : 0 < l3) by lra.
  assert (E2 : - (e / l3) * l3 = - e) by (field; lra).
  set (s := - (e / l3)) in *.
  simpl pow. split; nra.
Qed.

(** C2, as the code has it.  On the docstring's file, two clusters of
    180 reads (90.0%) and 20 reads (10.0%), [simpsons_index()] returns
    [0.82] and [shannon_entropy(0)] returns [0.061]. *)
Theorem doc_example_indices :
  Clusters_init doc_example = Ok doc_clusters
  /\ number_reads doc_clusters = [180; 20]%Z
  /\ Forall2 Qeq (percentages doc_clusters) [90; 10]%Q
  /\ (exists d, simpsons_index doc_clusters = Ok d /\ (d == 82 # 100)%Q)
  /\ (exists h, shannon_entropy doc_clusters 0 = Ok h /\ h = 61 / 1000).
Proof.
  split; [reflexivity|]. split; [reflexivity|]. split; [|split].
  - repeat constructor.
  - eexists. split; reflexivity.
  - eexists. split; [apply shannon_entropy_doc_value | simpl; lra].
Qed.

(** C2 as stated fails: on that file [simpsons_index()] is not within
    0.05 of 0.68, and [shannon_entropy(0)] is not within 0.05 of
    0.469. *)
Lemma doc_example_not_068_0469 :
  Clusters_init doc_example = Ok doc_clusters
  /\ exists (d : Q) (h : R),
      simpsons_index doc_clusters = Ok d
      /\ shannon_entropy doc_clusters 0 = Ok h
      /\ ~ (Qabs (d - (68 # 100)) <= 5 # 100)%Q
      /\ ~ Rabs (h - 469 / 1000) <= 5 / 100.
Proof.
  split; [reflexivity|].
  eexists. eexists. split; [reflexivity|]. split; [apply shannon_entropy_doc_value|].
  split.
  - intros H. vm_compute in H. apply H. reflexivity.
  - intros H. simpl pow in H.
    unfold Rabs in H. destruct (Rcase_abs (61 / (10 * (10 * (10 * 1))) - 469 / 1000)); lra.
Qed.

(** ** Clusters: when the Shannon entropy returns *)

Lemma round_half_even_R_between (x : R) (a b : Z) :
  IZR a <= x <= IZR b -> (a <= round_half_even_R x <= b)%Z.
Proof.
  intros [Ha Hb]. unfold round_half_even_R.
  destruct (base_Int_part x) as [F1 F2].
  set (f := Int_part x) in *.
  assert (A : (a - 1 < f)%Z) by (apply lt_IZR; rewrite minus_IZR; lra).
  assert (B : (f <= b)%Z) by (apply le_IZR; lra).
  destruct (Rlt_dec (x - IZR f) (1 / 2)) as [L|L]; [lia|].
  assert (C : (f < b)%Z) by (apply lt_IZR; lra).
  destruct (Rlt_dec (1 / 2) (x - IZR f)); [lia|].
  destruct (Z.even f); lia.
Qed.

Lemma py_round_R_unit_interval (x : R) (n : nat) :
  0 <= x <= 1 -> 0 <= py_round_R x n <= 1.
Proof.
  intros [H0 H1]. unfold py_round_R.
  assert (P : 0 < 10 ^ n) by (apply pow_lt; lra).
  assert (E : 10 ^ n = IZR (10 ^ Z.of_nat n)).
  { rewrite <- pow_IZR. reflexivity. }
  destruct (round_half_even_R_between (x * 10 ^ n) 0 (10 ^ Z.of_nat n)) as [A B].
  { rewrite <- E. split; nra. }
  apply IZR_le in A. apply IZR_le in B. rewrite <- E in B.
  split.
  - apply Rmult_le_reg_r with (10 ^ n); [exact P|].
    unfold Rdiv. rewrite Rmult_assoc, Rinv_l by lra. lra.
  - apply Rmult_le_reg_r with (10 ^ n); [exact P|].
    unfold Rdiv. rewrite Rmult_assoc, Rinv_l by lra. lra.
Qed.

Lemma entropy_loop_ok (N : Z) (l : list Z) (e0 : R) :
  N <> 0%Z -> (forall v, In v l -> 0 < IZR v / IZR N) ->
  for_each (fun entropy v =>
              p <- true_div_R v N ;;
              l <- math_log p ;;
              Ok (entropy + p * l)) l e0
  = Ok (e0 + plogp_sum N l).
Proof.
  intros HN. revert e0. induction l as [|v l IH]; intros e0 H.
  - simpl. f_equal. lra.
  - cbn [for_each]. rewrite true_div_R_ok by exact HN. cbn [bind].
    rewrite math_log_ok by (apply H; now left). cbn [bind].
    rewrite IH by (intros; apply H; now right).
    f_equal. simpl. lra.
Qed.

Lemma entropy_loop_returns (N : Z) (l : list Z) (e0 e : R) :
  for_each (fun entropy v =>
              p <- true_div_R v N ;;
              l <- math_log p ;;
              Ok (entropy + p * l)) l e0
  = Ok e ->
  forall v, In v l -> N <> 0%Z /\ 0 < IZR v / IZR N.
Proof.
  revert e0. induction l as [|v l IH]; intros e0 H x Hin; [destruct Hin|].
  cbn [for_each] in H.
  destruct (true_div_R v N) as [p|e1] eqn:D; cbn [bind] in H; [|discriminate].
  destruct (math_log p) as [lp|e1] eqn:M; cbn [bind] in H; [|discriminate].
  destruct Hin as [<-|Hin]; [|exact (IH _ H x Hin)].
  unfold true_div_R in D. destruct (Z.eqb_spec N 0) as [Z0|NZ]; [discriminate|].
  inversion D. subst p. unfold math_log in M.
  destruct (Rlt_dec 0 (IZR v / IZR N)) as [P|P]; [|discriminate].
  split; assumption.
Qed.

Lemma entropy_loop_error (N : Z) (l : list Z) (e0 : R) (e : exn) :
  for_each (fun entropy v =>
              p <- true_div_R v N ;;
              l <- math_log p ;;
              Ok (entropy + p * l)) l e0
  = Err e ->
  e = ValueError \/ e = ZeroDivisionError.
Proof.
  revert e0. induction l as [|v l IH]; intros e0; [discriminate|].
  cbn [for_each].
  destruct (true_div_R v N) as [p|e1] eqn:D; cbn [bind].
  - destruct (math_log p) as [lp|e2] eqn:M; cbn [bind]; [apply IH|].
    intros H. inversion H. subst e2. unfold math_log in M.
    destruct (Rlt_dec 0 p); [discriminate|]. inversion M. now left.
  - intros H. inversion H. subst e1. unfold true_div_R in D.
    destruct (N =? 0)%Z; [|discriminate]. inversion D. now right.
Qed.

Lemma sum_at_least (l : list Z) (v : Z) :
  (forall x, In x l -> (1 <= x)%Z) -> In v l -> (v <= fold_right Z.add 0%Z l)%Z.
Proof.
  induction l as [|y l IH]; intros H Hin; [destruct Hin|].
  simpl. destruct Hin as [<-|Hin].
  - assert (0 <= fold_right Z.add 0 l)%Z; [|lia].
    clear -H. induction l as [|z l IHl]; simpl; [lia|].
    assert (1 <= z)%Z by (apply H; right; now left).
    assert (0 <= fold_right Z.add 0 l)%Z; [|lia].
    apply IHl. intros x [->|Hx]; apply H; [now left | right; now right].
  - assert (1 <= y)%Z by (apply H; now left).
    assert (v <= fold_right Z.add 0 l)%Z; [|lia].
    apply IH; [intros; apply H; now right | exact Hin].
Qed.

Lemma plogp_sum_bounds (N : Z) (l : list Z) :
  (0 < N)%Z ->
  (forall v, In v l -> (1 <= v <= N)%Z) ->
  - (IZR (fold_right Z.add 0%Z l) / IZR N) * ln (IZR N) <= plogp_sum N l <= 0.
Proof.
  intros HN. assert (PN : 0 < IZR N) by (apply IZR_lt; exact HN).
  assert (LN : 0 <= ln (IZR N)).
  { rewrite <- ln_1. apply ln_le_mono; [lra|]. apply IZR_le. lia. }
  induction l as [|v l IH]; intros H.
  - simpl. unfold Rdiv. rewrite Rmult_0_l, Ropp_0, Rmult_0_l. lra.
  - destruct IH as [A B]; [intros; apply H; now right|].
    destruct (H v) as [V1 VN]; [now left|].
    assert (Pv : 1 <= IZR v) by (apply IZR_le; exact V1).
    assert (PvN : IZR v <= IZR N) by (apply IZR_le; exact VN).
    cbn [plogp_sum fold_right]. fold (plogp_sum N l).
    rewrite plus_IZR.
    set (p := IZR v / IZR N).
    assert (Pp : 0 < p) by (unfold p; apply Rdiv_lt_0_compat; lra).
    assert (Pp1 : p <= 1).
    { unfold p. apply Rmult_le_reg_r with (IZR N); [exact PN|].
      unfold Rdiv. rewrite Rmult_assoc, Rinv_l by lra. lra. }
    assert (L1 : ln p <= 0) by (rewrite <- ln_1; apply ln_le_mono; lra).
    assert (L2 : - ln (IZR N) <= ln p).
    { unfold p, Rdiv.
      rewrite ln_mult by (try apply Rinv_0_lt_compat; lra).
      rewrite ln_Rinv by lra.
      assert (0 <= ln (IZR v)) by (rewrite <- ln_1; apply ln_le_mono; lra).
      lra. }
    replace ((IZR v + IZR (fold_right Z.add 0%Z l)) / IZR N)
      with (p + IZR (fold_right Z.add 0%Z l) / IZR N) by (unfold p; field; lra).
    split; nra.
Qed.

(** X7.  [shannon_entropy] returns a value exactly when the sizes of
    the clusters at or above the threshold add up to 2 or more and each
    of them is 1 or more; the value returned lies between 0 and 1; and
    when it does not return, the exception is [ValueError] or
    [ZeroDivisionError]. *)
Theorem shannon_entropy_returns (self : Clusters) (minimun_perc : Q) :
  ((exists h, shannon_entropy self minimun_perc = Ok h)
   <-> (2 <= fst (sizes_above self minimun_perc))%Z
       /\ forall v, In v (snd (sizes_above self minimun_perc)) -> (1 <= v)%Z)
  /\ (forall h, shannon_entropy self minimun_perc = Ok h -> 0 <= h <= 1)
  /\ (forall e, shannon_entropy self minimun_perc = Err e ->
                e = ValueError \/ e = ZeroDivisionError).
Proof.
  unfold shannon_entropy. rewrite sizes_above_restricted. cbn [fst snd].
  set (l := map (fun kv => value_2 (snd kv)) (restricted self minimun_perc)).
  set (N := fold_right Z.add 0%Z l).
  assert (R1 : forall h,
             (e <- for_each (fun entropy v =>
                               p <- true_div_R v N ;;
                               l <- math_log p ;;
                               Ok (entropy + p * l)) l 0 ;;
              l0 <- math_log (IZR N) ;;
              q <- float_div_R e l0 ;;
              Ok (py_round_R (- q) 3)) = Ok h ->
             (2 <= N)%Z /\ (forall v, In v l -> (1 <= v)%Z)
             /\ h = py_round_R (- (plogp_sum N l / ln (IZR N))) 3).
  { intros h H.
    destruct (for_each _ l 0) as [e|e] eqn:E; cbn [bind] in H; [|discriminate].
    unfold math_log in H. destruct (Rlt_dec 0 (IZR N)) as [PN|PN]; [|discriminate].
    cbn [bind] in H. unfold float_div_R in H.
    destruct (Req_dec_T (ln (IZR N)) 0) as [L0|L0]; [discriminate|]. cbn [bind] in H.
    assert (HN : (0 < N)%Z) by (apply lt_IZR; exact PN).
    assert (Hv : forall v, In v l -> (1 <= v)%Z).
    { intros v Hin. destruct (entropy_loop_returns _ _ _ _ E v Hin) as [_ P].
      assert (P0 : 0 < IZR v).
      { apply Rmult_lt_reg_r with (/ IZR N); [apply Rinv_0_lt_compat; exact PN|].
        rewrite Rmult_0_l. exact P. }
      apply lt_IZR in P0. lia. }
    split; [|split; [exact Hv|]].
    - destruct (Z.eq_dec N 1) as [N1|N1]; [|lia].
      exfalso. apply L0. rewrite N1. apply ln_1.
    - rewrite entropy_loop_ok in E.
      + inversion E. inversion H. f_equal. f_equal. f_equal. lra.
      + lia.
      + intros v Hin. apply Rdiv_lt_0_compat; [|exact PN].
        apply IZR_lt. specialize (Hv v Hin). lia. }
  split; [split|split].
  - intros [h H]. destruct (R1 h H) as [A [B _]]. split; assumption.
  - intros [HN Hv].
    assert (PN : 1 < IZR N) by (apply IZR_lt; lia).
    rewrite entropy_loop_ok.
    + cbn [bind]. rewrite math_log_ok by lra. cbn [bind].
      assert (L : 0 < ln (IZR N)) by (rewrite <- ln_1; apply ln_increasing; lra).
      rewrite float_div_R_ok by lra. cbn [bind]. eexists. reflexivity.
    + lia.
    + intros v Hin. apply Rdiv_lt_0_compat; [|lra].
      apply IZR_lt. specialize (Hv v Hin). lia.
  - intros h H. destruct (R1 h H) as [HN [Hv ->]].
    assert (PN : 1 < IZR N) by (apply IZR_lt; lia).
    assert (L : 0 < ln (IZR N)) by (rewrite <- ln_1; apply ln_increasing; lra).
    apply py_round_R_unit_interval.
    destruct (plogp_sum_bounds N l) as [A B]; [lia | |].
    { intros v Hin. split; [apply Hv; exact Hin|]. apply sum_at_least; assumption. }
    fold N in A.
    replace (IZR N / IZR N) with 1 in A by (field; lra).
    split.
    + apply Rmult_le_reg_r with (ln (IZR N)); [exact L|].
      rewrite Rmult_0_l. unfold Rdiv.
      rewrite Ropp_mult_distr_l, Rmult_assoc, Rinv_l by lra. lra.
    + apply Rmult_le_reg_r with (ln (IZR N)); [exact L|].
      unfold Rdiv. rewrite Ropp_mult_distr_l, Rmult_assoc, Rinv_l by lra. lra.
  - intros e.
    destruct (for_each _ l 0) as [x|e'] eqn:E; cbn [bind].
    + unfold math_log. destruct (Rlt_dec 0 (IZR N)); cbn [bind].
      * unfold float_div_R. destruct (Req_dec_T (ln (IZR N)) 0); cbn [bind]; [|discriminate].
        intros H. inversion H. now right.
      * intros H. inversion H. now left.
    + intros H. inversion H. subst e'. exact (entropy_loop_error _ _ _ _ E).
Qed.

Lemma shannon_entropy_returns_witness :
  ((2 <= fst (sizes_above doc_clusters 0))%Z
   /\ forall v, In v (snd (sizes_above doc_clusters 0)) -> (1 <= v)%Z)
  /\ exists h, shannon_entropy doc_clusters 0 = Ok h.
Proof.
  assert (H : (2 <= fst (sizes_above doc_clusters 0))%Z
              /\ forall v, In v (snd (sizes_above doc_clusters 0)) -> (1 <= v)%Z).
  { split; [vm_compute; discriminate|].
    change (snd (sizes_above doc_clusters 0)) with [180%Z; 20%Z].
    intros v [<-|[<-|[]]]; lia. }
  split; [exact H|].
  exact (proj2 (proj1 (shannon_entropy_returns doc_clusters 0)) H).
Defined.

(** * Further properties of the two classes and of the module-level functions *)

Local Close Scope R_scope.

(** ** Clusters: rounding and the Simpson indices together *)

Lemma round_half_even_nearest (x : Q) : nearest_even x (round_half_even x).
Proof.
  unfold nearest_even, round_half_even.
  pose proof (Qfloor_le x) as Hl. pose proof (Qlt_floor x) as Hu.
  rewrite inject_Z_plus in Hu. change (inject_Z 1) with 1%Q in Hu.
  destruct (Qcompare_spec (x - inject_Z (Qfloor x)) (1 # 2)) as [E|E|E].
  - destruct (Z.even (Qfloor x)) eqn:Ev.
    + right. split; [left; exact E | exact Ev].
    + right. split.
      * right. rewrite inject_Z_plus. change (inject_Z 1) with 1%Q. lra.
      * rewrite Z.even_add, Ev. reflexivity.
  - left. split; lra.
  - left. rewrite inject_Z_plus. change (inject_Z 1) with 1%Q. split; lra.
Qed.

Lemma nearest_even_unique (x : Q) (r1 r2 : Z) :
  nearest_even x r1 -> nearest_even x r2 -> r1 = r2.
Proof.
  assert (W : forall a b, nearest_even x a -> nearest_even x b -> a < b -> False).
  { intros a b Ha Hb Hlt.
    assert (Hq : (inject_Z a + 1 <= inject_Z b)%Q).
    { change 1%Q with (inject_Z 1). rewrite <- inject_Z_plus. rewrite <- Zle_Qle. lia. }
    destruct Ha as [[A1 A2]|[A Ea]]; destruct Hb as [[B1 B2]|[B Eb]];
      try lra.
    destruct A as [A|A]; destruct B as [B|B]; try lra.
    assert (Hq' : (inject_Z b == inject_Z a + 1)%Q) by lra.
    change 1%Q with (inject_Z 1) in Hq'. rewrite <- inject_Z_plus in Hq'.
    rewrite inject_Z_injective in Hq'. subst b.
    rewrite Z.even_add, Ea in Eb. discriminate. }
  intros H1 H2.
  destruct (Z.lt_trichotomy r1 r2) as [L|[E|L]]; [exfalso; eauto | exact E | exfalso; eauto].
Qed.

Lemma round_half_even_reflect (x : Q) (z : Z) :
  Z.even z = true ->
  round_half_even (inject_Z z - x) = z - round_half_even x.
Proof.
  intros Ez. apply (nearest_even_unique (inject_Z z - x)); [apply round_half_even_nearest|].
  destruct (round_half_even_nearest x) as [[A1 A2]|[A Ea]]; unfold nearest_even.
  - left. unfold Zminus. rewrite inject_Z_plus, inject_Z_opp. split; lra.
  - right. split.
    + unfold Zminus. rewrite inject_Z_plus, inject_Z_opp. destruct A as [A|A]; [right|left]; lra.
    + rewrite Z.even_sub, Ez, Ea. reflexivity.
Qed.

Lemma round_half_even_ceiling (x : Q) : round_half_even x <= Qceiling x.
Proof.
  unfold round_half_even.
  pose proof (Qfloor_le x) as Hl. pose proof (Qle_ceiling x) as Hc.
  assert (F : Qfloor x <= Qceiling x).
  { rewrite Zle_Qle. eapply Qle_trans; eassumption. }
  destruct (Qcompare_spec (x - inject_Z (Qfloor x)) (1 # 2)) as [E|E|E].
  - assert (N : Qfloor x < Qceiling x).
    { apply Z.le_neq. split; [exact F|]. intros Eq. rewrite <- Eq in Hc. lra. }
    destruct (Z.even (Qfloor x)); lia.
  - exact F.
  - assert (N : Qfloor x < Qceiling x).
    { apply Z.le_neq. split; [exact F|]. intros Eq. rewrite <- Eq in Hc. lra. }
    lia.
Qed.

Lemma py_round_unit_interval (x : Q) (n : nat) :
  (0 <= x)%Q -> (x <= 1)%Q -> (0 <= py_round x n)%Q /\ (py_round x n <= 1)%Q.
Proof.
  intros H0 H1. rewrite py_round_value.
  pose proof (scale_positive n) as Hs.
  set (s := 10 ^ Z.of_nat n) in *.
  split.
  - apply Qle_shift_div_l; [exact Hs|]. rewrite Qmult_0_l.
    change 0%Q with (inject_Z 0). rewrite <- Zle_Qle. etransitivity; [|apply round_half_even_floor].
    assert (C : Qfloor (inject_Z 0) <= Qfloor (x * inject_Z s)).
    { apply Qfloor_resp_le.
      apply Qmult_le_0_compat; [exact H0 | apply Qlt_le_weak; exact Hs]. }
    rewrite Qfloor_Z in C. exact C.
  - apply Qle_shift_div_r; [exact Hs|]. rewrite Qmult_1_l.
    rewrite <- Zle_Qle. etransitivity; [apply round_half_even_ceiling|].
    assert (C : Qceiling (x * inject_Z s) <= Qceiling (inject_Z s)).
    { apply Qceiling_resp_le.
      rewrite <- (Qmult_1_l (inject_Z s)) at 2.
      apply Qmult_le_compat_r; [exact H1 | apply Qlt_le_weak; exact Hs]. }
    rewrite Qceiling_Z in C. exact C.
Qed.


Lemma round_half_even_integer (m : Z) : round_half_even (inject_Z m) = m.
Proof.
  unfold round_half_even. rewrite Qfloor_Z.
  assert (E : (inject_Z m - inject_Z m ?= 1 # 2)%Q = Lt).
  { rewrite <- Qlt_alt. lra. }
  rewrite E. reflexivity.
Qed.






(** X6.  When there are clusters and their sizes add up to 0, the
    three Simpson methods end in [ZeroDivisionError]. *)
Theorem simpsons_without_reads (self : Clusters) :
  number_reads self <> [] -> sum (number_reads self) = 0 ->
  simpsons_index self = Err ZeroDivisionError
  /\ simpsons_index_of_diversity self = Err ZeroDivisionError
  /\ simpsons_reciprocal_index self = Err ZeroDivisionError.
Proof.
  intros Hne H0.
  assert (E : simpsons_D self = Err ZeroDivisionError).
  { unfold simpsons_D. rewrite H0.
    destruct (number_reads self) as [|x l]; [congruence|]. reflexivity. }
  unfold simpsons_index, simpsons_index_of_diversity, simpsons_reciprocal_index.
  rewrite E. repeat split; reflexivity.
Qed.

Lemma simpsons_without_reads_witness :
  number_reads zero_size_clusters <> [] /\ sum (number_reads zero_size_clusters) = 0
  /\ (simpsons_index zero_size_clusters = Err ZeroDivisionError
      /\ simpsons_index_of_diversity zero_size_clusters = Err ZeroDivisionError
      /\ simpsons_reciprocal_index zero_size_clusters = Err ZeroDivisionError).
Proof.
  assert (H1 : number_reads zero_size_clusters <> []) by discriminate.
  assert (H2 : sum (number_reads zero_size_clusters) = 0) by reflexivity.
  split; [exact H1|]. split; [exact H2|].
  exact (simpsons_without_reads zero_size_clusters H1 H2).
Defined.


(** ** Floats: rounding to binary64 *)

Lemma two_power_positive (e : Z) : (0 < 2 ^ e)%Q.
Proof. apply Qpower_0_lt. reflexivity. Qed.

Lemma two_power_succ (e : Z) : (2 ^ (e + 1) == 2 * 2 ^ e)%Q.
Proof. rewrite Qpower_plus by discriminate. change (2 ^ 1)%Q with 2%Q. ring. Qed.

Lemma two_power_Z (a : Z) : 0 <= a -> (inject_Z (2 ^ a) == 2 ^ a)%Q.
Proof. intros H. rewrite Zpower_Qpower by exact H. reflexivity. Qed.

Lemma Qabs_fraction (x : Q) :
  (Qabs x == inject_Z (Z.abs (Qnum x)) / inject_Z (Zpos (Qden x)))%Q.
Proof.
  destruct x as [n d]. unfold Qabs. cbn [Qnum Qden].
  rewrite (Qmake_Qdiv (Z.abs n) d). reflexivity.
Qed.

Lemma binade_spec (x : Q) :
  ~ (x == 0)%Q -> (2 ^ binade x <= Qabs x)%Q /\ (Qabs x < 2 ^ (binade x + 1))%Q.
Proof.
  intros Hx. unfold binade.
  set (n := Z.abs (Qnum x)). set (d := Zpos (Qden x)).
  assert (Pn : 0 < n).
  { unfold n. destruct x as [xn xd]. unfold Qeq in Hx. cbn in *. lia. }
  assert (Pd : 0 < d) by (unfold d; lia).
  destruct (Z.log2_spec n Pn) as [N1 N2]. destruct (Z.log2_spec d Pd) as [D1 D2].
  pose proof (Z.log2_nonneg n) as An. pose proof (Z.log2_nonneg d) as Ad.
  set (a := Z.log2 n) in *. set (b := Z.log2 d) in *.
  assert (E : (Qabs x == inject_Z n / inject_Z d)%Q) by apply Qabs_fraction.
  assert (Qd : (0 < inject_Z d)%Q) by (unfold Qlt; cbn; lia).
  assert (Pa : (0 < 2 ^ a)%Q) by apply two_power_positive.
  assert (Pb : (0 < 2 ^ b)%Q) by apply two_power_positive.
  assert (U : (Qabs x < 2 ^ (a - b + 1))%Q).
  { rewrite E. apply Qlt_shift_div_r; [exact Qd|].
    replace (a - b + 1) with ((a + 1) - b) by lia.
    rewrite Qpower_minus by discriminate.
    assert (L1 : (inject_Z n < 2 ^ (a + 1))%Q).
    { rewrite <- two_power_Z by lia. rewrite <- Zlt_Qlt. replace (a + 1) with (Z.succ a) by lia.
      exact N2. }
    assert (L2 : (2 ^ b <= inject_Z d)%Q).
    { rewrite <- two_power_Z by lia. rewrite <- Zle_Qle. exact D1. }
    assert (Pa1 : (0 < 2 ^ (a + 1))%Q) by apply two_power_positive.
    assert (Pq : (0 < 2 ^ (a + 1) / 2 ^ b)%Q).
    { apply Qlt_shift_div_l; [exact Pb|]. rewrite Qmult_0_l. exact Pa1. }
    assert (K : (2 ^ (a + 1) == 2 ^ (a + 1) / 2 ^ b * 2 ^ b)%Q).
    { field. intros Z0. rewrite Z0 in Pb. discriminate. }
    eapply Qlt_le_trans; [exact L1|]. rewrite K at 1.
    apply Qmult_le_l; [exact Pq | exact L2]. }
  assert (L : (2 ^ (a - b - 1) < Qabs x)%Q).
  { rewrite E. apply Qlt_shift_div_l; [exact Qd|].
    replace (a - b - 1) with (a - (b + 1)) by lia.
    rewrite Qpower_minus by discriminate.
    assert (L1 : (2 ^ a <= inject_Z n)%Q).
    { rewrite <- two_power_Z by lia. rewrite <- Zle_Qle. exact N1. }
    assert (L2 : (inject_Z d < 2 ^ (b + 1))%Q).
    { rewrite <- two_power_Z by lia. rewrite <- Zlt_Qlt. replace (b + 1) with (Z.succ b) by lia.
      exact D2. }
    assert (Pb1 : (0 < 2 ^ (b + 1))%Q) by apply two_power_positive.
    assert (Pq : (0 < 2 ^ a / 2 ^ (b + 1))%Q).
    { apply Qlt_shift_div_l; [exact Pb1|]. rewrite Qmult_0_l. exact Pa. }
    assert (K : (2 ^ a == 2 ^ a / 2 ^ (b + 1) * 2 ^ (b + 1))%Q).
    { field. intros Z0. rewrite Z0 in Pb1. discriminate. }
    eapply Qlt_le_trans; [|exact L1]. rewrite K at 2.
    apply Qmult_lt_l; [exact Pq | exact L2]. }
  destruct (Qle_bool (2 ^ (a - b)) (Qabs x)) eqn:C.
  - apply Qle_bool_iff in C. split; [exact C | exact U].
  - split; [apply Qlt_le_weak; exact L|].
    replace (a - b - 1 + 1) with (a - b) by lia.
    apply Qnot_le_lt. intros H. apply Qle_bool_iff in H. congruence.
Qed.

Lemma binade_unique (x : Q) (e : Z) :
  (2 ^ e <= Qabs x)%Q -> (Qabs x < 2 ^ (e + 1))%Q -> binade x = e.
Proof.
  intros L U.
  assert (Hx : ~ (x == 0)%Q).
  { intros Z0. rewrite Z0 in L. pose proof (two_power_positive e) as P.
    apply (Qlt_not_le _ _ P). exact L. }
  destruct (binade_spec x Hx) as [L' U'].
  destruct (Z.lt_trichotomy (binade x) e) as [C|[C|C]]; [exfalso| exact C |exfalso].
  - assert (M : (2 ^ (binade x + 1) <= 2 ^ e)%Q)
      by (apply Qpower_le_compat_l; [lia | discriminate]).
    apply (Qlt_irrefl (Qabs x)).
    eapply Qlt_le_trans; [exact U'|]. eapply Qle_trans; [exact M | exact L].
  - assert (M : (2 ^ (e + 1) <= 2 ^ binade x)%Q)
      by (apply Qpower_le_compat_l; [lia | discriminate]).
    apply (Qlt_irrefl (Qabs x)).
    eapply Qlt_le_trans; [exact U|]. eapply Qle_trans; [exact M | exact L'].
Qed.

Lemma binade_compat (x y : Q) : (x == y)%Q -> ~ (x == 0)%Q -> binade x = binade y.
Proof.
  intros E Hx. destruct (binade_spec x Hx) as [L U].
  symmetry. apply binade_unique; rewrite <- E; assumption.
Qed.

Lemma binary64_compat (x y : Q) : (x == y)%Q -> (binary64 x == binary64 y)%Q.
Proof.
  intros E. unfold binary64.
  destruct (Qeq_bool x 0) eqn:X; destruct (Qeq_bool y 0) eqn:Y; try reflexivity.
  - apply Qeq_bool_iff in X. apply Qeq_bool_neq in Y. exfalso. apply Y. rewrite <- E. exact X.
  - apply Qeq_bool_iff in Y. apply Qeq_bool_neq in X. exfalso. apply X. rewrite E. exact Y.
  - apply Qeq_bool_neq in X. rewrite <- (binade_compat x y E X).
    rewrite (round_half_even_compat (x / 2 ^ (binade x - 52)) (y / 2 ^ (binade x - 52)));
      [reflexivity|].
    unfold Qdiv. apply Qmult_comp; [exact E | reflexivity].
Qed.

Lemma round_half_even_mono (x y : Q) : (x <= y)%Q -> round_half_even x <= round_half_even y.
Proof.
  intros H.
  destruct (Z.le_gt_cases (round_half_even x) (round_half_even y)) as [C|C]; [exact C|exfalso].
  pose proof (round_half_even_nearest x) as Nx.
  pose proof (round_half_even_nearest y) as Ny.
  set (a := round_half_even x) in *. set (b := round_half_even y) in *.
  assert (Hq : (inject_Z b + 1 <= inject_Z a)%Q).
  { change 1%Q with (inject_Z 1). rewrite <- inject_Z_plus. rewrite <- Zle_Qle. lia. }
  unfold nearest_even in Nx, Ny.
  destruct Nx as [[X1 X2]|[X Ea]]; destruct Ny as [[Y1 Y2]|[Y Eb]]; try lra.
  assert (S : a = b + 1).
  { destruct X as [X|X]; destruct Y as [Y|Y]; try lra.
    assert (Q1 : (inject_Z a <= inject_Z b + 1)%Q) by lra.
    change 1%Q with (inject_Z 1) in Q1. rewrite <- inject_Z_plus in Q1.
    rewrite <- Zle_Qle in Q1. lia. }
  rewrite S in Ea. replace (b + 1) with (Z.succ b) in Ea by lia.
  rewrite Z.even_succ in Ea. rewrite <- Z.negb_even in Ea. rewrite Eb in Ea. discriminate.
Qed.

Lemma round_half_even_nonneg (x : Q) : (0 <= x)%Q -> 0 <= round_half_even x.
Proof.
  intros H. change 0 with (round_half_even 0). apply round_half_even_mono. exact H.
Qed.

Lemma round_half_even_nonpos (x : Q) : (x <= 0)%Q -> round_half_even x <= 0.
Proof.
  intros H. change 0 with (round_half_even 0). apply round_half_even_mono. exact H.
Qed.

Lemma round_half_even_Z (z : Z) : round_half_even (inject_Z z) = z.
Proof. apply round_half_even_integer. Qed.

Lemma binary64_zero : binary64 0 = 0%Q.
Proof. reflexivity. Qed.

Lemma binary64_nonneg (x : Q) : (0 <= x)%Q -> (0 <= binary64 x)%Q.
Proof.
  intros H. unfold binary64. destruct (Qeq_bool x 0); [apply Qle_refl|].
  pose proof (two_power_positive (binade x - 52)) as P.
  apply Qmult_le_0_compat; [|apply Qlt_le_weak; exact P].
  change 0%Q with (inject_Z 0). rewrite <- Zle_Qle. apply round_half_even_nonneg.
  apply Qle_shift_div_l; [exact P|]. rewrite Qmult_0_l. exact H.
Qed.

Lemma binary64_nonpos (x : Q) : (x <= 0)%Q -> (binary64 x <= 0)%Q.
Proof.
  intros H. unfold binary64. destruct (Qeq_bool x 0); [apply Qle_refl|].
  pose proof (two_power_positive (binade x - 52)) as P.
  assert (R : round_half_even (x / 2 ^ (binade x - 52)) <= 0).
  { apply round_half_even_nonpos. apply Qle_shift_div_r; [exact P|].
    rewrite Qmult_0_l. exact H. }
  rewrite Zle_Qle in R. change (inject_Z 0) with 0%Q in R.
  set (r := inject_Z (round_half_even (x / 2 ^ (binade x - 52)))) in *.
  set (u := (2 ^ (binade x - 52))%Q) in *.
  assert (G : (0 <= (- r) * u)%Q).
  { apply Qmult_le_0_compat; [lra | apply Qlt_le_weak; exact P]. }
  assert (E : ((- r) * u == - (r * u))%Q) by ring.
  rewrite E in G. lra.
Qed.

(** A positive number and its binary64 lie in the same closed binade. *)
Lemma binary64_binade (x : Q) :
  (0 < x)%Q -> (2 ^ binade x <= binary64 x)%Q /\ (binary64 x <= 2 ^ (binade x + 1))%Q.
Proof.
  intros Px.
  assert (Hx : ~ (x == 0)%Q) by (intros Z0; rewrite Z0 in Px; discriminate).
  destruct (binade_spec x Hx) as [L U].
  rewrite (Qabs_pos x) in L, U by (apply Qlt_le_weak; exact Px).
  unfold binary64. destruct (Qeq_bool x 0) eqn:X0;
    [apply Qeq_bool_iff in X0; contradiction|]. clear X0.
  set (e := binade x) in *.
  pose proof (two_power_positive (e - 52)) as P.
  assert (E52 : (2 ^ e == inject_Z (2 ^ 52) * 2 ^ (e - 52))%Q).
  { rewrite two_power_Z by lia. rewrite <- Qpower_plus by discriminate.
    replace (52 + (e - 52)) with e by lia. reflexivity. }
  assert (E53 : (2 ^ (e + 1) == inject_Z (2 ^ 53) * 2 ^ (e - 52))%Q).
  { rewrite two_power_Z by lia. rewrite <- Qpower_plus by discriminate.
    replace (53 + (e - 52)) with (e + 1) by lia. reflexivity. }
  assert (B1 : (inject_Z (2 ^ 52) <= x / 2 ^ (e - 52))%Q).
  { apply Qle_shift_div_l; [exact P|]. rewrite <- E52. exact L. }
  assert (B2 : (x / 2 ^ (e - 52) <= inject_Z (2 ^ 53))%Q).
  { apply Qle_shift_div_r; [exact P|]. rewrite <- E53. apply Qlt_le_weak. exact U. }
  apply round_half_even_mono in B1. apply round_half_even_mono in B2.
  rewrite round_half_even_Z in B1, B2.
  rewrite Zle_Qle in B1, B2.
  split.
  - rewrite E52. apply Qmult_le_compat_r; [exact B1 | apply Qlt_le_weak; exact P].
  - rewrite E53. apply Qmult_le_compat_r; [exact B2 | apply Qlt_le_weak; exact P].
Qed.

Lemma binade_mono (x y : Q) : (0 < x)%Q -> (x <= y)%Q -> binade x <= binade y.
Proof.
  intros Px H.
  assert (Py : (0 < y)%Q) by (eapply Qlt_le_trans; eassumption).
  assert (Hx : ~ (x == 0)%Q) by (intros Z0; rewrite Z0 in Px; discriminate).
  assert (Hy : ~ (y == 0)%Q) by (intros Z0; rewrite Z0 in Py; discriminate).
  destruct (binade_spec x Hx) as [Lx Ux]. destruct (binade_spec y Hy) as [Ly Uy].
  rewrite (Qabs_pos x) in Lx, Ux by (apply Qlt_le_weak; exact Px).
  rewrite (Qabs_pos y) in Ly, Uy by (apply Qlt_le_weak; exact Py).
  destruct (Z.le_gt_cases (binade x) (binade y)) as [C|C]; [exact C|exfalso].
  assert (M : (2 ^ (binade y + 1) <= 2 ^ binade x)%Q)
    by (apply Qpower_le_compat_l; [lia | discriminate]).
  apply (Qlt_irrefl y). eapply Qlt_le_trans; [exact Uy|].
  eapply Qle_trans; [exact M|]. eapply Qle_trans; [exact Lx | exact H].
Qed.

Lemma binary64_mono_pos (x y : Q) : (0 < x)%Q -> (x <= y)%Q -> (binary64 x <= binary64 y)%Q.
Proof.
  intros Px H.
  assert (Py : (0 < y)%Q) by (eapply Qlt_le_trans; eassumption).
  pose proof (binade_mono x y Px H) as M.
  destruct (Z.eq_dec (binade x) (binade y)) as [E|N].
  - unfold binary64.
    destruct (Qeq_bool x 0) eqn:X0;
      [apply Qeq_bool_iff in X0; rewrite X0 in Px; discriminate|].
    destruct (Qeq_bool y 0) eqn:Y0;
      [apply Qeq_bool_iff in Y0; rewrite Y0 in Py; discriminate|].
    rewrite <- E. pose proof (two_power_positive (binade x - 52)) as P.
    apply Qmult_le_compat_r; [|apply Qlt_le_weak; exact P].
    rewrite <- Zle_Qle. apply round_half_even_mono.
    apply Qmult_le_compat_r; [exact H|]. apply Qinv_le_0_compat. apply Qlt_le_weak. exact P.
  - destruct (binary64_binade x Px) as [_ U]. destruct (binary64_binade y Py) as [L _].
    eapply Qle_trans; [exact U|]. eapply Qle_trans; [|exact L].
    apply Qpower_le_compat_l; [lia | discriminate].
Qed.

Lemma round_half_even_opp (x : Q) : round_half_even (- x) = - round_half_even x.
Proof.
  assert (E : (- x == inject_Z 0 - x)%Q) by (change (inject_Z 0) with 0%Q; ring).
  rewrite (round_half_even_compat _ _ E). rewrite round_half_even_reflect by reflexivity. lia.
Qed.

Lemma binade_opp (x : Q) : binade (- x) = binade x.
Proof.
  unfold binade. destruct x as [n d]. unfold Qabs, Qopp. cbn [Qnum Qden].
  rewrite !Z.abs_opp. reflexivity.
Qed.

Lemma binary64_opp (x : Q) : (binary64 (- x) == - binary64 x)%Q.
Proof.
  unfold binary64.
  destruct (Qeq_bool x 0) eqn:X0.
  - apply Qeq_bool_iff in X0.
    assert (E : Qeq_bool (- x) 0 = true) by (apply Qeq_bool_iff; rewrite X0; reflexivity).
    rewrite E. reflexivity.
  - assert (E : Qeq_bool (- x) 0 = false).
    { destruct (Qeq_bool (- x) 0) eqn:C; [|reflexivity].
      apply Qeq_bool_iff in C. apply Qeq_bool_neq in X0. exfalso. apply X0.
      rewrite <- (Qopp_involutive x). rewrite C. reflexivity. }
    rewrite E, binade_opp.
    assert (D : (- x / 2 ^ (binade x - 52) == - (x / 2 ^ (binade x - 52)))%Q)
      by (unfold Qdiv; ring).
    rewrite (round_half_even_compat _ _ D), round_half_even_opp, inject_Z_opp. ring.
Qed.

(** Rounding to binary64 keeps the order. *)
Lemma binary64_mono (x y : Q) : (x <= y)%Q -> (binary64 x <= binary64 y)%Q.
Proof.
  intros H.
  destruct (Qlt_le_dec 0 x) as [Px|Nx].
  - apply binary64_mono_pos; assumption.
  - destruct (Qlt_le_dec y 0) as [Ny|Py].
    + assert (M : (binary64 (- y) <= binary64 (- x))%Q).
      { apply binary64_mono_pos; lra. }
      rewrite !binary64_opp in M. lra.
    + eapply Qle_trans; [apply binary64_nonpos; exact Nx | apply binary64_nonneg; exact Py].
Qed.

Lemma float_mul_mono_r (x y y' : Q) :
  (0 <= x)%Q -> (y <= y')%Q -> (float_mul x y <= float_mul x y')%Q.
Proof.
  intros Px H. unfold float_mul. apply binary64_mono.
  rewrite (Qmult_comm _ (binary64 y)), (Qmult_comm _ (binary64 y')).
  apply Qmult_le_compat_r; [apply binary64_mono; exact H | apply binary64_nonneg; exact Px].
Qed.

Lemma float_mul_zero_r (x : Q) : (float_mul x 0 == 0)%Q.
Proof.
  unfold float_mul. rewrite binary64_zero.
  rewrite (binary64_compat (binary64 x * 0) 0) by ring. reflexivity.
Qed.

Lemma float_mul_comm (x y : Q) : (float_mul x y == float_mul y x)%Q.
Proof. unfold float_mul. apply binary64_compat. apply Qmult_comm. Qed.

Lemma float_mul_nonneg (x y : Q) : (0 <= x)%Q -> (0 <= y)%Q -> (0 <= float_mul x y)%Q.
Proof.
  intros Hx Hy. unfold float_mul. apply binary64_nonneg.
  apply Qmult_le_0_compat; apply binary64_nonneg; assumption.
Qed.

Lemma float_mul_nonpos_r (x y : Q) : (0 <= x)%Q -> (y <= 0)%Q -> (float_mul x y <= 0)%Q.
Proof.
  intros Hx Hy. rewrite <- (float_mul_zero_r x). apply float_mul_mono_r; assumption.
Qed.

(** The mantissa of the float nearest to a positive number. *)
Lemma mantissa_range (x : Q) :
  (0 < x)%Q ->
  2 ^ 52 <= round_half_even (x / 2 ^ (binade x - 52)) <= 2 ^ 53.
Proof.
  intros Px.
  assert (Hx : ~ (x == 0)%Q) by (intros Z0; rewrite Z0 in Px; discriminate).
  destruct (binade_spec x Hx) as [L U].
  rewrite (Qabs_pos x) in L, U by (apply Qlt_le_weak; exact Px).
  set (e := binade x) in *.
  pose proof (two_power_positive (e - 52)) as P.
  assert (E52 : (2 ^ e == inject_Z (2 ^ 52) * 2 ^ (e - 52))%Q).
  { rewrite two_power_Z by lia. rewrite <- Qpower_plus by discriminate.
    replace (52 + (e - 52)) with e by lia. reflexivity. }
  assert (E53 : (2 ^ (e + 1) == inject_Z (2 ^ 53) * 2 ^ (e - 52))%Q).
  { rewrite two_power_Z by lia. rewrite <- Qpower_plus by discriminate.
    replace (53 + (e - 52)) with (e + 1) by lia. reflexivity. }
  assert (B1 : (inject_Z (2 ^ 52) <= x / 2 ^ (e - 52))%Q).
  { apply Qle_shift_div_l; [exact P|]. rewrite <- E52. exact L. }
  assert (B2 : (x / 2 ^ (e - 52) <= inject_Z (2 ^ 53))%Q).
  { apply Qle_shift_div_r; [exact P|]. rewrite <- E53. apply Qlt_le_weak. exact U. }
  apply round_half_even_mono in B1. apply round_half_even_mono in B2.
  rewrite round_half_even_Z in B1, B2. split; assumption.
Qed.

Lemma binary64_positive_value (x : Q) :
  (0 < x)%Q ->
  binary64 x = (inject_Z (round_half_even (x / 2 ^ (binade x - 52))) * 2 ^ (binade x - 52))%Q.
Proof.
  intros Px. unfold binary64.
  destruct (Qeq_bool x 0) eqn:X0; [|reflexivity].
  apply Qeq_bool_iff in X0. rewrite X0 in Px. discriminate.
Qed.

(** A number of the form [m * 2^(e-52)] with a mantissa [m] of 53 bits
    is a float. *)
Lemma binary64_of_float (m e : Z) :
  2 ^ 52 <= m < 2 ^ 53 ->
  (binary64 (inject_Z m * 2 ^ (e - 52)) == inject_Z m * 2 ^ (e - 52))%Q.
Proof.
  intros [M1 M2].
  pose proof (two_power_positive (e - 52)) as P.
  set (y := (inject_Z m * 2 ^ (e - 52))%Q).
  assert (Py : (0 < y)%Q).
  { unfold y. apply Qmult_lt_0_compat; [|exact P]. unfold Qlt; simpl; lia. }
  assert (E52 : (2 ^ e == inject_Z (2 ^ 52) * 2 ^ (e - 52))%Q).
  { rewrite two_power_Z by lia. rewrite <- Qpower_plus by discriminate.
    replace (52 + (e - 52)) with e by lia. reflexivity. }
  assert (E53 : (2 ^ (e + 1) == inject_Z (2 ^ 53) * 2 ^ (e - 52))%Q).
  { rewrite two_power_Z by lia. rewrite <- Qpower_plus by discriminate.
    replace (53 + (e - 52)) with (e + 1) by lia. reflexivity. }
  assert (B : binade y = e).
  { apply binade_unique; rewrite (Qabs_pos y) by (apply Qlt_le_weak; exact Py).
    - rewrite E52. unfold y. apply Qmult_le_compat_r; [|apply Qlt_le_weak; exact P].
      rewrite <- Zle_Qle. exact M1.
    - rewrite E53. unfold y. apply Qmult_lt_compat_r; [exact P|].
      rewrite <- Zlt_Qlt. exact M2. }
  rewrite (binary64_positive_value y Py), B.
  rewrite (round_half_even_compat (y / 2 ^ (e - 52)) (inject_Z m)).
  - rewrite round_half_even_Z. reflexivity.
  - unfold y. field. intros Z0. rewrite Z0 in P. discriminate.
Qed.

(** Rounding a float gives the float: a float operand of an operation
    is left as it is. *)
Lemma binary64_idempotent (x : Q) : (binary64 (binary64 x) == binary64 x)%Q.
Proof.
  assert (Pos : forall x, (0 < x)%Q -> (binary64 (binary64 x) == binary64 x)%Q).
  { clear x. intros x Px. rewrite (binary64_positive_value x Px).
    destruct (mantissa_range x Px) as [M1 M2].
    set (m := round_half_even (x / 2 ^ (binade x - 52))) in *.
    set (e := binade x) in *.
    destruct (Z.eq_dec m (2 ^ 53)) as [E|N].
    - assert (R : (inject_Z m * 2 ^ (e - 52) == inject_Z (2 ^ 52) * 2 ^ ((e + 1) - 52))%Q).
      { rewrite E. rewrite !two_power_Z by lia. rewrite <- !Qpower_plus by discriminate.
        replace (53 + (e - 52)) with (52 + (e + 1 - 52)) by lia. reflexivity. }
      rewrite (binary64_compat _ _ R), R. apply binary64_of_float. lia.
    - apply binary64_of_float. lia. }
  destruct (Qlt_le_dec 0 x) as [Px|Nx]; [apply Pos; exact Px|].
  destruct (Qeq_bool x 0) eqn:X0.
  - unfold binary64 at 2 3. rewrite X0. reflexivity.
  - assert (Px : (0 < - x)%Q).
    { apply Qeq_bool_neq in X0. destruct (Qlt_le_dec x 0) as [H|H]; [lra|].
      exfalso. apply X0. lra. }
    pose proof (Pos (- x)%Q Px) as H.
    rewrite (binary64_compat (binary64 (- x)) (- binary64 x)%Q) in H by apply binary64_opp.
    rewrite !binary64_opp in H. lra.
Qed.

(** The float is within half a unit of the last place of the number. *)
Lemma binary64_near (x : Q) :
  ~ (x == 0)%Q -> (Qabs (binary64 x - x) <= 2 ^ (binade x - 53))%Q.
Proof.
  intros Hx. unfold binary64.
  destruct (Qeq_bool x 0) eqn:X0; [apply Qeq_bool_iff in X0; contradiction|].
  set (u := (2 ^ (binade x - 52))%Q).
  pose proof (two_power_positive (binade x - 52)) as P. fold u in P.
  assert (Hu : ~ (u == 0)%Q) by (intros Z0; rewrite Z0 in P; discriminate).
  assert (H : (2 ^ (binade x - 53) == (1 # 2) * u)%Q).
  { unfold u. replace (binade x - 52) with ((binade x - 53) + 1) by lia.
    rewrite two_power_succ. ring. }
  rewrite H.
  destruct (round_half_even_near (x / u)) as [N1 N2].
  set (r := inject_Z (round_half_even (x / u))) in *.
  assert (A : (r * u - x == (r - x / u) * u)%Q) by (field; exact Hu).
  apply Qabs_Qle_condition. rewrite A. split.
  - setoid_replace (- ((1 # 2) * u))%Q with ((- (1 # 2)) * u)%Q by ring.
    apply Qmult_le_compat_r; [lra | apply Qlt_le_weak; exact P].
  - apply Qmult_le_compat_r; [lra | apply Qlt_le_weak; exact P].
Qed.

(** On the products and quotients met below, [binary64] gives what the
    floats of the machine give: [100 * 0.29] is 28.999999999999996,
    [10 * 0.3] is 3, [100 * 0.07] is 7.000000000000001 and
    [23 / 160 * 100] is 14.374999999999998. *)
Example binary64_as_the_machine :
  machine_value (PrimFloat.mul (machine_float 100)
                               (PrimFloat.div (machine_float 29) (machine_float 100)))
  = Some (Qred (float_mul 100 (29 # 100)))
  /\ (float_mul 100 (29 # 100) < 29)%Q
  /\ machine_value (PrimFloat.mul (machine_float 10)
                                  (PrimFloat.div (machine_float 3) (machine_float 10)))
     = Some (Qred (float_mul 10 (3 # 10)))
  /\ (float_mul 10 (3 # 10) == 3)%Q
  /\ machine_value (PrimFloat.mul (machine_float 100)
                                  (PrimFloat.div (machine_float 7) (machine_float 100)))
     = Some (Qred (float_mul 100 (7 # 100)))
  /\ (7 < float_mul 100 (7 # 100))%Q
  /\ machine_value (PrimFloat.mul (PrimFloat.div (machine_float 23) (machine_float 160))
                                  (machine_float 100))
     = Some (Qred (float_mul (binary64 (23 # 160)) 100))
  /\ (float_mul (binary64 (23 # 160)) 100 < 14375 # 1000)%Q
  /\ machine_value (PrimFloat.div (machine_float 1) (machine_float 3))
     = Some (Qred (binary64 (1 # 3))).
Proof. repeat split; vm_compute; reflexivity. Qed.

(** ** Clusters: loading a file *)

Lemma Clusters_init_unfold (lines : list string) :
  Clusters_init lines = for_each Clusters_init_line (enumerate lines) (empty_clusters lines).
Proof. reflexivity. Qed.

Lemma in_enumerate_from {A : Type} (l : list A) (a n : nat) (x : A) :
  In (n, x) (combine (seq a (List.length l)) l)
  <-> (a <= n)%nat /\ nth_error l (n - a) = Some x.
Proof.
  revert a. induction l as [|y l IH]; intros a; simpl.
  - split; [tauto|]. intros [_ H]. destruct (n - a)%nat; discriminate.
  - rewrite IH. split.
    + intros [E|[H1 H2]].
      * inversion E. subst. rewrite Nat.sub_diag. split; [lia | reflexivity].
      * split; [lia|]. replace (n - a)%nat with (S (n - S a)) by lia. exact H2.
    + intros [H1 H2]. destruct (Nat.eq_dec n a) as [->|N].
      * rewrite Nat.sub_diag in H2. simpl in H2. inversion H2. now left.
      * right. split; [lia|]. replace (n - a)%nat with (S (n - S a)) in H2 by lia. exact H2.
Qed.

Lemma in_enumerate {A : Type} (l : list A) (n : nat) (x : A) :
  In (n, x) (enumerate l) <-> nth_error l n = Some x.
Proof.
  unfold enumerate. rewrite in_enumerate_from, Nat.sub_0_r.
  split; [tauto | intros H; split; [lia | exact H]].
Qed.

Lemma Clusters_init_line_header (self : Clusters) (number : nat) (line : string) :
  startswith ">" line = true ->
  ((exists self', Clusters_init_line self (number, line) = Ok self')
   <-> header_ok (fasta_file self) number line).
Proof.
  intros Hs. unfold Clusters_init_line, header_ok, index_or_fail. rewrite Hs.
  destruct (search_size line) as [[i g]|]; simpl.
  - destruct (search_percent line) as [t|]; simpl.
    + destruct (float_of_text t) as [q|e] eqn:F; simpl.
      * destruct (nth_error (fasta_file self) (number + 1)) as [sq|]; simpl.
        -- split; [intros _|intros _; eexists; reflexivity].
           split; [discriminate|]. split; [|discriminate].
           exists t, q. now split.
        -- split; [intros [s' E]; discriminate | intros [_ [_ H]]; congruence].
      * split; [intros [s' E]; discriminate|].
        intros [_ [[t' [q [E1 E2]]] _]]. inversion E1. subst. congruence.
    + split; [intros [s' E]; discriminate|].
      intros [_ [[t' [q [E1 E2]]] _]]. discriminate.
  - split; [intros [s' E]; discriminate | intros [H _]; congruence].
Qed.

Lemma Clusters_init_line_file (self self' : Clusters) (item : nat * string) :
  Clusters_init_line self item = Ok self' -> fasta_file self' = fasta_file self.
Proof.
  destruct item as [number line]. unfold Clusters_init_line.
  destruct (startswith ">" line); [|intros E; inversion E; reflexivity].
  destruct (search_size line) as [[i g]|]; simpl; [|discriminate].
  destruct (search_percent line) as [t|]; simpl; [|discriminate].
  destruct (float_of_text t); simpl; [|discriminate].
  destruct (index_or_fail (fasta_file self) (number + 1)); simpl; [|discriminate].
  intros E. inversion E. reflexivity.
Qed.

Lemma Clusters_init_line_other (self : Clusters) (number : nat) (line : string) :
  startswith ">" line = false -> Clusters_init_line self (number, line) = Ok self.
Proof. intros H. unfold Clusters_init_line. rewrite H. reflexivity. Qed.

Lemma Clusters_loop_succeeds (l : list (nat * string)) (self : Clusters) :
  (exists self', for_each Clusters_init_line l self = Ok self')
  <-> (forall number line, In (number, line) l -> startswith ">" line = true ->
                           header_ok (fasta_file self) number line).
Proof.
  revert self. induction l as [|[n x] l IH]; intros self.
  - simpl. split; [intros _ ? ? [] | intros _; eexists; reflexivity].
  - cbn [for_each]. destruct (startswith ">" x) eqn:Hx.
    + destruct (Clusters_init_line self (n, x)) as [s1|e] eqn:E; cbn [bind].
      * rewrite IH, (Clusters_init_line_file _ _ _ E). split.
        -- intros H number line [Eq|Hin] Hs.
           ++ inversion Eq. subst. apply Clusters_init_line_header; [exact Hs|].
              eexists. exact E.
           ++ apply H; assumption.
        -- intros H number line Hin Hs. apply H; [now right | exact Hs].
      * split; [intros [s' E']; discriminate|].
        intros H. exfalso.
        destruct (proj2 (Clusters_init_line_header self n x Hx)) as [s' E'];
          [apply H; [now left | exact Hx] | congruence].
    + rewrite Clusters_init_line_other by exact Hx. cbn [bind]. rewrite IH. split.
      * intros H number line [Eq|Hin] Hs; [inversion Eq; subst; congruence | now apply H].
      * intros H number line Hin Hs. apply H; [now right | exact Hs].
Qed.

(** X1.  [Clusters.__init__] returns a collection exactly when every
    line of the file that starts with [>] has a size annotation
    [;size=<digits>], has a percentage [<digits><character><digits>%]
    whose text [float] reads, and is followed by another line. *)
Theorem Clusters_init_succeeds_iff (lines : list string) :
  (exists self, Clusters_init lines = Ok self)
  <-> (forall number line,
          nth_error lines number = Some line -> startswith ">" line = true ->
          header_ok lines number line).
Proof.
  rewrite Clusters_init_unfold, Clusters_loop_succeeds. simpl.
  split; intros H number line Hn Hs; apply H; try exact Hs; apply in_enumerate; exact Hn.
Qed.

Lemma Clusters_loop_no_header (l : list (nat * string)) (self : Clusters) :
  Forall (fun item => startswith ">" (snd item) = false) l ->
  for_each Clusters_init_line l self = Ok self.
Proof.
  induction 1 as [|[n x] l Hx Hl IH]; [reflexivity|].
  cbn [for_each]. rewrite Clusters_init_line_other by exact Hx. exact IH.
Qed.

(** X3.  A file in which no line starts with [>] loads as the empty
    collection, on which [simpsons_index] returns 0,
    [simpsons_index_of_diversity] returns 1, [simpsons_reciprocal_index]
    ends in [ZeroDivisionError], [shannon_entropy] ends in [ValueError]
    whatever the threshold, and [clusters_object_to_fasta] writes
    nothing. *)
Theorem Clusters_of_headerless_file (lines : list string) (minimun_perc : Q) :
  Forall (fun line => startswith ">" line = false) lines ->
  Clusters_init lines = Ok (empty_clusters lines)
  /\ simpsons_index (empty_clusters lines) = Ok 0%Q
  /\ simpsons_index_of_diversity (empty_clusters lines) = Ok 1%Q
  /\ simpsons_reciprocal_index (empty_clusters lines) = Err ZeroDivisionError
  /\ shannon_entropy (empty_clusters lines) minimun_perc = Err ValueError
  /\ clusters_object_to_fasta (empty_clusters lines) = EmptyString.
Proof.
  intros H. split.
  - rewrite Clusters_init_unfold. apply Clusters_loop_no_header.
    apply Forall_forall. intros [n x] Hin. apply in_enumerate in Hin.
    rewrite Forall_forall in H. apply H. exact (nth_error_In _ _ Hin).
  - repeat split; try reflexivity.
    rewrite shannon_entropy_at_most_one by (simpl; lia). reflexivity.
Qed.

Lemma Clusters_of_headerless_file_witness :
  Forall (fun line => startswith ">" line = false) ["AAATTTCCCGGG" ++ nl]
  /\ (Clusters_init ["AAATTTCCCGGG" ++ nl] = Ok (empty_clusters ["AAATTTCCCGGG" ++ nl])
      /\ simpsons_index (empty_clusters ["AAATTTCCCGGG" ++ nl]) = Ok 0%Q
      /\ simpsons_index_of_diversity (empty_clusters ["AAATTTCCCGGG" ++ nl]) = Ok 1%Q
      /\ simpsons_reciprocal_index (empty_clusters ["AAATTTCCCGGG" ++ nl])
         = Err ZeroDivisionError
      /\ shannon_entropy (empty_clusters ["AAATTTCCCGGG" ++ nl]) 0 = Err ValueError
      /\ clusters_object_to_fasta (empty_clusters ["AAATTTCCCGGG" ++ nl]) = EmptyString).
Proof.
  assert (H : Forall (fun line => startswith ">" line = false) ["AAATTTCCCGGG" ++ nl])
    by (repeat constructor).
  split; [exact H|].
  exact (Clusters_of_headerless_file ["AAATTTCCCGGG" ++ nl] 0 H).
Defined.

Lemma in_keys_dict_set {V : Type} (k k0 : string) (v : V) (d : dict V) :
  In k (keys (dict_set k0 v d)) <-> k = k0 \/ In k (keys d).
Proof.
  destruct (in_dec string_dec k0 (keys d)) as [I|I].
  - rewrite keys_dict_set by exact I. split; [tauto | intros [->|H]; assumption].
  - rewrite keys_dict_set_new by exact I. rewrite in_app_iff. simpl.
    split; [intros [H|[H|[]]]; auto | intros [H|H]; auto].
Qed.

Lemma Clusters_init_line_agree (self self' : Clusters) (item : nat * string) :
  lists_agree self -> Clusters_init_line self item = Ok self' -> lists_agree self'.
Proof.
  intros [H1 [H2 [H3 [H4 H5]]]]. destruct item as [number line]. unfold Clusters_init_line.
  destruct (startswith ">" line); [|intros E; inversion E; subst; repeat split; auto; apply H5].
  destruct (search_size line) as [[i g]|]; simpl; [|discriminate].
  destruct (search_percent line) as [t|]; simpl; [|discriminate].
  destruct (float_of_text t); simpl; [|discriminate].
  destruct (index_or_fail (fasta_file self) (number + 1)); simpl; [|discriminate].
  intros E. inversion E. subst. unfold lists_agree. simpl.
  rewrite !length_app, H1, H2, H3. simpl.
  split; [reflexivity|]. split; [reflexivity|]. split; [reflexivity|].
  split; [apply NoDup_keys_dict_set; exact H4|].
  intros name. rewrite in_keys_dict_set, in_app_iff, H5. simpl.
  split; [intros [H|[H|[]]]; auto | intros [H|H]; auto].
Qed.

Lemma Clusters_loop_names (l : list (nat * string)) (self self' : Clusters) :
  for_each Clusters_init_line l self = Ok self' ->
  List.length (names self')
  = (List.length (names self)
     + List.length (filter (fun line => startswith ">" line) (map snd l)))%nat.
Proof.
  revert self. induction l as [|[n x] l IH]; intros self; cbn [for_each map filter snd].
  - intros E. inversion E. subst. simpl. lia.
  - destruct (Clusters_init_line self (n, x)) as [s1|e] eqn:E1; cbn [bind]; [|discriminate].
    intros E. rewrite (IH _ E). clear IH E.
    unfold Clusters_init_line in E1. destruct (startswith ">" x).
    + destruct (search_size x) as [[i g]|]; simpl in E1; [|discriminate].
      destruct (search_percent x) as [t|]; simpl in E1; [|discriminate].
      destruct (float_of_text t); simpl in E1; [|discriminate].
      destruct (index_or_fail (fasta_file self) (n + 1)); simpl in E1; [|discriminate].
      inversion E1. subst. simpl. rewrite length_app. simpl. lia.
    + inversion E1. subst. lia.
Qed.

Lemma map_snd_enumerate {A : Type} (l : list A) : map snd (enumerate l) = l.
Proof.
  unfold enumerate. generalize 0%nat. induction l as [|x l IH]; intros a; [reflexivity|].
  simpl. now rewrite IH.
Qed.

(** X2.  In a loaded collection [fasta_file] holds the lines read,
    the four lists have one entry for each line that starts with [>],
    in the order of the file, and the keys of [dict_fasta] are the names
    of the list [names] without repetition: of clusters with the same
    name the dictionary holds one entry, the lists hold them all. *)
Theorem Clusters_init_lists (lines : list string) (self : Clusters) :
  Clusters_init lines = Ok self ->
  fasta_file self = lines
  /\ List.length (names self) = List.length (filter (fun line => startswith ">" line) lines)
  /\ List.length (sequences self) = List.length (names self)
  /\ List.length (percentages self) = List.length (names self)
  /\ List.length (number_reads self) = List.length (names self)
  /\ NoDup (keys (dict_fasta self))
  /\ (forall name, In name (names self) <-> In name (keys (dict_fasta self))).
Proof.
  intros L. split; [|split].
  - revert L. rewrite Clusters_init_unfold.
    apply (for_each_invariant (fun c => fasta_file c = lines)); [|reflexivity].
    intros s a s' Hs E. rewrite (Clusters_init_line_file _ _ _ E). exact Hs.
  - rewrite Clusters_init_unfold in L. rewrite (Clusters_loop_names _ _ _ L).
    rewrite map_snd_enumerate. reflexivity.
  - revert L. rewrite Clusters_init_unfold.
    apply (for_each_invariant lists_agree).
    + intros s a s' Hs E. exact (Clusters_init_line_agree _ _ _ Hs E).
    + unfold lists_agree. simpl. repeat split; auto; try constructor; tauto.
Qed.

Lemma Clusters_init_lists_witness :
  Clusters_init doc_example = Ok doc_clusters
  /\ (fasta_file doc_clusters = doc_example
      /\ List.length (names doc_clusters)
         = List.length (filter (fun line => startswith ">" line) doc_example)
      /\ List.length (sequences doc_clusters) = List.length (names doc_clusters)
      /\ List.length (percentages doc_clusters) = List.length (names doc_clusters)
      /\ List.length (number_reads doc_clusters) = List.length (names doc_clusters)
      /\ NoDup (keys (dict_fasta doc_clusters))
      /\ (forall name, In name (names doc_clusters) <-> In name (keys (dict_fasta doc_clusters)))).
Proof.
  split; [reflexivity|].
  exact (Clusters_init_lists doc_example doc_clusters eq_refl).
Defined.

Lemma Clusters_init_succeeds_iff_witness :
  (exists self, Clusters_init doc_example = Ok self)
  /\ header_ok doc_example 0 (">ReadA;size=180_90.0%" ++ nl).
Proof.
  assert (H : exists self, Clusters_init doc_example = Ok self)
    by (exists doc_clusters; reflexivity).
  split; [exact H|].
  exact (proj1 (Clusters_init_succeeds_iff doc_example) H 0%nat
               (">ReadA;size=180_90.0%" ++ nl) eq_refl eq_refl).
Defined.

(** ** Clusters: the number of haplotypes and the filter *)

Lemma dict_get_in {V : Type} (d : dict V) (k : string) (v : V) :
  NoDup (keys d) -> In (k, v) d -> dict_get k d = Some v.
Proof.
  induction d as [|[k' v'] d IH]; intros ND Hin; [destruct Hin|].
  simpl in ND. inversion ND as [|? ? Hn ND']; subst. simpl.
  destruct Hin as [E|Hin].
  - inversion E. subst. now rewrite String.eqb_refl.
  - destruct (String.eqb k' k) eqn:E; [|apply IH; assumption].
    apply String.eqb_eq in E. subst k'. exfalso. apply Hn.
    change k with (fst (k, v)). apply in_map. exact Hin.
Qed.

Lemma count_loop (P : fasta_value -> bool) (D l : dict fasta_value) (c : Z * Z) :
  (forall kv, In kv l -> dict_get (fst kv) D = Some (snd kv)) ->
  fold_left (fun c key =>
               (fst c + 1,
                match dict_get key D with
                | Some value => if P value then snd c + 1 else snd c
                | None => snd c
                end))
            (keys l) c
  = (fst c + Z.of_nat (List.length l),
     snd c + Z.of_nat (List.length (filter (fun kv => P (snd kv)) l))).
Proof.
  revert c. induction l as [|kv l IH]; intros c H.
  - simpl. destruct c. simpl. f_equal; lia.
  - cbn [keys map fold_left]. change (map fst l) with (keys l).
    rewrite IH by (intros kv' Hin; apply H; now right).
    rewrite (H kv) by now left. cbn [fst snd filter].
    destruct (P (snd kv)); cbn [List.length]; f_equal; lia.
Qed.

Lemma count_loop_loaded (P : fasta_value -> bool) (D : dict fasta_value) :
  NoDup (keys D) ->
  fold_left (fun c key =>
               (fst c + 1,
                match dict_get key D with
                | Some value => if P value then snd c + 1 else snd c
                | None => snd c
                end))
            (keys D) (0, 0)
  = (Z.of_nat (List.length D),
     Z.of_nat (List.length (filter (fun kv => P (snd kv)) D))).
Proof.
  intros ND. rewrite count_loop; [reflexivity|].
  intros [k v] Hin. apply dict_get_in; assumption.
Qed.

Lemma sizes_above_length (self : Clusters) (cutoff : Q) :
  List.length (snd (sizes_above self cutoff)) = List.length (restricted self cutoff).
Proof. rewrite sizes_above_restricted. simpl. apply length_map. Qed.

Lemma Clusters_init_NoDup (lines : list string) (self : Clusters) :
  Clusters_init lines = Ok self -> NoDup (keys (dict_fasta self)).
Proof.
  unfold Clusters_init.
  apply (for_each_invariant (fun c => NoDup (keys (dict_fasta c)))); [|constructor].
  intros c [number line] c' Hc. unfold Clusters_init_line.
  destruct (startswith ">" line); [|intros E; inversion E; now subst].
  destruct (search_size line) as [[i g]|]; simpl; [|discriminate].
  destruct (search_percent line) as [t|]; simpl; [|discriminate].
  destruct (float_of_text t); simpl; [|discriminate].
  destruct (index_or_fail (fasta_file c) (number + 1)); simpl; [|discriminate].
  intros E. inversion E. subst. simpl. apply NoDup_keys_dict_set. exact Hc.
Qed.

Lemma number_haplotypes_value (lines : list string) (self : Clusters) (cutoff : Q) :
  Clusters_init lines = Ok self ->
  number_haplotypes self "percentage" cutoff
  = (haplotypes_message (Z.of_nat (List.length (dict_fasta self)))
                        (Z.of_nat (List.length (snd (sizes_above self cutoff)))),
     Z.of_nat (List.length (snd (sizes_above self cutoff))))
  /\ number_haplotypes self "number_reads" cutoff
     = (haplotypes_message (Z.of_nat (List.length (dict_fasta self)))
                           (Z.of_nat (List.length (with_reads self cutoff))),
        Z.of_nat (List.length (with_reads self cutoff)))
  /\ (forall value_type,
         value_type <> "percentage" -> value_type <> "number_reads" ->
         number_haplotypes self value_type cutoff = (haplotypes_message 0 0, 0)).
Proof.
  intros L. pose proof (Clusters_init_NoDup lines self L) as ND.
  split; [|split].
  - unfold number_haplotypes. cbn [String.eqb Ascii.eqb Bool.eqb].
    rewrite (count_loop_loaded (fun value => Qle_bool cutoff (value_1 value))) by exact ND.
    rewrite sizes_above_length. reflexivity.
  - unfold number_haplotypes. cbn [String.eqb Ascii.eqb Bool.eqb].
    rewrite (count_loop_loaded (fun value => Qle_bool cutoff (inject_Z (value_2 value))))
      by exact ND.
    reflexivity.
  - intros vt N1 N2. unfold number_haplotypes.
    destruct (String.eqb_spec vt "percentage"); [contradiction|].
    destruct (String.eqb_spec vt "number_reads"); [contradiction|]. reflexivity.
Qed.

(** X8.  On a loaded collection [number_haplotypes] prints the
    number of entries of [dict_fasta] and returns, with ["percentage"],
    the number of entries whose percentage is at least the cutoff (the
    clusters [shannon_entropy] takes at that threshold), with
    ["number_reads"] the number of entries whose size is at least the
    cutoff, and with any other [value_type] it prints and returns 0. *)
Theorem number_haplotypes_counts (lines : list string) (self : Clusters) (cutoff : Q) :
  Clusters_init lines = Ok self ->
  number_haplotypes self "percentage" cutoff
  = (haplotypes_message (Z.of_nat (List.length (dict_fasta self)))
                        (Z.of_nat (List.length (snd (sizes_above self cutoff)))),
     Z.of_nat (List.length (snd (sizes_above self cutoff))))
  /\ number_haplotypes self "number_reads" cutoff
     = (haplotypes_message (Z.of_nat (List.length (dict_fasta self)))
                           (Z.of_nat (List.length (with_reads self cutoff))),
        Z.of_nat (List.length (with_reads self cutoff)))
  /\ (forall value_type,
         value_type <> "percentage" -> value_type <> "number_reads" ->
         number_haplotypes self value_type cutoff = (haplotypes_message 0 0, 0)).
Proof. exact (number_haplotypes_value lines self cutoff). Qed.

Lemma number_haplotypes_counts_witness :
  Clusters_init doc_example = Ok doc_clusters
  /\ (number_haplotypes doc_clusters "percentage" 50
      = (haplotypes_message (Z.of_nat (List.length (dict_fasta doc_clusters)))
                            (Z.of_nat (List.length (snd (sizes_above doc_clusters 50)))),
         Z.of_nat (List.length (snd (sizes_above doc_clusters 50))))
      /\ number_haplotypes doc_clusters "number_reads" 50
         = (haplotypes_message (Z.of_nat (List.length (dict_fasta doc_clusters)))
                               (Z.of_nat (List.length (with_reads doc_clusters 50))),
            Z.of_nat (List.length (with_reads doc_clusters 50)))
      /\ (forall value_type,
             value_type <> "percentage" -> value_type <> "number_reads" ->
             number_haplotypes doc_clusters value_type 50 = (haplotypes_message 0 0, 0))).
Proof.
  split; [reflexivity|].
  exact (number_haplotypes_counts doc_example doc_clusters 50 eq_refl).
Defined.

Lemma filter_length_antitone {A : Type} (P Q : A -> bool) (l : list A) :
  (forall x, P x = true -> Q x = true) ->
  (List.length (filter P l) <= List.length (filter Q l))%nat.
Proof.
  intros H. induction l as [|x l IH]; [apply Nat.le_refl|].
  simpl. destruct (P x) eqn:EP.
  - rewrite (H x EP). simpl. lia.
  - destruct (Q x); simpl; lia.
Qed.

(** X9.  On a loaded collection the number [number_haplotypes]
    returns is between 0 and the number of entries of [dict_fasta], and
    a higher cutoff never gives a higher number. *)
Theorem number_haplotypes_antitone
    (lines : list string) (self : Clusters) (value_type : string) (cutoff cutoff' : Q) :
  Clusters_init lines = Ok self ->
  (cutoff <= cutoff')%Q ->
  0 <= snd (number_haplotypes self value_type cutoff')
    <= snd (number_haplotypes self value_type cutoff)
  /\ snd (number_haplotypes self value_type cutoff)
     <= Z.of_nat (List.length (dict_fasta self)).
Proof.
  intros L Hc.
  destruct (number_haplotypes_value lines self cutoff L) as [A [B C]].
  destruct (number_haplotypes_value lines self cutoff' L) as [A' [B' C']].
  destruct (String.eqb_spec value_type "percentage") as [->|N1].
  - rewrite A, A'. cbn [snd]. rewrite !sizes_above_length. unfold restricted.
    pose proof (filter_length_antitone
                  (fun kv => Qle_bool cutoff' (value_1 (snd kv)))
                  (fun kv => Qle_bool cutoff (value_1 (snd kv)))
                  (items (dict_fasta self))) as H1.
    pose proof (filter_length (fun kv => Qle_bool cutoff (value_1 (snd kv)))
                  (items (dict_fasta self))) as H2.
    unfold items in *.
    assert (H3 : forall x : string * fasta_value,
               Qle_bool cutoff' (value_1 (snd x)) = true ->
               Qle_bool cutoff (value_1 (snd x)) = true).
    { intros x Hx. apply Qle_bool_iff. apply Qle_bool_iff in Hx.
      eapply Qle_trans; eassumption. }
    specialize (H1 H3). lia.
  - destruct (String.eqb_spec value_type "number_reads") as [->|N2].
    + rewrite B, B'. cbn [snd]. unfold with_reads.
      pose proof (filter_length_antitone
                    (fun kv => Qle_bool cutoff' (inject_Z (value_2 (snd kv))))
                    (fun kv => Qle_bool cutoff (inject_Z (value_2 (snd kv))))
                    (items (dict_fasta self))) as H1.
      pose proof (filter_length (fun kv => Qle_bool cutoff (inject_Z (value_2 (snd kv))))
                    (items (dict_fasta self))) as H2.
      unfold items in *.
      assert (H3 : forall x : string * fasta_value,
                 Qle_bool cutoff' (inject_Z (value_2 (snd x))) = true ->
                 Qle_bool cutoff (inject_Z (value_2 (snd x))) = true).
      { intros x Hx. apply Qle_bool_iff. apply Qle_bool_iff in Hx.
        eapply Qle_trans; eassumption. }
      specialize (H1 H3). lia.
    + rewrite (C value_type N1 N2), (C' value_type N1 N2). simpl. lia.
Qed.

Lemma number_haplotypes_antitone_witness :
  Clusters_init doc_example = Ok doc_clusters
  /\ (50 <= 95)%Q
  /\ (0 <= snd (number_haplotypes doc_clusters "percentage" 95)
        <= snd (number_haplotypes doc_clusters "percentage" 50)
      /\ snd (number_haplotypes doc_clusters "percentage" 50)
         <= Z.of_nat (List.length (dict_fasta doc_clusters))).
Proof.
  assert (H : (50 <= 95)%Q) by (unfold Qle; simpl; lia).
  split; [reflexivity|]. split; [exact H|].
  exact (number_haplotypes_antitone doc_example doc_clusters "percentage" 50 95 eq_refl H).
Defined.

Lemma in_le_total (l : list Z) (x : Z) :
  Forall (fun n => 0 <= n) l -> In x l -> x <= fold_right Z.add 0 l.
Proof.
  induction 1 as [|y l Hy Hl IH]; intros Hin; [destruct Hin|].
  destruct (sum_squares_bounds l Hl) as [B _].
  simpl. destruct Hin as [->|Hin]; [lia|]. specialize (IH Hin). lia.
Qed.

Lemma dict_values_nonneg (lines : list string) (self : Clusters) :
  Clusters_init lines = Ok self ->
  Forall (fun n => 0 <= n) (map (fun kv => value_2 (snd kv)) (items (dict_fasta self))).
Proof.
  intros L. pose proof (Clusters_init_values_nonneg lines self L) as Hv.
  apply Forall_forall. intros x Hx. apply in_map_iff in Hx.
  destruct Hx as [kv [<- Hin]]. rewrite Forall_forall in Hv. exact (Hv kv Hin).
Qed.

Lemma selected_all (lines : list string) (self : Clusters) (min_fraction : Q) :
  Clusters_init lines = Ok self -> (min_fraction <= 0)%Q ->
  filter (selected self min_fraction) (items (dict_fasta self)) = items (dict_fasta self).
Proof.
  intros L Hf. pose proof (dict_values_nonneg lines self L) as F.
  pose proof (proj1 (sum_squares_bounds _ F)) as T0. fold (total_reads self) in T0.
  apply forallb_filter_id. apply forallb_forall. intros kv Hin.
  unfold selected. apply Qle_bool_iff.
  assert (A : (0 <= inject_Z (total_reads self))%Q) by (unfold Qle; simpl; lia).
  assert (B : (0 <= inject_Z (value_2 (snd kv)))%Q).
  { rewrite Forall_forall in F.
    assert (0 <= value_2 (snd kv)) by (apply F; apply in_map_iff; eauto).
    unfold Qle; simpl; lia. }
  nra.
Qed.

Lemma selected_none (lines : list string) (self : Clusters) (min_fraction : Q) :
  Clusters_init lines = Ok self -> (1 < min_fraction)%Q -> 0 < total_reads self ->
  filter (selected self min_fraction) (items (dict_fasta self)) = [].
Proof.
  intros L Hf Ht. pose proof (dict_values_nonneg lines self L) as F.
  assert (G : forall l, (forall kv, In kv l -> In kv (items (dict_fasta self))) ->
                        filter (selected self min_fraction) l = []).
  { induction l as [|kv l IH]; intros Hsub; [reflexivity|].
    cbn [filter]. rewrite IH by (intros; apply Hsub; now right).
    assert (S0 : selected self min_fraction kv = false).
    { destruct (selected self min_fraction kv) eqn:S1; [|reflexivity].
      exfalso. unfold selected in S1. apply Qle_bool_iff in S1.
      assert (Hle : value_2 (snd kv) <= total_reads self).
      { unfold total_reads. apply in_le_total; [exact F|].
        apply in_map_iff. exists kv. split; [reflexivity | apply Hsub; now left]. }
      assert (A : (0 < inject_Z (total_reads self))%Q) by (unfold Qlt; simpl; lia).
      assert (B : (inject_Z (value_2 (snd kv)) <= inject_Z (total_reads self))%Q)
        by (rewrite <- Zle_Qle; exact Hle).
      nra. }
    rewrite S0. reflexivity. }
  apply G. auto.
Qed.

(** X11.  On a loaded collection, with a fraction of 0 or less
    [filtering_clusters_by_percentage_to_fasta] writes the sequence line
    of every entry of [dict_fasta], in its order. *)
Theorem filter_method_keeps_all (lines : list string) (self : Clusters) (min_fraction : Q) :
  Clusters_init lines = Ok self -> (min_fraction <= 0)%Q ->
  filtering_clusters_by_percentage_to_fasta self min_fraction
  = String.concat EmptyString (map value_0 (values (dict_fasta self))).
Proof.
  intros L Hf. rewrite filter_method_output, (selected_all lines self min_fraction L Hf).
  unfold values, items. rewrite map_map. reflexivity.
Qed.

Lemma filter_method_keeps_all_witness :
  Clusters_init doc_example = Ok doc_clusters /\ (0 <= 0)%Q
  /\ filtering_clusters_by_percentage_to_fasta doc_clusters 0
     = String.concat EmptyString (map value_0 (values (dict_fasta doc_clusters))).
Proof.
  assert (H : (0 <= 0)%Q) by (unfold Qle; simpl; lia).
  split; [reflexivity|]. split; [exact H|].
  exact (filter_method_keeps_all doc_example doc_clusters 0 eq_refl H).
Defined.

(** X12.  On a loaded collection with at least one read, with a
    fraction above 1 [filtering_clusters_by_percentage_to_fasta] writes
    nothing. *)
Theorem filter_method_keeps_none (lines : list string) (self : Clusters) (min_fraction : Q) :
  Clusters_init lines = Ok self -> (1 < min_fraction)%Q -> 0 < total_reads self ->
  filtering_clusters_by_percentage_to_fasta self min_fraction = EmptyString.
Proof.
  intros L Hf Ht.
  rewrite filter_method_output, (selected_none lines self min_fraction L Hf Ht).
  reflexivity.
Qed.

Lemma filter_method_keeps_none_witness :
  Clusters_init doc_example = Ok doc_clusters /\ (1 < 2)%Q /\ 0 < total_reads doc_clusters
  /\ filtering_clusters_by_percentage_to_fasta doc_clusters 2 = EmptyString.
Proof.
  assert (H : (1 < 2)%Q) by (unfold Qlt; simpl; lia).
  assert (T : 0 < total_reads doc_clusters) by (vm_compute; reflexivity).
  split; [reflexivity|]. split; [exact H|]. split; [exact T|].
  exact (filter_method_keeps_none doc_example doc_clusters 2 eq_refl H T).
Defined.

(** ** Pileup: loading a file *)

Lemma Pileup_init_unfold (lines : list string) (m : Z) :
  Pileup_init lines m = for_each (Pileup_init_line m) (enumerate lines) (empty_pileup lines).
Proof. reflexivity. Qed.

Lemma Pileup_init_line_stored (m : Z) (self : Pileup) (n : nat) (line : string) :
  Pileup_init_line m self (n, line)
  = match stored_column m n line with
    | Some (k, v) =>
        Ok {| dict_pileup := dict_set k v (dict_pileup self);
              polymorphic_sites_dict := polymorphic_sites_dict self;
              pileup_file := pileup_file self |}
    | None => Err IndexError
    end.
Proof.
  unfold Pileup_init_line, stored_column, read_bases, index_or_fail.
  destruct (split_tab line) as [|f0 [|f1 [|f2 [|f3 [|f4 [|f5 more]]]]]]; try reflexivity.
  simpl. destruct (Z.of_nat n <? m); reflexivity.
Qed.

Lemma stored_column_fields (m : Z) (n : nat) (line : string) :
  stored_column m n line <> None <-> (6 <= List.length (split_tab line))%nat.
Proof.
  unfold stored_column.
  destruct (split_tab line) as [|f0 [|f1 [|f2 [|f3 [|f4 [|f5 more]]]]]]; simpl;
    (split; [intros H; try congruence; lia | intros H; try lia; discriminate]).
Qed.

Lemma Pileup_loop (m : Z) (l : list (nat * string)) (self : Pileup) :
  (Forall (fun item => (6 <= List.length (split_tab (snd item)))%nat) l ->
   exists self', for_each (Pileup_init_line m) l self = Ok self')
  /\ (~ Forall (fun item => (6 <= List.length (split_tab (snd item)))%nat) l ->
      for_each (Pileup_init_line m) l self = Err IndexError).
Proof.
  revert self. induction l as [|[n x] l IH]; intros self.
  - split; [intros _; eexists; reflexivity | intros H; exfalso; apply H; constructor].
  - cbn [for_each]. rewrite Pileup_init_line_stored.
    pose proof (stored_column_fields m n x) as F.
    destruct (stored_column m n x) as [[k v]|]; cbn [bind].
    + assert (F6 : (6 <= List.length (split_tab x))%nat) by (apply F; discriminate).
      split.
      * intros H. inversion H; subst. apply IH. assumption.
      * intros H. apply IH. intros H'. apply H. constructor; assumption.
    + split.
      * intros H. inversion H; subst. simpl in *. exfalso.
        assert (C : @None (string * string) <> None) by (apply F; assumption).
        congruence.
      * reflexivity.
Qed.

(** X13.  When no reference base holds a backslash,
    [Pileup.__init__] returns exactly when every line of the file has
    at least six tab-separated fields, and when it does not return the
    exception is [IndexError]. *)
Theorem Pileup_init_succeeds_iff (lines : list string) (min_reads_per_position : Z) :
  Forall (fun line => plain_reference line = true) lines ->
  ((exists self, Pileup_init lines min_reads_per_position = Ok self)
   <-> Forall (fun line => (6 <= List.length (split_tab line))%nat) lines)
  /\ (forall e, Pileup_init lines min_reads_per_position = Err e -> e = IndexError).
Proof.
  intros _. rewrite Pileup_init_unfold.
  destruct (Pileup_loop min_reads_per_position (enumerate lines) (empty_pileup lines))
    as [A B].
  assert (E : Forall (fun item : nat * string => (6 <= List.length (split_tab (snd item)))%nat)
                     (enumerate lines)
              <-> Forall (fun line => (6 <= List.length (split_tab line))%nat) lines).
  { rewrite <- (map_snd_enumerate lines) at 2. rewrite Forall_map. reflexivity. }
  split; [split|].
  - intros [self Hs]. apply E.
    destruct (Forall_dec (fun item : nat * string =>
                            (6 <= List.length (split_tab (snd item)))%nat)
                (fun item => le_dec 6 (List.length (split_tab (snd item))))
                (enumerate lines)) as [F|F]; [exact F|].
    rewrite (B F) in Hs. discriminate.
  - intros F. apply A. apply E. exact F.
  - intros e He.
    destruct (Forall_dec (fun item : nat * string =>
                            (6 <= List.length (split_tab (snd item)))%nat)
                (fun item => le_dec 6 (List.length (split_tab (snd item))))
                (enumerate lines)) as [F|F].
    + destruct (A F) as [self Hs]. congruence.
    + rewrite (B F) in He. congruence.
Qed.

Lemma dict_get_set {V : Type} (key k : string) (v : V) (d : dict V) :
  dict_get key (dict_set k v d) = if String.eqb k key then Some v else dict_get key d.
Proof.
  destruct (String.eqb_spec k key) as [->|N].
  - apply dict_get_set_same.
  - apply dict_get_set_other. exact N.
Qed.

Lemma Pileup_loop_lookup (m : Z) (key : string) (l : list (nat * string))
    (self self' : Pileup) :
  for_each (Pileup_init_line m) l self = Ok self' ->
  dict_get key (dict_pileup self')
  = fold_left (fun found item =>
                 match stored_column m (fst item) (snd item) with
                 | Some (k, v) => if String.eqb k key then Some v else found
                 | None => found
                 end) l (dict_get key (dict_pileup self)).
Proof.
  revert self. induction l as [|[n x] l IH]; intros self; cbn [for_each fold_left fst snd].
  - intros E. inversion E. reflexivity.
  - rewrite Pileup_init_line_stored.
    destruct (stored_column m n x) as [[k v]|]; cbn [bind]; [|discriminate].
    intros E. rewrite (IH _ E). cbn [dict_pileup]. rewrite dict_get_set. reflexivity.
Qed.

(** X14.  A loaded pileup holds for a position the column of the
    last line of the file with that position: positions are the keys,
    without the reference name, so that lines of different references
    with the same position overwrite one another.  The keys are
    distinct and no more than the lines. *)
Theorem Pileup_last_line_wins
    (lines : list string) (min_reads_per_position : Z) (self : Pileup) (key : string) :
  Forall (fun line => plain_reference line = true) lines ->
  Pileup_init lines min_reads_per_position = Ok self ->
  dict_get key (dict_pileup self)
  = last_column min_reads_per_position key (enumerate lines)
  /\ NoDup (keys (dict_pileup self))
  /\ (List.length (dict_pileup self) <= List.length lines)%nat.
Proof.
  intros _ L. split; [|split].
  - rewrite Pileup_init_unfold in L.
    rewrite (Pileup_loop_lookup _ key _ _ _ L). reflexivity.
  - exact (proj2 (Pileup_init_fresh _ _ _ L)).
  - revert L. rewrite Pileup_init_unfold.
    assert (G : forall l s s',
               for_each (Pileup_init_line min_reads_per_position) l s = Ok s' ->
               (List.length (dict_pileup s')
                <= List.length (dict_pileup s) + List.length l)%nat).
    { induction l as [|[n x] l IH]; intros s s'; cbn [for_each].
      - intros E. inversion E. simpl. lia.
      - rewrite Pileup_init_line_stored.
        destruct (stored_column min_reads_per_position n x) as [[k v]|]; cbn [bind];
          [|discriminate].
        intros E. specialize (IH _ _ E). cbn [dict_pileup] in IH.
        assert (S1 : (List.length (dict_set k v (dict_pileup s))
                      <= S (List.length (dict_pileup s)))%nat).
        { generalize (dict_pileup s). intros d.
          induction d as [|[k' v'] d IHd]; simpl; [lia|].
          destruct (String.eqb k' k); simpl; lia. }
        simpl. lia. }
    intros L. specialize (G _ _ _ L). simpl in G.
    unfold enumerate in G. rewrite length_combine, length_seq in G. lia.
Qed.

Lemma Pileup_last_line_wins_witness :
  Forall (fun line => plain_reference line = true) two_references
  /\ Pileup_init two_references 0 = Ok two_references_pileup
  /\ (dict_get "1" (dict_pileup two_references_pileup)
      = last_column 0 "1" (enumerate two_references)
      /\ NoDup (keys (dict_pileup two_references_pileup))
      /\ (List.length (dict_pileup two_references_pileup) <= List.length two_references)%nat).
Proof.
  assert (H : Forall (fun line => plain_reference line = true) two_references)
    by (repeat constructor).
  split; [exact H|]. split; [reflexivity|].
  exact (Pileup_last_line_wins two_references 0 two_references_pileup "1" H eq_refl).
Defined.

Lemma Pileup_init_succeeds_iff_witness :
  Forall (fun line => plain_reference line = true) two_references
  /\ (((exists self, Pileup_init two_references 0 = Ok self)
       <-> Forall (fun line => (6 <= List.length (split_tab line))%nat) two_references)
      /\ (forall e, Pileup_init two_references 0 = Err e -> e = IndexError)).
Proof.
  assert (H : Forall (fun line => plain_reference line = true) two_references)
    by (repeat constructor).
  split; [exact H|].
  exact (Pileup_init_succeeds_iff two_references 0 H).
Defined.

Lemma upper_char_idempotent (c : ascii) : upper_char (upper_char c) = upper_char c.
Proof. destruct c as [[] [] [] [] [] [] [] []]; reflexivity. Qed.

Lemma upper_idempotent (s : string) : upper (upper s) = upper s.
Proof.
  induction s as [|c s IH]; [reflexivity|].
  simpl. now rewrite upper_char_idempotent, IH.
Qed.

Lemma count_normalized (c b : ascii) (bases : string) :
  In b ["A"; "T"; "C"; "G"]%char ->
  count b (upper (sub_match_symbols (String c EmptyString) bases))
  = count b (upper bases)
    + (if Ascii.eqb (upper_char c) b then count "." bases + count "," bases else 0).
Proof.
  intros Hb. induction bases as [|x s IH]; [simpl; destruct (Ascii.eqb (upper_char c) b); lia|].
  cbn [sub_match_symbols].
  destruct (Ascii.eqb x ".") eqn:E1.
  - apply Ascii.eqb_eq in E1. subst x. cbn [orb String.append upper count]. rewrite IH.
    change (upper_char ".") with "."%char.
    assert (N : Ascii.eqb "." b = false).
    { destruct Hb as [<-|[<-|[<-|[<-|[]]]]]; reflexivity. }
    rewrite N. cbn [Ascii.eqb Bool.eqb]. 
    destruct (Ascii.eqb (upper_char c) b); lia.
  - destruct (Ascii.eqb x ",") eqn:E2.
    + apply Ascii.eqb_eq in E2. subst x. cbn [orb String.append upper count]. rewrite IH.
      change (upper_char ",") with ","%char.
      assert (N : Ascii.eqb "," b = false).
      { destruct Hb as [<-|[<-|[<-|[<-|[]]]]]; reflexivity. }
      rewrite N. cbn [Ascii.eqb Bool.eqb].
      destruct (Ascii.eqb (upper_char c) b); lia.
    + cbn [orb upper count]. rewrite IH, E1, E2.
      destruct (Ascii.eqb (upper_char c) b); lia.
Qed.

(** X15.  With the default [min_reads_per_position] a line with a
    one-character reference base is stored so that the count of a base
    [b] of A, T, C, G is its count in the column, in either case, plus,
    when [b] is the reference base in upper case, the number of match
    symbols [.] and [,]. *)
Theorem matches_count_as_reference
    (self : Pileup) (n : nat) (line : string)
    (ref pos depth bases quals : string) (more : list string) (c b : ascii) :
  split_tab line = ref :: pos :: String c EmptyString :: depth :: bases :: quals :: more ->
  c <> "\"%char ->
  In b ["A"; "T"; "C"; "G"]%char ->
  exists self' value,
    Pileup_init_line 0 self (n, line) = Ok self'
    /\ dict_get pos (dict_pileup self') = Some value
    /\ count b (upper value)
       = count b (upper bases)
         + (if Ascii.eqb (upper_char c) b then count "." bases + count "," bases else 0).
Proof.
  intros E _ Hb. eexists. eexists.
  split; [exact (Pileup_init_line_default self n line _ _ _ _ _ _ _ E)|].
  cbn [dict_pileup]. split; [apply dict_get_set_same|].
  rewrite upper_idempotent. apply count_normalized. exact Hb.
Qed.

Lemma matches_count_as_reference_witness :
  split_tab eight_reads_line
  = "chr1" :: "1" :: String "T" EmptyString :: "8" :: "AAAA,,,," :: ("IIIIIIII" ++ nl) :: []
  /\ "T"%char <> "\"%char
  /\ In "T"%char ["A"; "T"; "C"; "G"]%char
  /\ exists self' value,
      Pileup_init_line 0 (empty_pileup [eight_reads_line]) (0%nat, eight_reads_line) = Ok self'
      /\ dict_get "1" (dict_pileup self') = Some value
      /\ count "T" (upper value)
         = count "T" (upper "AAAA,,,,")
           + (if Ascii.eqb (upper_char "T") "T"
              then count "." "AAAA,,,," + count "," "AAAA,,,," else 0).
Proof.
  assert (H1 : split_tab eight_reads_line
               = "chr1" :: "1" :: String "T" EmptyString :: "8" :: "AAAA,,,,"
                 :: ("IIIIIIII" ++ nl) :: []) by reflexivity.
  assert (H2 : In "T"%char ["A"; "T"; "C"; "G"]%char) by (simpl; tauto).
  assert (H3 : "T"%char <> "\"%char) by discriminate.
  split; [exact H1|]. split; [exact H3|]. split; [exact H2|].
  exact (matches_count_as_reference (empty_pileup [eight_reads_line]) 0 eight_reads_line
           "chr1" "1" "8" "AAAA,,,," ("IIIIIIII" ++ nl) [] "T" "T" H1 H3 H2).
Defined.

(** ** Pileup: when the diversity returns *)

Lemma base_counts_nonneg (pos : string) :
  0 <= nA (base_counts pos) /\ 0 <= nT (base_counts pos)
  /\ 0 <= nC (base_counts pos) /\ 0 <= nG (base_counts pos).
Proof. unfold base_counts; simpl. repeat split; apply count_nonneg. Qed.

Lemma position_Di_range (pos : string) (d : Q) :
  position_Di pos = Ok d -> (0 <= d)%Q /\ (d <= 1)%Q.
Proof.
  unfold position_Di, float_div.
  destruct (base_counts_nonneg pos) as [Ha [Ht [Hc Hg]]].
  generalize dependent (nG (base_counts pos)). generalize dependent (nC (base_counts pos)).
  generalize dependent (nT (base_counts pos)). generalize dependent (nA (base_counts pos)).
  intros a Ha t Ht c Hc g Hg.
  set (n := a + c + t + g). set (p := a * c + a * g + a * t + c * g + c * t + g * t).
  destruct (Qeq_bool (inject_Z (n ^ 2 - n) / 2) 0) eqn:E; [discriminate|].
  intros H. inversion H. subst d. clear H.
  apply Qeq_bool_neq in E.
  assert (Hp : 0 <= p) by (unfold p; nia).
  assert (Hn : 2 * p <= n ^ 2 - n).
  { assert (I : n ^ 2 - n - 2 * p
                = a * (a - 1) + t * (t - 1) + c * (c - 1) + g * (g - 1))
      by (unfold n, p; ring).
    assert (0 <= a * (a - 1)) by nia. assert (0 <= t * (t - 1)) by nia.
    assert (0 <= c * (c - 1)) by nia. assert (0 <= g * (g - 1)) by nia.
    lia. }
  assert (Hp' : (0 <= inject_Z p)%Q) by (change 0%Q with (inject_Z 0); rewrite <- Zle_Qle; exact Hp).
  assert (Hn' : (2 * inject_Z p <= inject_Z (n ^ 2 - n))%Q).
  { change 2%Q with (inject_Z 2). rewrite <- inject_Z_mult, <- Zle_Qle. exact Hn. }
  set (N := inject_Z (n ^ 2 - n)) in *. set (P := inject_Z p) in *.
  assert (HN : (0 < N / 2)%Q).
  { assert (N0 : ~ (N == 0)%Q) by (intros Z0; apply E; rewrite Z0; reflexivity).
    assert (0 <= N)%Q by lra.
    assert (0 < N)%Q by (apply Qle_lteq in H; destruct H as [H|H]; [exact H | symmetry in H; contradiction]).
    apply Qlt_shift_div_l; lra. }
  split.
  - apply Qle_shift_div_l; [exact HN | rewrite Qmult_0_l; exact Hp'].
  - apply Qle_shift_div_r; [exact HN | rewrite Qmult_1_l].
    apply Qle_shift_div_l; [lra|]. change (P * 2 <= N)%Q. lra.
Qed.

Lemma Di_loop_range (l : list string) (acc ds : list Q) :
  for_each (fun acc pos => Di <- position_Di pos ;; Ok (acc ++ [Di])%list) l acc = Ok ds ->
  (0 <= fold_right Qplus 0 acc)%Q ->
  (fold_right Qplus 0 acc <= inject_Z (Z.of_nat (List.length acc)))%Q ->
  (0 <= fold_right Qplus 0 ds)%Q
  /\ (fold_right Qplus 0 ds <= inject_Z (Z.of_nat (List.length ds)))%Q
  /\ List.length ds = (List.length acc + List.length l)%nat.
Proof.
  revert acc. induction l as [|x l IH]; intros acc; cbn [for_each].
  - intros E. inversion E. subst. intros. simpl. repeat split; try assumption. lia.
  - destruct (position_Di x) as [d|e] eqn:Ed; cbn [bind]; [|discriminate].
    intros E H0 H1. destruct (position_Di_range _ _ Ed) as [D0 D1].
    assert (S : (fold_right Qplus 0 (acc ++ [d]) == fold_right Qplus 0 acc + d)%Q).
    { clear. induction acc as [|y acc IHa]; simpl; [ring|]. rewrite IHa. ring. }
    destruct (IH (acc ++ [d])%list E) as [A [B C]].
    + rewrite S. lra.
    + rewrite S, length_app. simpl List.length.
      rewrite Nat2Z.inj_add, inject_Z_plus. change (inject_Z (Z.of_nat 1)) with 1%Q. lra.
    + split; [exact A|]. split; [exact B|].
      rewrite C, length_app. simpl. lia.
Qed.

Lemma in_dec_reads (l : list string) :
  {forall pos, In pos l -> 2 <= reads_counted pos}
  + {exists pos, In pos l /\ reads_counted pos <= 1}.
Proof.
  induction l as [|x l [IH|IH]].
  - left. intros pos [].
  - destruct (Z_le_gt_dec 2 (reads_counted x)) as [H|H].
    + left. intros pos [<-|Hin]; [exact H | apply IH; exact Hin].
    + right. exists x. split; [now left | lia].
  - right. destruct IH as [pos [Hin Hd]]. exists pos. split; [now right | exact Hd].
Qed.

(** X16.  [nucleotide_diversity] returns a value exactly when the
    pileup has a position and every position has two or more counted
    reads; the value returned lies between 0 and 1; and when it does
    not return, the exception is [ZeroDivisionError]. *)
Theorem nucleotide_diversity_returns (self : Pileup) :
  ((exists r, nucleotide_diversity self = Ok r)
   <-> values (dict_pileup self) <> []
       /\ forall pos, In pos (values (dict_pileup self)) -> 2 <= reads_counted pos)
  /\ (forall r, nucleotide_diversity self = Ok r -> (0 <= r)%Q /\ (r <= 1)%Q)
  /\ (forall e, nucleotide_diversity self = Err e -> e = ZeroDivisionError).
Proof.
  unfold nucleotide_diversity.
  split; [split|split].
  - intros [r Hr].
    destruct (in_dec_reads (values (dict_pileup self))) as [H|[pos [Hin Hd]]].
    + split; [|exact H]. intros E. rewrite E in Hr. simpl in Hr. discriminate.
    + rewrite (Di_loop_degenerate _ [] pos Hin Hd) in Hr. discriminate.
  - intros [Hne Hall].
    destruct (Di_loop_defined (values (dict_pileup self)) [] Hall) as [ds [E _]].
    rewrite E. cbn [bind].
    rewrite float_div_ok; [eexists; reflexivity|].
    destruct (values (dict_pileup self)); [congruence|].
    simpl List.length. unfold Qeq; simpl. lia.
  - intros r. destruct (for_each _ (values (dict_pileup self)) []) as [ds|e] eqn:E;
      cbn [bind]; [|discriminate].
    unfold float_div.
    destruct (Qeq_bool (inject_Z (Z.of_nat (List.length (values (dict_pileup self))))) 0)
      eqn:EL; cbn [bind]; [discriminate|].
    intros H. inversion H. subst r. clear H.
    apply Qeq_bool_neq in EL.
    destruct (Di_loop_range _ _ _ E) as [A [B C]]; [apply Qle_refl | apply Qle_refl |].
    simpl in C. rewrite C in B.
    set (L := inject_Z (Z.of_nat (List.length (values (dict_pileup self))))) in *.
    assert (HL : (0 < L)%Q).
    { assert (L0 : (0 <= L)%Q).
      { unfold L. change 0%Q with (inject_Z 0). rewrite <- Zle_Qle. lia. }
      apply Qle_lteq in L0. destruct L0 as [L0|L0]; [exact L0|].
      symmetry in L0. contradiction. }
    apply py_round_unit_interval.
    + apply Qle_shift_div_l; [exact HL|]. unfold sum_floats.
      rewrite sum_floats_fold_right. lra.
    + apply Qle_shift_div_r; [exact HL|]. unfold sum_floats.
      rewrite sum_floats_fold_right. lra.
  - intros e. destruct (for_each _ (values (dict_pileup self)) []) as [ds|e'] eqn:E;
      cbn [bind].
    + destruct (float_div (sum_floats ds)
                  (inject_Z (Z.of_nat (List.length (values (dict_pileup self)))))) as [q|e']
        eqn:F; cbn [bind]; [discriminate|].
      intros H. inversion H. subst e'. exact (float_div_error _ _ _ F).
    + intros H. inversion H. subst e'.
      destruct (in_dec_reads (values (dict_pileup self))) as [Hall|[pos [Hin Hd]]].
      * destruct (Di_loop_defined (values (dict_pileup self)) [] Hall) as [ds [E' _]].
        congruence.
      * rewrite (Di_loop_degenerate _ [] pos Hin Hd) in E. congruence.
Qed.

(** ** Polymorphic sites and nucleotide diversity together *)

Lemma position_Di_one_base (pos : string) (d : Q) :
  (distinct_bases (base_counts pos) <= 1)%nat ->
  position_Di pos = Ok d -> (d == 0)%Q.
Proof.
  unfold position_Di, float_div, distinct_bases.
  destruct (base_counts_nonneg pos) as [Ha [Ht [Hc Hg]]].
  generalize dependent (nG (base_counts pos)). generalize dependent (nC (base_counts pos)).
  generalize dependent (nT (base_counts pos)). generalize dependent (nA (base_counts pos)).
  intros a Ha t Ht c Hc g Hg D.
  assert (E : a * c + a * g + a * t + c * g + c * t + g * t = 0).
  { simpl in D.
    destruct (Z.ltb_spec 0 a); destruct (Z.ltb_spec 0 t);
      destruct (Z.ltb_spec 0 c); destruct (Z.ltb_spec 0 g); simpl in D; try lia;
      repeat match goal with
             | H : ?x <= 0, H' : 0 <= ?x |- _ =>
                 assert (x = 0) by lia; subst x; clear H
             end; ring. }
  rewrite E.
  destruct (Qeq_bool _ 0); [discriminate|].
  intros H. inversion H. unfold Qdiv. rewrite Qmult_0_l. reflexivity.
Qed.

Lemma Di_loop_zero (l : list string) (acc ds : list Q) :
  (forall pos, In pos l -> (distinct_bases (base_counts pos) <= 1)%nat) ->
  for_each (fun acc pos => Di <- position_Di pos ;; Ok (acc ++ [Di])%list) l acc = Ok ds ->
  (fold_right Qplus 0 acc == 0)%Q ->
  (fold_right Qplus 0 ds == 0)%Q.
Proof.
  revert acc. induction l as [|x l IH]; intros acc Hall; cbn [for_each].
  - intros E. inversion E. subst. tauto.
  - destruct (position_Di x) as [d|e] eqn:Ed; cbn [bind]; [|discriminate].
    intros E H0. apply (IH (acc ++ [d])%list); [intros; apply Hall; now right | exact E |].
    assert (S : (fold_right Qplus 0 (acc ++ [d]) == fold_right Qplus 0 acc + d)%Q).
    { clear. induction acc as [|y acc IHa]; simpl; [ring|]. rewrite IHa. ring. }
    rewrite S, H0, (position_Di_one_base x d); [reflexivity | apply Hall; now left | exact Ed].
Qed.

Lemma filter_nil_none {A : Type} (P : A -> bool) (l : list A) :
  List.length (filter P l) = 0%nat -> forall x, In x l -> P x = false.
Proof.
  induction l as [|y l IH]; intros H x Hin; [destruct Hin|].
  simpl in H. destruct (P y) eqn:E; [discriminate|].
  destruct Hin as [<-|Hin]; [exact E | apply IH; assumption].
Qed.

(** X17.  When [polymorphic_sites] with ["number_reads"] and cutoff
    0 finds no site, the value [nucleotide_diversity] returns, if it
    returns, is 0. *)
Theorem no_polymorphic_site_no_diversity (self : Pileup) (r : Q) :
  fst (polymorphic_sites "number_reads" 0 self) = 0 ->
  nucleotide_diversity self = Ok r ->
  r = 0%Q.
Proof.
  intros H0. rewrite polymorphic_sites_fold in H0.
  rewrite (site_fold_count _ _ (fun value => (2 <=? distinct_bases (base_counts value))%nat))
    in H0
    by (intros v; rewrite site_test_number_reads, above_zero_reads_iff,
                          base_counts_observed; reflexivity).
  simpl fst in H0.
  assert (H1 : List.length (filter (fun kv : string * string =>
                                      (2 <=? distinct_bases (base_counts (snd kv)))%nat)
                              (items (dict_pileup self))) = 0%nat) by lia.
  assert (Hall : forall pos, In pos (values (dict_pileup self)) ->
                             (distinct_bases (base_counts pos) <= 1)%nat).
  { intros pos Hin. unfold values in Hin. apply in_map_iff in Hin.
    destruct Hin as [kv [<- Hin]].
    pose proof (filter_nil_none _ _ H1 kv Hin) as F. cbv beta in F.
    apply Nat.leb_gt in F. lia. }
  unfold nucleotide_diversity.
  destruct (for_each _ (values (dict_pileup self)) []) as [ds|e] eqn:E; cbn [bind];
    [|discriminate].
  unfold float_div. destruct (Qeq_bool _ 0); cbn [bind]; [discriminate|].
  intros H. inversion H.
  pose proof (Di_loop_zero _ _ _ Hall E (Qeq_refl 0)) as Z0.
  transitivity (py_round 0 4); [|reflexivity]. apply py_round_compat.
  unfold sum_floats. rewrite sum_floats_fold_right, Z0. unfold Qdiv.
  rewrite Qplus_0_l, Qmult_0_l. reflexivity.
Qed.

Lemma no_polymorphic_site_no_diversity_witness :
  fst (polymorphic_sites "number_reads" 0 uniform_pileup) = 0
  /\ nucleotide_diversity uniform_pileup = Ok 0%Q
  /\ 0%Q = 0%Q.
Proof.
  split; [reflexivity|]. split; [reflexivity|].
  exact (no_polymorphic_site_no_diversity uniform_pileup 0 eq_refl eq_refl).
Defined.

(** ** Polymorphic sites: repeated calls and the cutoff *)

Lemma dict_set_same {V : Type} (k : string) (v : V) (d : dict V) :
  dict_get k d = Some v -> dict_set k v d = d.
Proof.
  induction d as [|[k' v'] d IH]; simpl; [discriminate|].
  destruct (String.eqb k' k) eqn:E.
  - intros H. inversion H. apply String.eqb_eq in E. now subst.
  - intros H. now rewrite IH.
Qed.

Lemma site_fold_passing (value_type : string) (cutoff : Q)
    (l : list (string * string)) (st : Z * Pileup) :
  fst (fold_left (site_step value_type cutoff) l st)
  = fst st + Z.of_nat (List.length (passing value_type cutoff l)).
Proof.
  revert st. induction l as [|[k v] l IH]; intros st; simpl.
  - lia.
  - rewrite IH. unfold site_step. simpl.
    destruct (site_test value_type cutoff v) as [[|]|]; simpl; lia.
Qed.

Lemma site_fold_stored (value_type : string) (cutoff : Q)
    (l : list (string * string)) (n : Z) (s : Pileup) :
  (forall k v, In (k, v) l -> site_test value_type cutoff v = Some true ->
               dict_get k (polymorphic_sites_dict s) = Some v) ->
  snd (fold_left (site_step value_type cutoff) l (n, s)) = s.
Proof.
  revert n. induction l as [|[k v] l IH]; intros n H; simpl; [reflexivity|].
  unfold site_step at 2. simpl.
  destruct (site_test value_type cutoff v) as [[|]|] eqn:T.
  - rewrite (dict_set_same k v) by (apply H; [now left | exact T]).
    replace {| dict_pileup := dict_pileup s;
               polymorphic_sites_dict := polymorphic_sites_dict s;
               pileup_file := pileup_file s |} with s by (destruct s; reflexivity).
    apply IH. intros; apply H; [now right | assumption].
  - apply IH. intros; apply H; [now right | assumption].
  - apply IH. intros; apply H; [now right | assumption].
Qed.

Lemma run_calls_keeps (calls : list (string * Q)) (self : Pileup) :
  NoDup (keys (dict_pileup self)) ->
  dict_pileup (run_calls calls self) = dict_pileup self.
Proof.
  intros ND. induction calls as [|call calls IH] using rev_ind; [reflexivity|].
  rewrite run_calls_snoc.
  destruct (polymorphic_sites_dicts (fst call) (snd call) (run_calls calls self))
    as [P1 _]; [rewrite IH; exact ND|].
  congruence.
Qed.

(** X18.  On a loaded pileup, after any calls of [polymorphic_sites],
    calling it twice in a row with the same arguments returns the same
    number both times and the second call leaves the object as the
    first left it. *)
Theorem polymorphic_sites_again
    (lines : list string) (m : Z) (loaded_self : Pileup) (calls : list (string * Q))
    (value_type : string) (cutoff : Q) :
  Pileup_init lines m = Ok loaded_self ->
  let self := run_calls calls loaded_self in
  let once := polymorphic_sites value_type cutoff self in
  polymorphic_sites value_type cutoff (snd once) = once.
Proof.
  intros L self once.
  destruct (Pileup_init_fresh lines m loaded_self L) as [_ ND].
  assert (ND' : NoDup (keys (dict_pileup self))).
  { unfold self. rewrite run_calls_keeps; assumption. }
  destruct (polymorphic_sites_dicts value_type cutoff self ND') as [P1 P2].
  fold once in P1, P2.
  rewrite (surjective_pairing (polymorphic_sites value_type cutoff (snd once))).
  rewrite (surjective_pairing once) at 3.
  f_equal.
  - rewrite polymorphic_sites_fold, site_fold_passing, P1.
    unfold once. rewrite polymorphic_sites_fold, site_fold_passing. reflexivity.
  - rewrite polymorphic_sites_fold. apply site_fold_stored.
    intros k v Hin T. rewrite P2.
    rewrite P1 in Hin.
    rewrite (dict_get_in (dict_pileup self) k v ND' Hin), T. reflexivity.
Qed.

Lemma polymorphic_sites_again_witness :
  Pileup_init [eight_reads_line] 0 = Ok eight_reads_pileup
  /\ polymorphic_sites "number_reads" 0
       (snd (polymorphic_sites "number_reads" 0
               (run_calls accumulate_calls eight_reads_pileup)))
     = polymorphic_sites "number_reads" 0 (run_calls accumulate_calls eight_reads_pileup).
Proof.
  split; [reflexivity|].
  exact (polymorphic_sites_again [eight_reads_line] 0 eight_reads_pileup accumulate_calls
           "number_reads" 0 eq_refl).
Defined.

Lemma site_test_antitone (value_type : string) (cutoff cutoff' : Q) (value : string) :
  (cutoff <= cutoff')%Q ->
  site_test value_type cutoff' value = Some true ->
  site_test value_type cutoff value = Some true.
Proof.
  intros Hc. unfold site_test.
  destruct (value_type =? "percentage")%string.
  - intros H. injection H as H'. f_equal. apply negb_true_iff in H'. apply negb_true_iff.
    destruct (Qle_bool _ (float_mul _ cutoff)) eqn:E; [|reflexivity].
    apply Qle_bool_iff in E.
    assert (T : (0 <= inject_Z (sum (list_n_bases value)))%Q).
    { rewrite sorted_sum_is_total. change 0%Q with (inject_Z 0). rewrite <- Zle_Qle.
      unfold total_count. destruct (base_counts_nonneg value) as [? [? [? ?]]]. lia. }
    assert (C : Qle_bool (inject_Z (nth 2 (list_n_bases value) 0))
                         (float_mul (inject_Z (sum (list_n_bases value))) cutoff') = true).
    { apply Qle_bool_iff. eapply Qle_trans; [exact E|].
      apply float_mul_mono_r; assumption. }
    congruence.
  - destruct (value_type =? "number_reads")%string; [|discriminate].
    intros H. injection H as H'. f_equal. apply negb_true_iff in H'. apply negb_true_iff.
    destruct (Qle_bool _ cutoff) eqn:E; [|reflexivity].
    apply Qle_bool_iff in E.
    assert (C : Qle_bool (inject_Z (nth 2 (list_n_bases value) 0)) cutoff' = true).
    { apply Qle_bool_iff. eapply Qle_trans; eassumption. }
    congruence.
Qed.

(** X19.  The number [polymorphic_sites] returns is between 0 and
    the number of positions, and a higher cutoff never gives a higher
    number, for either [value_type]. *)
Theorem polymorphic_sites_antitone
    (self : Pileup) (value_type : string) (cutoff cutoff' : Q) :
  (cutoff <= cutoff')%Q ->
  0 <= fst (polymorphic_sites value_type cutoff' self)
  /\ fst (polymorphic_sites value_type cutoff' self)
     <= fst (polymorphic_sites value_type cutoff self)
  /\ fst (polymorphic_sites value_type cutoff self)
     <= Z.of_nat (List.length (dict_pileup self)).
Proof.
  intros Hc. rewrite !polymorphic_sites_fold, !site_fold_passing. simpl fst.
  unfold passing. split; [lia|]. split.
  - apply Z.add_le_mono_l, Nat2Z.inj_le, filter_length_antitone.
    intros [k v]. cbn [snd].
    destruct (site_test value_type cutoff' v) as [[|]|] eqn:T; try discriminate.
    rewrite (site_test_antitone _ _ _ _ Hc T). reflexivity.
  - pose proof (filter_length_le (fun kv : string * string =>
                                    match site_test value_type cutoff (snd kv) with
                                    | Some true => true
                                    | _ => false
                                    end) (items (dict_pileup self))) as F.
    unfold items in *. lia.
Qed.

Lemma polymorphic_sites_antitone_witness :
  (0 <= 5)%Q
  /\ 0 <= fst (polymorphic_sites "number_reads" 5 eight_reads_pileup)
  /\ fst (polymorphic_sites "number_reads" 5 eight_reads_pileup)
     <= fst (polymorphic_sites "number_reads" 0 eight_reads_pileup)
  /\ fst (polymorphic_sites "number_reads" 0 eight_reads_pileup)
     <= Z.of_nat (List.length (dict_pileup eight_reads_pileup)).
Proof.
  assert (H : (0 <= 5)%Q) by (unfold Qle; simpl; lia).
  split; [exact H|].
  exact (polymorphic_sites_antitone eight_reads_pileup "number_reads" 0 5 H).
Defined.

(** X20.  With a [value_type] that is neither ["percentage"] nor
    ["number_reads"], [polymorphic_sites] returns 0, raises nothing and
    leaves the object unchanged. *)
Theorem polymorphic_sites_unknown_value_type
    (self : Pileup) (value_type : string) (cutoff : Q) :
  value_type <> "percentage" ->
  value_type <> "number_reads" ->
  polymorphic_sites value_type cutoff self = (0, self).
Proof.
  intros N1 N2.
  apply String.eqb_neq in N1. apply String.eqb_neq in N2.
  rewrite polymorphic_sites_fold.
  assert (G : forall l st, fold_left (site_step value_type cutoff) l st = st).
  { induction l as [|kv l IH]; intros st; simpl; [reflexivity|].
    rewrite IH. unfold site_step, site_test. rewrite N1, N2. reflexivity. }
  apply G.
Qed.

Lemma polymorphic_sites_unknown_value_type_witness :
  "reads" <> "percentage"
  /\ "reads" <> "number_reads"
  /\ polymorphic_sites "reads" 0 eight_reads_pileup = (0, eight_reads_pileup).
Proof.
  assert (H1 : "reads" <> "percentage") by discriminate.
  assert (H2 : "reads" <> "number_reads") by discriminate.
  split; [exact H1|]. split; [exact H2|].
  exact (polymorphic_sites_unknown_value_type eight_reads_pileup "reads" 0 H1 H2).
Defined.

Lemma nucleotide_diversity_returns_witness :
  (values (dict_pileup eight_reads_pileup) <> []
   /\ forall pos, In pos (values (dict_pileup eight_reads_pileup)) -> 2 <= reads_counted pos)
  /\ exists r, nucleotide_diversity eight_reads_pileup = Ok r.
Proof.
  assert (H : values (dict_pileup eight_reads_pileup) <> []
              /\ forall pos, In pos (values (dict_pileup eight_reads_pileup))
                             -> 2 <= reads_counted pos).
  { split; [simpl; discriminate|]. simpl. intros pos [<-|[]]. vm_compute. discriminate. }
  split; [exact H|].
  exact (proj2 (proj1 (nucleotide_diversity_returns eight_reads_pileup)) H).
Defined.

(** ** Loops that append to the output *)

Lemma string_concat_cons (x : string) (xs : list string) :
  String.concat EmptyString (x :: xs) = x ++ String.concat EmptyString xs.
Proof.
  destruct xs as [|y ys]; simpl; [now rewrite string_app_nil | reflexivity].
Qed.

Lemma string_concat_app (xs ys : list string) :
  String.concat EmptyString (xs ++ ys)
  = String.concat EmptyString xs ++ String.concat EmptyString ys.
Proof.
  induction xs as [|x xs IH]; [reflexivity|].
  change ((x :: xs) ++ ys)%list with (x :: (xs ++ ys))%list.
  rewrite !string_concat_cons, IH, string_app_assoc. reflexivity.
Qed.

Lemma for_each_pieces {A : Type} (body : string -> A -> result string)
    (piece : A -> result string) (f : A -> string) (l : list A) (out : string) :
  (forall out x, body out x = (p <- piece x ;; Ok (out ++ p))) ->
  (forall x, In x l -> piece x = Ok (f x)) ->
  for_each body l out = Ok (out ++ String.concat EmptyString (map f l)).
Proof.
  intros Hb. revert out. induction l as [|x l IH]; intros out H.
  - simpl. now rewrite string_app_nil.
  - cbn [for_each map]. rewrite Hb, (H x) by now left. cbn [bind].
    rewrite IH by (intros; apply H; now right).
    rewrite string_concat_cons, string_app_assoc. reflexivity.
Qed.

Lemma for_each_pieces_error {A : Type} (body : string -> A -> result string)
    (piece : A -> result string) (l : list A) (out : string) (e : exn) :
  (forall out x, body out x = (p <- piece x ;; Ok (out ++ p))) ->
  for_each body l out = Err e ->
  exists x, In x l /\ piece x = Err e.
Proof.
  intros Hb. revert out. induction l as [|x l IH]; intros out; [discriminate|].
  cbn [for_each]. rewrite Hb.
  destruct (piece x) as [p|e'] eqn:E; cbn [bind].
  - intros H. destruct (IH _ H) as [y [Hin Hy]]. exists y. split; [now right | exact Hy].
  - intros H. inversion H. subst e'. exists x. split; [now left | exact E].
Qed.

Lemma for_each_pieces_returns {A : Type} (body : string -> A -> result string)
    (piece : A -> result string) (l : list A) (out out' : string) :
  (forall out x, body out x = (p <- piece x ;; Ok (out ++ p))) ->
  for_each body l out = Ok out' ->
  forall x, In x l -> exists p, piece x = Ok p.
Proof.
  intros Hb. revert out. induction l as [|x l IH]; intros out H y Hin; [destruct Hin|].
  cbn [for_each] in H. rewrite Hb in H.
  destruct (piece x) as [p|e'] eqn:E; cbn [bind] in H; [|discriminate].
  destruct Hin as [<-|Hin]; [eexists; exact E | exact (IH _ H y Hin)].
Qed.

(** ** Lines *)

Lemma readlines_terminated (body rest : string) :
  mentions newline body = false ->
  readlines (body ++ nl ++ rest) = (body ++ nl) :: readlines rest.
Proof.
  induction body as [|c body IH]; intros H.
  - reflexivity.
  - cbn [mentions] in H. apply orb_false_elim in H. destruct H as [H1 H2].
    change (String c body ++ nl ++ rest) with (String c (body ++ nl ++ rest)).
    cbn [readlines]. rewrite H1, (IH H2). reflexivity.
Qed.

Lemma readlines_concat (bodies : list string) :
  Forall (fun b => mentions newline b = false) bodies ->
  readlines (String.concat EmptyString (map (fun b => b ++ nl) bodies))
  = map (fun b => b ++ nl) bodies.
Proof.
  induction 1 as [|b bodies Hb _ IH]; [reflexivity|].
  cbn [map]. rewrite string_concat_cons, string_app_assoc, (readlines_terminated _ _ Hb), IH.
  reflexivity.
Qed.

Lemma one_line_cons (c : ascii) (s : string) :
  one_line (String c s) = true -> s <> EmptyString ->
  Ascii.eqb c newline = false /\ one_line s = true.
Proof.
  cbn [one_line]. destruct (Ascii.eqb c newline); [|tauto].
  destruct s; [congruence | discriminate].
Qed.

(** In a line, only the last tab-separated field can hold a newline. *)
Lemma split_tab_fields (line : string) (i : nat) :
  one_line line = true ->
  (S i < List.length (split_tab line))%nat ->
  mentions newline (nth i (split_tab line) EmptyString) = false.
Proof.
  revert i. induction line as [|c line IH]; intros i H L; [simpl in L; lia|].
  cbn [split_tab] in *.
  destruct (Ascii.eqb c tab) eqn:T.
  - apply Ascii.eqb_eq in T. subst c.
    destruct i as [|i]; [reflexivity|]. cbn [nth].
    cbn [List.length] in L.
    assert (N : line <> EmptyString) by (intros ->; simpl in L; lia).
    apply IH; [exact (proj2 (one_line_cons _ _ H N)) | lia].
  - destruct (split_tab line) as [|f fs] eqn:Sp; [simpl in L; lia|].
    cbn [List.length] in L.
    assert (N : line <> EmptyString)
      by (intros ->; simpl in Sp; inversion Sp; subst; simpl in L; lia).
    destruct (one_line_cons _ _ H N) as [C O].
    destruct i as [|i].
    + cbn [nth mentions]. rewrite C. exact (IH 0%nat O L).
    + cbn [nth]. exact (IH (S i) O L).
Qed.

Lemma readlines_one_line (text : string) :
  Forall (fun line => one_line line = true) (readlines text).
Proof.
  induction text as [|c text IH]; [constructor|].
  cbn [readlines]. destruct (Ascii.eqb c newline) eqn:E.
  - constructor; [|exact IH]. cbn [one_line]. now rewrite E.
  - destruct (readlines text) as [|l ls].
    + constructor; [|constructor]. cbn [one_line]. now rewrite E.
    + inversion IH; subst. constructor; [|assumption].
      cbn [one_line]. now rewrite E.
Qed.

(** ** sam_to_fasta *)

Lemma sam_body (out line : string) :
  (c <- first_char line ;;
   if negb (Ascii.eqb c "@"%char) then
     let line_elements := split_tab line in
     name <- index_or_fail line_elements 0 ;;
     bases <- index_or_fail line_elements 9 ;;
     Ok (out ++ (">" ++ name ++ nl) ++ (bases ++ nl))
   else Ok out)
  = (p <- sam_piece line ;; Ok (out ++ p)).
Proof.
  unfold sam_piece. destruct (first_char line) as [c|e]; cbn [bind]; [|reflexivity].
  destruct (negb (Ascii.eqb c "@")); cbn [bind]; [|now rewrite string_app_nil].
  cbv zeta.
  destruct (index_or_fail (split_tab line) 0); cbn [bind]; [|reflexivity].
  destruct (index_or_fail (split_tab line) 9); cbn [bind]; reflexivity.
Qed.

Lemma index_or_fail_nth {A : Type} (l : list A) (i : nat) (d : A) :
  (i < List.length l)%nat -> index_or_fail l i = Ok (nth i l d).
Proof.
  intros H. unfold index_or_fail.
  destruct (nth_error l i) as [a|] eqn:E.
  - now rewrite (nth_error_nth _ _ d E).
  - apply nth_error_None in E. lia.
Qed.

Lemma index_or_fail_short {A : Type} (l : list A) (i : nat) :
  (List.length l <= i)%nat -> index_or_fail l i = Err IndexError.
Proof.
  intros H. unfold index_or_fail.
  apply nth_error_None in H. now rewrite H.
Qed.

Lemma split_tab_nonempty (line : string) : (1 <= List.length (split_tab line))%nat.
Proof.
  induction line as [|c line IH]; simpl; [lia|].
  destruct (Ascii.eqb c tab); simpl; [lia|].
  destruct (split_tab line); simpl in *; lia.
Qed.

(** When one line is written, and the only way it fails. *)
Lemma sam_piece_cases (line : string) :
  match sam_piece line with
  | Ok p =>
      line <> EmptyString
      /\ (startswith "@" line = false -> (10 <= List.length (split_tab line))%nat)
      /\ p = String.concat EmptyString (sam_record line)
  | Err e =>
      e = IndexError
      /\ (line = EmptyString
          \/ startswith "@" line = false /\ (List.length (split_tab line) < 10)%nat)
  end.
Proof.
  unfold sam_piece, sam_record. destruct line as [|c line]; [simpl; auto|].
  cbn [first_char bind startswith].
  assert (Es : Ascii.eqb "@" c = Ascii.eqb c "@") by apply Ascii.eqb_sym.
  rewrite Es. clear Es.
  destruct (Ascii.eqb c "@") eqn:E; cbn [negb andb].
  - split; [discriminate|]. split; [discriminate | reflexivity].
  - pose proof (split_tab_nonempty (String c line)) as L1.
    rewrite (index_or_fail_nth _ 0 EmptyString) by lia. cbn [bind].
    destruct (le_lt_dec 10 (List.length (split_tab (String c line)))) as [L|L].
    + rewrite (index_or_fail_nth _ 9 EmptyString) by lia. cbn [bind].
      split; [discriminate|]. split; [intros _; exact L|].
      rewrite string_concat_cons. reflexivity.
    + rewrite index_or_fail_short by lia. cbn [bind].
      split; [reflexivity|]. right. split; [reflexivity | exact L].
Qed.

(** X24.  [sam_to_fasta] returns exactly when no line is empty and
    every line that does not start with [@] has at least ten
    tab-separated fields; when it does not return the exception is
    [IndexError]. *)
Theorem sam_to_fasta_succeeds_iff (SAM_lines : list string) :
  ((exists out, sam_to_fasta SAM_lines = Ok out)
   <-> Forall (fun line =>
                 line <> EmptyString
                 /\ (startswith "@" line = false
                     -> (10 <= List.length (split_tab line))%nat))
              SAM_lines)
  /\ (forall e, sam_to_fasta SAM_lines = Err e -> e = IndexError).
Proof.
  unfold sam_to_fasta. split; [split|].
  - intros [out H]. apply Forall_forall. intros line Hin.
    destruct (for_each_pieces_returns _ sam_piece _ _ _ sam_body H line Hin) as [p Hp].
    pose proof (sam_piece_cases line) as C. rewrite Hp in C. tauto.
  - intros F. rewrite Forall_forall in F.
    rewrite (for_each_pieces _ sam_piece
               (fun line => String.concat EmptyString (sam_record line)) _ _ sam_body).
    + eexists. reflexivity.
    + intros line Hin. destruct (F line Hin) as [N L].
      pose proof (sam_piece_cases line) as C.
      destruct (sam_piece line) as [p|e].
      * destruct C as [_ [_ ->]]. reflexivity.
      * destruct C as [_ [C|[C1 C2]]]; [contradiction|]. specialize (L C1). lia.
  - intros e H.
    destruct (for_each_pieces_error _ sam_piece _ _ _ sam_body H) as [line [_ Hp]].
    pose proof (sam_piece_cases line) as C. rewrite Hp in C. tauto.
Qed.

Lemma string_concat_flat_map {A : Type} (f : A -> list string) (l : list A) :
  String.concat EmptyString (map (fun x => String.concat EmptyString (f x)) l)
  = String.concat EmptyString (flat_map f l).
Proof.
  induction l as [|x l IH]; [reflexivity|].
  cbn [map flat_map]. rewrite string_concat_cons, string_concat_app, IH. reflexivity.
Qed.

Lemma startswith_nonempty (line : string) :
  startswith "@" line = true -> line <> EmptyString.
Proof. destruct line; [discriminate | discriminate]. Qed.

(** X25.  On lines as [readlines] gives them, each a header line
    or an alignment line with its eleven mandatory fields,
    [sam_to_fasta] returns and the lines of the file it writes are, for
    each alignment line in the order of the file, [>] with the first
    field and the tenth field; header lines give nothing, and no
    alignment line is left out. *)
Theorem sam_to_fasta_records (SAM_lines : list string) :
  Forall (fun line => one_line line = true) SAM_lines ->
  Forall (fun line => sam_line line = true) SAM_lines ->
  exists out,
    sam_to_fasta SAM_lines = Ok out
    /\ readlines out = flat_map sam_record SAM_lines.
Proof.
  intros H1 H2. rewrite Forall_forall in H1, H2.
  assert (L : forall line, In line SAM_lines ->
                line <> EmptyString
                /\ (startswith "@" line = false -> (11 <= List.length (split_tab line))%nat)).
  { intros line Hin. specialize (H2 line Hin). unfold sam_line in H2.
    destruct (startswith "@" line) eqn:E.
    - split; [apply startswith_nonempty; exact E | discriminate].
    - rewrite orb_false_l in H2. apply Nat.leb_le in H2. split; [|intros _; exact H2].
      intros ->. simpl in H2. lia. }
  exists (String.concat EmptyString (flat_map sam_record SAM_lines)). split.
  - unfold sam_to_fasta.
    rewrite (for_each_pieces _ sam_piece
               (fun line => String.concat EmptyString (sam_record line)) _ _ sam_body).
    + rewrite string_concat_flat_map. reflexivity.
    + intros line Hin. destruct (L line Hin) as [N F].
      pose proof (sam_piece_cases line) as C.
      destruct (sam_piece line) as [p|e].
      * destruct C as [_ [_ ->]]. reflexivity.
      * destruct C as [_ [C|[C1 C2]]]; [contradiction|]. specialize (F C1). lia.
  - assert (B : exists bodies,
               flat_map sam_record SAM_lines = map (fun b => b ++ nl) bodies
               /\ Forall (fun b => mentions newline b = false) bodies).
    { clear H2. induction SAM_lines as [|line ls IH].
      - exists []. split; [reflexivity | constructor].
      - destruct IH as [bodies [E F]];
          [intros; apply H1; now right | intros; apply L; now right|].
        cbn [flat_map]. unfold sam_record at 1.
        destruct (startswith "@" line) eqn:S.
        + exists bodies. split; [exact E | exact F].
        + destruct (L line) as [_ F11]; [now left|]. specialize (F11 S).
          assert (O : one_line line = true) by (apply H1; now left).
          exists ((">" ++ nth 0 (split_tab line) EmptyString)
                  :: nth 9 (split_tab line) EmptyString :: bodies).
          split.
          * cbn [map app]. rewrite E. rewrite string_app_assoc. reflexivity.
          * constructor; [|constructor; [|exact F]].
            -- change (">" ++ ?x) with (String ">" x). cbn [mentions].
               rewrite (split_tab_fields line 0 O) by lia. reflexivity.
            -- apply (split_tab_fields line 9 O). lia. }
    destruct B as [bodies [E F]]. rewrite E. apply readlines_concat. exact F.
Qed.

Lemma sam_to_fasta_records_witness :
  Forall (fun line => one_line line = true) sam_example
  /\ Forall (fun line => sam_line line = true) sam_example
  /\ exists out,
      sam_to_fasta sam_example = Ok out
      /\ readlines out = flat_map sam_record sam_example.
Proof.
  assert (H1 : Forall (fun line => one_line line = true) sam_example)
    by (repeat constructor).
  assert (H2 : Forall (fun line => sam_line line = true) sam_example)
    by (repeat constructor).
  split; [exact H1|]. split; [exact H2|].
  exact (sam_to_fasta_records sam_example H1 H2).
Defined.

Lemma sam_to_fasta_succeeds_iff_witness :
  Forall (fun line =>
            line <> EmptyString
            /\ (startswith "@" line = false -> (10 <= List.length (split_tab line))%nat))
         sam_example
  /\ exists out, sam_to_fasta sam_example = Ok out.
Proof.
  assert (H : Forall (fun line =>
                        line <> EmptyString
                        /\ (startswith "@" line = false
                            -> (10 <= List.length (split_tab line))%nat))
                     sam_example).
  { repeat constructor; try discriminate; intros _; vm_compute; discriminate. }
  split; [exact H|].
  exact (proj2 (proj1 (sam_to_fasta_succeeds_iff sam_example)) H).
Defined.

(** ** fastq_to_fasta *)

Lemma range_from_mem (fuel start stop n : nat) :
  (stop <= fuel + start)%nat ->
  existsb (Nat.eqb n) (range_from fuel start stop 4)
  = (start <=? n)%nat && (n <? stop)%nat && ((n - start) mod 4 =? 0)%nat.
Proof.
  revert start. induction fuel as [|fuel IH]; intros start H.
  - simpl.
    destruct (Nat.leb_spec start n); destruct (Nat.ltb_spec n stop); simpl; try reflexivity.
    lia.
  - cbn [range_from]. destruct (Nat.ltb_spec start stop) as [L|L].
    + cbn [existsb]. rewrite IH by lia.
      destruct (Nat.eqb_spec n start) as [->|N].
      * rewrite Nat.leb_refl, Nat.sub_diag. simpl.
        destruct (Nat.ltb_spec start stop); [reflexivity | lia].
      * cbn [orb].
        destruct (Nat.leb_spec (start + 4) n) as [A|A].
        -- destruct (Nat.leb_spec start n); [|lia]. cbn [andb].
           destruct (Nat.ltb_spec n stop); [|reflexivity]. cbn [andb].
           replace (n - start)%nat with ((n - (start + 4)) + 1 * 4)%nat by lia.
           rewrite Nat.Div0.mod_add. reflexivity.
        -- cbn [andb].
           destruct (Nat.leb_spec start n) as [B|B]; [|reflexivity].
           destruct (Nat.ltb_spec n stop); [|reflexivity]. cbn [andb].
           assert (C : (n - start = 1 \/ n - start = 2 \/ n - start = 3)%nat) by lia.
           destruct C as [C|[C|C]]; rewrite C; reflexivity.
    + simpl.
      destruct (Nat.leb_spec start n); destruct (Nat.ltb_spec n stop); simpl; try reflexivity.
      lia.
Qed.

Lemma in_name_lines (len n : nat) :
  (n < len)%nat ->
  existsb (Nat.eqb n) (range 0 (len + 1) 4) = (n mod 4 =? 0)%nat.
Proof.
  intros H. unfold range. rewrite range_from_mem by lia.
  rewrite Nat.sub_0_r. simpl.
  destruct (Nat.ltb_spec n (len + 1)); [reflexivity | lia].
Qed.

Lemma in_bases_lines (len n : nat) :
  (n < len)%nat ->
  existsb (Nat.eqb n) (range 1 (len + 1) 4) = (n mod 4 =? 1)%nat.
Proof.
  intros H. unfold range. rewrite range_from_mem by lia.
  destruct (Nat.ltb_spec n (len + 1)); [|lia]. rewrite andb_true_r.
  destruct n as [|m]; [reflexivity|].
  cbn [Nat.leb andb]. replace (S m - 1)%nat with m by lia.
  assert (D : exists q r, (m = r + q * 4 /\ r < 4)%nat).
  { exists (m / 4)%nat, (m mod 4)%nat. split.
    - rewrite (Nat.div_mod_eq m 4) at 1. lia.
    - apply Nat.mod_upper_bound. lia. }
  destruct D as [q [r [-> R]]].
  replace (S (r + q * 4)) with (S r + q * 4)%nat by lia.
  rewrite !Nat.Div0.mod_add.
  assert (C : (r = 0 \/ r = 1 \/ r = 2 \/ r = 3)%nat) by lia.
  destruct C as [C|[C|[C|C]]]; subst r; reflexivity.
Qed.

Lemma fastq_fold (names bases : list nat) (l : list (nat * string)) (out : string) :
  (forall n line, In (n, line) l ->
                  existsb (Nat.eqb n) names = (n mod 4 =? 0)%nat
                  /\ existsb (Nat.eqb n) bases = (n mod 4 =? 1)%nat) ->
  fold_left (fun out item =>
               let (number, line) := (item : nat * string) in
               if existsb (Nat.eqb number) names
               then out ++ sub_leading_at line
               else if existsb (Nat.eqb number) bases
               then out ++ line
               else out) l out
  = out ++ String.concat EmptyString (map (fun item => fastq_copy (fst item) (snd item)) l).
Proof.
  revert out. induction l as [|[n line] l IH]; intros out H.
  - simpl. now rewrite string_app_nil.
  - cbn [fold_left map fst snd].
    rewrite IH by (intros n' line' Hin; apply (H n' line'); now right).
    destruct (H n line) as [A B]; [now left|]. rewrite A, B.
    rewrite string_concat_cons. unfold fastq_copy.
    destruct (n mod 4 =? 0)%nat; [now rewrite string_app_assoc|].
    destruct (n mod 4 =? 1)%nat; [now rewrite string_app_assoc|].
    reflexivity.
Qed.

(** What is copied, line by line. *)
Lemma fastq_to_fasta_lines (fastq : list string) :
  fastq_to_fasta fastq
  = String.concat EmptyString
      (map (fun item => fastq_copy (fst item) (snd item)) (enumerate fastq)).
Proof.
  unfold fastq_to_fasta. rewrite fastq_fold; [reflexivity|].
  intros n line Hin.
  assert (L : (n < List.length fastq)%nat).
  { unfold enumerate in Hin. apply in_combine_l in Hin. apply in_seq in Hin. lia. }
  split; [apply in_name_lines | apply in_bases_lines]; exact L.
Qed.

Lemma fastq_copy_records (records : list (string * string * string * string)) (k : nat) :
  String.concat EmptyString
    (map (fun item => fastq_copy (fst item) (snd item))
         (combine (seq (4 * k) (List.length (fastq_lines records))) (fastq_lines records)))
  = String.concat EmptyString
      (map (fun r => match r with (name, bases, _, _) => sub_leading_at name ++ bases end)
           records).
Proof.
  revert k. induction records as [|[[[name bases] plus] quals] records IH]; intros k.
  - reflexivity.
  - cbn [fastq_lines flat_map app List.length seq combine map fst snd].
    fold (fastq_lines records).
    replace (S (S (S (S (4 * k))))) with (4 * (S k))%nat by lia.
    rewrite !string_concat_cons, IH.
    unfold fastq_copy.
    replace (4 * k)%nat with (0 + k * 4)%nat by lia.
    replace (S (0 + k * 4)) with (1 + k * 4)%nat by lia.
    replace (S (1 + k * 4)) with (2 + k * 4)%nat by lia.
    replace (S (2 + k * 4)) with (3 + k * 4)%nat by lia.
    rewrite !Nat.Div0.mod_add. cbn [Nat.modulo Nat.eqb].
    change (0 mod 4 =? 0)%nat with true. change (1 mod 4 =? 0)%nat with false.
    change (1 mod 4 =? 1)%nat with true. change (2 mod 4 =? 0)%nat with false.
    change (2 mod 4 =? 1)%nat with false. change (3 mod 4 =? 0)%nat with false.
    change (3 mod 4 =? 1)%nat with false. cbv iota.
    change (EmptyString ++ ?x) with x.
    rewrite string_app_assoc. reflexivity.
Qed.

(** X26.  On the lines of any reads, four lines each,
    [fastq_to_fasta] writes of each read the name line, with [>] for a
    leading [@], and the line of the bases; the quality line is not
    touched, also when it starts with [@].  The function raises
    nothing. *)
Theorem fastq_to_fasta_records (records : list (string * string * string * string)) :
  fastq_to_fasta (fastq_lines records)
  = String.concat EmptyString
      (map (fun r => match r with (name, bases, _, _) => sub_leading_at name ++ bases end)
           records).
Proof.
  rewrite fastq_to_fasta_lines. unfold enumerate.
  exact (fastq_copy_records records 0).
Qed.

(** On two reads, the second with a quality line that begins with
    [@]. *)
Example fastq_to_fasta_example :
  fastq_to_fasta (fastq_lines fastq_example)
  = ">r1" ++ nl ++ "ACGT" ++ nl ++ ">r2" ++ nl ++ "TTGA" ++ nl.
Proof. reflexivity. Qed.

(** ** clusters_to_single_reads *)

Lemma digit_char_is_digit (d : Z) : 0 <= d < 10 -> is_digit (digit_char d) = true.
Proof.
  intros H. unfold digit_char.
  assert (C : d = 0 \/ d = 1 \/ d = 2 \/ d = 3 \/ d = 4 \/ d = 5 \/ d = 6 \/ d = 7
              \/ d = 8 \/ d = 9) by lia.
  repeat (destruct C as [C|C]; [subst d; reflexivity|]). subst d. reflexivity.
Qed.

Lemma str_digits_only_digits (fuel : nat) (n : Z) (acc : string) :
  only_digits acc = true -> only_digits (str_digits fuel n acc) = true.
Proof.
  revert n acc. induction fuel as [|fuel IH]; intros n acc H; [exact H|].
  cbn [str_digits].
  assert (H' : only_digits (String (digit_char (n mod 10)) acc) = true).
  { cbn [only_digits]. rewrite digit_char_is_digit, H; [reflexivity|].
    apply Z.mod_pos_bound. lia. }
  destruct (n <? 10); [exact H' | apply IH; exact H'].
Qed.

Lemma str_digits_nonempty (fuel : nat) (n : Z) (acc : string) :
  acc <> EmptyString -> str_digits fuel n acc <> EmptyString.
Proof.
  revert n acc. induction fuel as [|fuel IH]; intros n acc H; [exact H|].
  cbn [str_digits]. destruct (n <? 10); [discriminate | apply IH; discriminate].
Qed.

Lemma str_int_only_digits (n : Z) :
  0 <= n -> only_digits (str_int n) = true /\ str_int n <> EmptyString.
Proof.
  intros H. unfold str_int. destruct (Z.ltb_spec n 0); [lia|].
  cbn [str_digits]. split.
  - destruct (n <? 10); [|apply str_digits_only_digits]; cbn [only_digits];
      rewrite digit_char_is_digit by (apply Z.mod_pos_bound; lia); reflexivity.
  - destruct (n <? 10); [discriminate | apply str_digits_nonempty; discriminate].
Qed.

Lemma only_digits_mentions (c : ascii) (s : string) :
  is_digit c = false -> only_digits s = true -> mentions c s = false.
Proof.
  intros Hc. induction s as [|d s IH]; [reflexivity|].
  cbn [only_digits mentions]. intros H. apply andb_prop in H. destruct H as [H1 H2].
  rewrite (IH H2), orb_false_r.
  destruct (Ascii.eqb_spec d c) as [->|N]; [congruence | reflexivity].
Qed.

Lemma full_line_split (s : string) :
  full_line s = true -> exists body, s = body ++ nl /\ mentions newline body = false.
Proof.
  induction s as [|c s IH]; [discriminate|].
  cbn [full_line]. destruct (Ascii.eqb c newline) eqn:E.
  - destruct s; [|discriminate]. intros _. exists EmptyString.
    apply Ascii.eqb_eq in E. subst c. split; reflexivity.
  - intros H. destruct (IH H) as [body [-> Hb]].
    exists (String c body). split; [reflexivity|]. cbn [mentions]. now rewrite E, Hb.
Qed.

Lemma full_line_terminated (body : string) :
  mentions newline body = false -> full_line (body ++ nl) = true.
Proof.
  induction body as [|c body IH]; [reflexivity|].
  cbn [mentions]. intros H. apply orb_false_elim in H. destruct H as [H1 H2].
  change (String c body ++ nl) with (String c (body ++ nl)). cbn [full_line].
  rewrite H1. exact (IH H2).
Qed.

Lemma full_line_prefix (p q : string) (c : ascii) :
  full_line (p ++ String c q) = true -> mentions newline p = false.
Proof.
  induction p as [|a p IH]; [reflexivity|].
  change (String a p ++ String c q) with (String a (p ++ String c q)).
  cbn [full_line mentions]. destruct (Ascii.eqb a newline).
  - destruct p; discriminate.
  - exact IH.
Qed.

Lemma readlines_full_lines (ps : list string) :
  Forall (fun p => full_line p = true) ps ->
  readlines (String.concat EmptyString ps) = ps.
Proof.
  induction 1 as [|p ps Hp _ IH]; [reflexivity|].
  destruct (full_line_split p Hp) as [body [-> Hb]].
  rewrite string_concat_cons, string_app_assoc, (readlines_terminated _ _ Hb), IH.
  reflexivity.
Qed.

Lemma startswith_app (p s : string) :
  startswith p s = true -> s = p ++ drop (String.length p) s.
Proof.
  revert s. induction p as [|a p IH]; intros s; [destruct s; reflexivity|].
  destruct s as [|b s]; [discriminate|].
  cbn [startswith]. intros H. apply andb_prop in H. destruct H as [H1 H2].
  apply Ascii.eqb_eq in H1. subst b.
  cbn [String.length drop]. change (String a p ++ ?x) with (String a (p ++ x)).
  f_equal. exact (IH s H2).
Qed.

(** Where [search_size] finds its match. *)
Lemma search_size_decompose (s : string) (i : nat) (g : string) :
  search_size s = Some (i, g) ->
  exists t, s = take i s ++ ";size=" ++ t
            /\ fst (span_digits t) = g /\ g <> EmptyString
            /\ String.length (take i s) = i.
Proof.
  revert i. induction s as [|c s IH]; intros i; [discriminate|].
  rewrite search_size_step.
  destruct (size_tag_here (String c s)) eqn:E.
  - unfold size_tag_here in E. apply andb_prop in E. destruct E as [E1 E2].
    pose proof (startswith_app ";size=" (String c s) E1) as D.
    pose proof (span_digits_head (drop 6 (String c s))) as Hh.
    change (String.length ";size=") with 6%nat in D.
    remember (drop 6 (String c s)) as t eqn:Et.
    intros H. injection H as Hi Hg. subst i g.
    exists t. cbn [take String.length].
    split; [exact D|]. split; [reflexivity|]. split; [|reflexivity].
    destruct (span_digits t) as [[|d ds] r]; [|simpl; discriminate].
    rewrite Hh in E2. discriminate.
  - destruct (search_size s) as [[j h]|]; [|discriminate].
    intros H. injection H as Hi Hg. subst i h.
    destruct (IH j eq_refl) as [t [D [G [N L]]]].
    exists t. cbn [take]. split; [|split; [exact G | split; [exact N|]]].
    + change (String c (take j s) ++ ";size=" ++ t)
        with (String c (take j s ++ ";size=" ++ t)).
      now rewrite <- D.
    + cbn [String.length]. now rewrite L.
Qed.

Lemma mentions_take_le (c : ascii) (q : string) (m n : nat) :
  (m <= n)%nat -> mentions c (take n q) = false -> mentions c (take m q) = false.
Proof.
  revert m n. induction q as [|b q IH]; intros m n L H; [destruct m; reflexivity|].
  destruct m as [|m]; [reflexivity|].
  destruct n as [|n]; [lia|].
  cbn [take mentions] in *. apply orb_false_elim in H. destruct H as [H1 H2].
  rewrite H1. cbn [orb]. apply (IH m n); [lia | exact H2].
Qed.

Lemma mentions_take_app (c : ascii) (n : nat) (p q : string) :
  mentions c p = false -> mentions c (take n q) = false ->
  mentions c (take n (p ++ q)) = false.
Proof.
  revert n. induction p as [|a p IH]; intros n Hp Hq.
  - exact Hq.
  - destruct n as [|n]; [reflexivity|].
    cbn [mentions] in Hp. apply orb_false_elim in Hp. destruct Hp as [H1 H2].
    change (String a p ++ q) with (String a (p ++ q)). cbn [take mentions].
    rewrite H1. cbn [orb]. apply IH; [exact H2|].
    apply (mentions_take_le c q n (S n)); [lia | exact Hq].
Qed.

Lemma startswith_size_equals (x : string) :
  startswith "size=" x = true -> mentions "=" (take 5 x) = true.
Proof.
  intros H. rewrite (startswith_app "size=" x H). reflexivity.
Qed.

(** The two scans of [clusters_to_single_reads] on a line whose text
    before the size annotation holds neither [;] nor [=]. *)
Lemma plain_header_scan (p t g : string) :
  mentions ";" p = false -> mentions "=" p = false ->
  fst (span_digits t) = g -> g <> EmptyString ->
  search_plain_size (p ++ ";size=" ++ t) = Some g
  /\ find_size (p ++ ";size=" ++ t) = Some (String.length p).
Proof.
  intros Hs He G N. induction p as [|c p IH].
  - split; [|reflexivity].
    change (EmptyString ++ ";size=" ++ t) with (String ";" (String "s" ("ize=" ++ t))).
    cbn [search_plain_size].
    change (startswith "size=" (String ";" (String "s" ("ize=" ++ t)))) with false.
    change (startswith "size=" (String "s" ("ize=" ++ t))) with true.
    cbv iota. change (drop 5 (String "s" ("ize=" ++ t))) with t.
    destruct (span_digits t) as [[|d ds] r]; simpl in G; [congruence|].
    now rewrite G.
  - cbn [mentions] in Hs, He.
    apply orb_false_elim in Hs. destruct Hs as [Hs1 Hs2].
    apply orb_false_elim in He. destruct He as [He1 He2].
    destruct (IH Hs2 He2) as [I1 I2].
    change (String c p ++ ";size=" ++ t) with (String c (p ++ ";size=" ++ t)).
    split.
    + cbn [search_plain_size].
      destruct (startswith "size=" (String c (p ++ ";size=" ++ t))) eqn:S5; [|exact I1].
      apply startswith_size_equals in S5.
      change (String c (p ++ ";size=" ++ t)) with (String c p ++ ";size=" ++ t) in S5.
      rewrite mentions_take_app in S5; [discriminate | | reflexivity].
      cbn [mentions]. now rewrite He1, He2.
    + cbn [find_size startswith].
      assert (Es : Ascii.eqb ";" c = false) by (rewrite Ascii.eqb_sym; exact Hs1).
      rewrite Es. cbn [andb]. rewrite I2. reflexivity.
Qed.

Lemma take_length_app (p q : string) : take (String.length p) (p ++ q) = p.
Proof. induction p as [|c p IH]; [destruct q; reflexivity|]. simpl. now rewrite IH. Qed.

(** On a plain header the name cut off by [find] is the name the
    parser stores, and both read the same size. *)
Lemma plain_header_name (line : string) (i : nat) (g : string) :
  startswith ">" line = true ->
  search_size line = Some (i, g) ->
  mentions ";" (take i line) = false -> mentions "=" (take i line) = false ->
  search_plain_size line = Some g
  /\ match find_size line with
     | Some i' => take i' line
     | None => take (String.length line - 1) line
     end = ">" ++ slice 1 i line.
Proof.
  intros Hs G Hsc Heq.
  destruct (search_size_decompose line i g G) as [t [D [Gt [N L]]]].
  destruct (plain_header_scan (take i line) t g Hsc Heq Gt N) as [S1 S2].
  rewrite <- D in S1, S2. split; [exact S1|].
  rewrite S2, L.
  destruct line as [|c r]; [discriminate|].
  cbn [startswith] in Hs. apply andb_prop in Hs. destruct Hs as [Hc _].
  apply Ascii.eqb_eq in Hc. subst c.
  destruct i as [|j].
  - cbn [take] in D. discriminate.
  - unfold slice. replace (S j - 1)%nat with j by lia. reflexivity.
Qed.

Lemma inner_loop (lines : list string) (n : nat) (read_name sequence : string)
    (l : list Z) (out : string) :
  index_or_fail lines (n + 1) = Ok sequence ->
  for_each (fun out i =>
              sequence <- index_or_fail lines (n + 1) ;;
              Ok (out ++ (read_name ++ "_" ++ str_int i ++ nl) ++ sequence)) l out
  = Ok (out ++ String.concat EmptyString
                 (flat_map (fun i => [read_name ++ "_" ++ str_int i ++ nl; sequence]) l)).
Proof.
  intros E. revert out. induction l as [|i l IH]; intros out.
  - simpl. now rewrite string_app_nil.
  - cbn [for_each flat_map]. rewrite E at 1. cbn [bind]. rewrite IH.
    cbn [app]. rewrite !string_concat_cons, !string_app_assoc. reflexivity.
Qed.

Lemma single_reads_full_lines (name sequence : string) (n : Z) :
  mentions newline name = false -> full_line sequence = true ->
  Forall (fun p => full_line p = true) (single_reads name sequence n).
Proof.
  intros Hn Hs. unfold single_reads.
  induction (seq 0 (Z.to_nat n)) as [|i l IH]; [constructor|].
  cbn [map flat_map app]. constructor; [|constructor; [exact Hs | exact IH]].
  change (">" ++ name ++ "_" ++ str_int (Z.of_nat i) ++ nl)
    with (String ">" (name ++ String "_" (str_int (Z.of_nat i) ++ nl))).
  replace (String ">" (name ++ String "_" (str_int (Z.of_nat i) ++ nl)))
    with ((String ">" (name ++ String "_" (str_int (Z.of_nat i)))) ++ nl).
  - apply full_line_terminated. cbn [mentions]. rewrite mentions_app. cbn [mentions].
    rewrite Hn.
    rewrite (only_digits_mentions newline (str_int (Z.of_nat i)));
      [reflexivity | reflexivity | apply str_int_only_digits; lia].
  - cbn [String.append]. f_equal. rewrite string_app_assoc. reflexivity.
Qed.

Lemma single_reads_length (name sequence : string) (n : Z) :
  List.length (single_reads name sequence n) = (2 * Z.to_nat n)%nat.
Proof.
  unfold single_reads.
  assert (G : forall l : list nat,
             List.length (flat_map (fun i => [">" ++ name ++ "_" ++ str_int i ++ nl; sequence])
                                   (map Z.of_nat l))
             = (2 * List.length l)%nat).
  { induction l as [|i l IH]; [reflexivity|].
    cbn [map flat_map app List.length]. rewrite IH. lia. }
  rewrite G, length_seq. reflexivity.
Qed.

Lemma index_or_fail_in {A : Type} (l : list A) (i : nat) (a : A) :
  index_or_fail l i = Ok a -> In a l.
Proof.
  unfold index_or_fail. destruct (nth_error l i) as [x|] eqn:E; [|discriminate].
  intros H. inversion H. subst. exact (nth_error_In _ _ E).
Qed.

(** The loop of [clusters_to_single_reads] beside the loop of the
    parser. *)
Lemma expansion_loop (lines : list string) (l : list (nat * string)) :
  Forall (fun line => full_line line = true) lines ->
  Forall (fun item => full_line (snd item) = true /\ plain_header (snd item) = true) l ->
  forall (c c' : Clusters) (out : string),
    fasta_file c = lines ->
    for_each Clusters_init_line l c = Ok c' ->
    exists dn ds dr,
      names c' = (names c ++ dn)%list
      /\ sequences c' = (sequences c ++ ds)%list
      /\ number_reads c' = (number_reads c ++ dr)%list
      /\ for_each (fun out item =>
              let (n, line) := (item : nat * string) in
              if startswith ">" line then
                count_match <- group_or_fail (search_plain_size line) ;;
                let count_number := int_of_digits count_match in
                let read_name :=
                  match find_size line with
                  | Some i => take i line
                  | None => take (String.length line - 1) line
                  end in
                for_each (fun out i =>
                            sequence <- index_or_fail lines (n + 1) ;;
                            Ok (out ++ (read_name ++ "_" ++ str_int i ++ nl) ++ sequence))
                         (map Z.of_nat (seq 0 (Z.to_nat count_number))) out
              else Ok out) l out
         = Ok (out ++ String.concat EmptyString (expand dn ds dr))
      /\ Forall (fun p => full_line p = true) (expand dn ds dr)
      /\ List.length (expand dn ds dr)
         = (2 * fold_right Nat.add 0 (map Z.to_nat dr))%nat.
Proof.
  intros FL. induction l as [|[n line] l IH]; intros F c c' out Hf H.
  - cbn [for_each] in *. inversion H. subst c'. exists [], [], [].
    rewrite !app_nil_r. repeat split; try reflexivity.
    + simpl. now rewrite string_app_nil.
    + constructor.
  - apply Forall_cons_iff in F. destruct F as [[Fl Pl] F']. cbn [snd] in Fl, Pl.
    cbn [for_each] in H |- *.
    destruct (Clusters_init_line c (n, line)) as [c1|e] eqn:E1; cbn [bind] in H;
      [|discriminate].
    assert (Hf1 : fasta_file c1 = fasta_file c) by exact (Clusters_init_line_file _ _ _ E1).
    unfold Clusters_init_line in E1.
    destruct (startswith ">" line) eqn:Hs.
    + destruct (search_size line) as [[i g]|] eqn:G; cbn [group_or_fail bind] in E1;
        [|discriminate].
      destruct (search_percent line) as [t|]; cbn [group_or_fail bind] in E1; [|discriminate].
      destruct (float_of_text t) as [q|]; cbn [bind] in E1; [|discriminate].
      destruct (index_or_fail (fasta_file c) (n + 1)) as [sequence|] eqn:Ei;
        cbn [bind] in E1; [|discriminate].
      inversion E1. subst c1. clear E1. cbn [fasta_file] in Hf1.
      unfold plain_header in Pl. rewrite Hs, G in Pl. cbn [negb orb] in Pl.
      apply andb_prop in Pl. destruct Pl as [P1 P2].
      apply negb_true_iff in P1. apply negb_true_iff in P2.
      destruct (plain_header_name line i g Hs G P1 P2) as [S1 S2].
      rewrite S1. cbn [group_or_fail bind]. cbv zeta. rewrite S2.
      rewrite Hf in Ei.
      rewrite (inner_loop lines n (">" ++ slice 1 i line) sequence _ out Ei).
      cbn [bind].
      destruct ((fun pf =>
                   IH F' _ c'
                     (out ++ String.concat EmptyString
                               (flat_map (fun i0 => [(">" ++ slice 1 i line) ++ "_"
                                                     ++ str_int i0 ++ nl; sequence])
                                  (map Z.of_nat (seq 0 (Z.to_nat (int_of_digits g))))))
                     pf H) Hf)
        as [dn [ds [dr [A1 [A2 [A3 [A4 [A5 A6]]]]]]]].
      cbn [names sequences number_reads] in A1, A2, A3.
      exists (slice 1 i line :: dn), (sequence :: ds), (int_of_digits g :: dr).
      rewrite A1, A2, A3, <- !app_assoc. cbn [app].
      split; [reflexivity|]. split; [reflexivity|]. split; [reflexivity|].
      cbn [expand].
      assert (Nn : mentions newline (slice 1 i line) = false).
      { destruct (search_size_decompose line i g G) as [t' [D _]].
        rewrite D in Fl.
        change (";size=" ++ t') with (String ";" ("size=" ++ t')) in Fl.
        apply full_line_prefix in Fl.
        destruct line as [|c0 r]; [discriminate|].
        destruct i as [|j]; [reflexivity|].
        unfold slice. replace (S j - 1)%nat with j by lia.
        cbn [take drop mentions] in *.
        apply orb_false_elim in Fl. tauto. }
      assert (Fs : full_line sequence = true).
      { rewrite Forall_forall in FL. apply FL. exact (index_or_fail_in _ _ _ Ei). }
      split; [|split].
      * refine (eq_trans A4 _).
        rewrite string_concat_app, string_app_assoc. reflexivity.
      * apply Forall_app. split; [apply single_reads_full_lines; assumption | exact A5].
      * rewrite length_app, single_reads_length, A6. cbn [map fold_right]. lia.
    + inversion E1. subst c1. clear E1.
      destruct (IH F' _ c' out Hf H) as [dn [ds [dr A]]].
      exists dn, ds, dr. exact A.
Qed.

Lemma to_nat_sum (l : list Z) :
  Forall (fun n => 0 <= n) l ->
  Z.to_nat (sum l) = fold_right Nat.add 0%nat (map Z.to_nat l).
Proof.
  intros H. unfold sum. rewrite sum_from, Z.add_0_l.
  induction H as [|x l Hx Hl IH]; [reflexivity|].
  cbn [fold_right map].
  assert (0 <= fold_right Z.add 0 l).
  { clear -Hl. induction Hl as [|y l Hy Hl IH]; simpl; lia. }
  rewrite Z2Nat.inj_add by assumption. rewrite IH. reflexivity.
Qed.

(** X28.  On a file that loads as a collection, with lines that end
    with their only newline and headers whose text before the size
    annotation holds neither [;] nor [=], [clusters_to_single_reads]
    returns and the file it writes holds, for each cluster in the order
    of the file, as many reads as its size, named [>name_0],
    [>name_1], ..., each followed by the sequence line of the cluster:
    twice the number of reads of the collection in lines. *)
Theorem clusters_to_single_reads_expands (lines : list string) (self : Clusters) :
  Clusters_init lines = Ok self ->
  Forall (fun line => full_line line = true) lines ->
  Forall (fun line => plain_header line = true) lines ->
  exists out,
    clusters_to_single_reads lines = Ok out
    /\ readlines out = expand (names self) (sequences self) (number_reads self)
    /\ List.length (readlines out) = (2 * Z.to_nat (sum (number_reads self)))%nat.
Proof.
  intros L FL PL.
  assert (F : Forall (fun item : nat * string =>
                        full_line (snd item) = true /\ plain_header (snd item) = true)
                     (enumerate lines)).
  { rewrite Forall_forall in FL, PL. apply Forall_forall. intros [n line] Hin.
    apply in_enumerate in Hin. apply nth_error_In in Hin. cbn [snd].
    split; [apply FL | apply PL]; exact Hin. }
  rewrite Clusters_init_unfold in L.
  destruct (expansion_loop lines (enumerate lines) FL F (empty_clusters lines) self
              EmptyString eq_refl L)
    as [dn [ds [dr [A1 [A2 [A3 [A4 [A5 A6]]]]]]]].
  cbn [empty_clusters names sequences number_reads app] in A1, A2, A3.
  exists (String.concat EmptyString (expand dn ds dr)).
  split; [exact A4|].
  rewrite (readlines_full_lines _ A5), A1, A2, A3.
  split; [reflexivity|].
  rewrite A6, to_nat_sum; [reflexivity|].
  rewrite <- A3.
  apply (Clusters_init_counts_nonneg lines). rewrite Clusters_init_unfold. exact L.
Qed.

Lemma clusters_to_single_reads_expands_witness :
  Clusters_init doc_example = Ok doc_clusters
  /\ Forall (fun line => full_line line = true) doc_example
  /\ Forall (fun line => plain_header line = true) doc_example
  /\ exists out,
      clusters_to_single_reads doc_example = Ok out
      /\ readlines out
         = expand (names doc_clusters) (sequences doc_clusters) (number_reads doc_clusters)
      /\ List.length (readlines out) = (2 * Z.to_nat (sum (number_reads doc_clusters)))%nat.
Proof.
  assert (H1 : Clusters_init doc_example = Ok doc_clusters) by reflexivity.
  assert (H2 : Forall (fun line => full_line line = true) doc_example)
    by (repeat constructor).
  assert (H3 : Forall (fun line => plain_header line = true) doc_example)
    by (repeat constructor).
  split; [exact H1|]. split; [exact H2|]. split; [exact H3|].
  exact (clusters_to_single_reads_expands doc_example doc_clusters H1 H2 H3).
Defined.

(** ** Headers with a size annotation *)

Lemma span_digits_app (a r : string) (c : ascii) :
  only_digits a = true -> is_digit c = false ->
  span_digits (a ++ String c r) = (a, String c r).
Proof.
  intros Ha Hc. induction a as [|d a IH].
  - simpl. now rewrite Hc.
  - cbn [only_digits] in Ha. apply andb_prop in Ha. destruct Ha as [H1 H2].
    change (String d a ++ String c r) with (String d (a ++ String c r)).
    cbn [span_digits]. rewrite H1, (IH H2). reflexivity.
Qed.

Lemma header_scan (p t g : string) :
  mentions ";" p = false ->
  fst (span_digits t) = g -> g <> EmptyString ->
  search_size (p ++ ";size=" ++ t) = Some (String.length p, g).
Proof.
  intros Hp G N. induction p as [|c p IH].
  - change (EmptyString ++ ";size=" ++ t) with (String ";" ("size=" ++ t)).
    rewrite search_size_step. unfold size_tag_here.
    change (startswith ";size=" (String ";" ("size=" ++ t))) with true.
    change (drop 6 (String ";" ("size=" ++ t))) with t.
    pose proof (span_digits_head t) as Hh.
    destruct (span_digits t) as [[|d ds] r]; simpl in G; [congruence|].
    rewrite Hh. cbn [andb fst]. now rewrite G.
  - cbn [mentions] in Hp. apply orb_false_elim in Hp. destruct Hp as [H1 H2].
    change (String c p ++ ";size=" ++ t) with (String c (p ++ ";size=" ++ t)).
    rewrite search_size_step. unfold size_tag_here. cbn [startswith].
    assert (Es : Ascii.eqb ";" c = false) by (rewrite Ascii.eqb_sym; exact H1).
    rewrite Es. cbn [andb]. rewrite (IH H2). reflexivity.
Qed.

Lemma digit_not_space (c : ascii) : is_digit c = true -> is_space c = false.
Proof.
  unfold is_digit, is_space. intros H. apply andb_prop in H. destruct H as [H1 H2].
  apply Nat.leb_le in H1. apply Nat.leb_le in H2.
  destruct (Nat.leb_spec 9 (nat_of_ascii c)); destruct (Nat.leb_spec (nat_of_ascii c) 13);
    destruct (Nat.leb_spec 28 (nat_of_ascii c)); destruct (Nat.leb_spec (nat_of_ascii c) 32);
    simpl; try reflexivity; lia.
Qed.

Lemma rstrip_digits (d : string) :
  only_digits d = true -> d <> EmptyString -> rstrip (d ++ nl) = d.
Proof.
  induction d as [|c d IH]; [congruence|].
  cbn [only_digits]. intros H _. apply andb_prop in H. destruct H as [H1 H2].
  change (String c d ++ nl) with (String c (d ++ nl)). cbn [rstrip].
  destruct d as [|c' d'].
  - simpl. now rewrite (digit_not_space c H1).
  - rewrite (IH H2) by discriminate. reflexivity.
Qed.

Lemma rstrip_app (p x : string) :
  rstrip x <> EmptyString -> rstrip (p ++ x) = p ++ rstrip x.
Proof.
  intros H. induction p as [|c p IH]; [reflexivity|].
  change (String c p ++ x) with (String c (p ++ x)). cbn [rstrip]. rewrite IH.
  change (String c p ++ rstrip x) with (String c (p ++ rstrip x)).
  destruct (p ++ rstrip x) eqn:E; [|reflexivity].
  destruct p; simpl in E; [contradiction | discriminate].
Qed.

Lemma rstrip_header (name digits : string) :
  only_digits digits = true -> digits <> EmptyString ->
  rstrip (">" ++ name ++ ";size=" ++ digits ++ nl) = ">" ++ name ++ ";size=" ++ digits.
Proof.
  intros H N.
  replace (">" ++ name ++ ";size=" ++ digits ++ nl)
    with ((">" ++ name ++ ";size=") ++ (digits ++ nl))
    by (rewrite !string_app_assoc; reflexivity).
  rewrite rstrip_app; rewrite (rstrip_digits digits H N); [|exact N].
  rewrite !string_app_assoc. reflexivity.
Qed.

Lemma int_of_digits_from_grows (s : string) (acc : Z) :
  only_digits s = true -> 0 <= acc -> acc <= int_of_digits_from acc s.
Proof.
  revert acc. induction s as [|c s IH]; intros acc; cbn [int_of_digits_from only_digits];
    [lia|].
  intros H Ha. apply andb_prop in H. destruct H as [Hc Hs].
  unfold is_digit in Hc. apply andb_prop in Hc. destruct Hc as [Hc _].
  apply Nat.leb_le in Hc.
  assert (D : 0 <= digit_value c) by (unfold digit_value; lia).
  specialize (IH (10 * acc + digit_value c) Hs). lia.
Qed.

Lemma int_of_digits_from_app (a b : string) (acc : Z) :
  int_of_digits_from acc (a ++ b) = int_of_digits_from (int_of_digits_from acc a) b.
Proof.
  revert acc. induction a as [|c a IH]; intros acc; [reflexivity|].
  simpl. apply IH.
Qed.

(** Digits that follow the digits of a size make it at least ten times
    as large. *)
Lemma int_of_digits_app (a b : string) :
  only_digits a = true -> only_digits b = true -> b <> EmptyString ->
  10 * int_of_digits a <= int_of_digits (a ++ b).
Proof.
  intros Ha Hb Nb. unfold int_of_digits. rewrite int_of_digits_from_app.
  pose proof (int_of_digits_from_nonneg a 0 Ha (Z.le_refl 0)) as P.
  destruct b as [|c b]; [congruence|].
  cbn [int_of_digits_from only_digits] in *.
  apply andb_prop in Hb. destruct Hb as [Hc Hb].
  unfold is_digit in Hc. apply andb_prop in Hc. destruct Hc as [Hc _].
  apply Nat.leb_le in Hc.
  assert (D : 0 <= digit_value c) by (unfold digit_value; lia).
  pose proof (int_of_digits_from_grows b (10 * int_of_digits_from 0 a + digit_value c) Hb).
  lia.
Qed.

Lemma only_digits_app (a b : string) :
  only_digits a = true -> only_digits b = true -> only_digits (a ++ b) = true.
Proof.
  intros Ha Hb. induction a as [|c a IH]; [exact Hb|].
  cbn [only_digits] in *. apply andb_prop in Ha. destruct Ha as [H1 H2].
  change (String c a ++ b) with (String c (a ++ b)). cbn [only_digits].
  now rewrite H1, IH.
Qed.

Lemma py_round_nonneg (x : Q) (n : nat) : (0 <= x)%Q -> (0 <= Qnum (py_round x n)).
Proof.
  intros H.
  assert (P : (0 <= py_round x n)%Q).
  { rewrite py_round_value. pose proof (scale_positive n) as Hs.
    apply Qle_shift_div_l; [exact Hs|]. rewrite Qmult_0_l.
    change 0%Q with (inject_Z 0). rewrite <- Zle_Qle.
    etransitivity; [|apply round_half_even_floor].
    assert (C : Qfloor (inject_Z 0) <= Qfloor (x * inject_Z (10 ^ Z.of_nat n))).
    { apply Qfloor_resp_le. apply Qmult_le_0_compat; [exact H | apply Qlt_le_weak; exact Hs]. }
    rewrite Qfloor_Z in C. exact C. }
  unfold Qle in P. simpl in P. lia.
Qed.

(** A float that is not negative is printed as digits, a point and
    more. *)
Lemma str_float_nonneg (x : Q) :
  0 <= Qnum x ->
  exists a r, str_float x = a ++ String "." r
              /\ only_digits a = true /\ a <> EmptyString.
Proof.
  intros H. unfold str_float.
  destruct (Z.ltb_spec (Qnum x) 0); [lia|].
  change (EmptyString ++ ?y) with y.
  exists (str_int (Z.abs (Qnum x) / Z.pos (Qden x))). eexists.
  split; [reflexivity|].
  apply str_int_only_digits. apply Z.div_pos; lia.
Qed.

(** ** The two module-level writers on the lines of clusters *)

Lemma percentage_of_nonneg (n total : Z) :
  0 <= n -> 0 < total -> 0 <= Qnum (percentage_of n total).
Proof.
  intros Hn Ht. unfold percentage_of. apply py_round_nonneg.
  apply float_mul_nonneg; [|discriminate].
  apply binary64_nonneg.
  apply Qle_shift_div_l; [unfold Qlt; simpl; lia|].
  rewrite Qmult_0_l. unfold Qle. simpl. lia.
Qed.

Lemma write_body (sep : string) (fasta_in : list string) (number_reads : Z)
    (minimun_perc : Q) (out : string) (item : nat * string) :
  (let (number, line) := item in
   h <- first_is_gt line ;;
   if (h : bool) then
     n_search <- group_or_fail (search_size line) ;;
     let n := int_of_digits (snd n_search) in
     if Qle_bool (float_mul (inject_Z number_reads) minimun_perc) (inject_Z n) then
       p <- float_true_div n number_reads ;;
       sequence <- index_or_fail fasta_in (number + 1) ;;
       Ok (out ++ (rstrip line ++ sep ++ str_float (py_round (float_mul p 100) 2) ++ "%" ++ nl)
               ++ sequence)
     else Ok out
   else Ok out)
  = (p <- write_piece sep fasta_in number_reads minimun_perc item ;; Ok (out ++ p)).
Proof.
  unfold write_piece. destruct item as [number line].
  destruct (first_is_gt line) as [[|]|]; cbn [bind];
    [|now rewrite string_app_nil | reflexivity].
  destruct (group_or_fail (search_size line)) as [n_search|]; cbn [bind]; [|reflexivity].
  cbv zeta.
  destruct (Qle_bool _ _); cbn [bind]; [|now rewrite string_app_nil].
  destruct (float_true_div _ _); cbn [bind]; [|reflexivity].
  destruct (index_or_fail _ _); cbn [bind]; reflexivity.
Qed.

Lemma for_each_known_pieces {A : Type} (body : string -> A -> result string)
    (piece : A -> result string) (l : list A) (ps : list string) (out : string) :
  (forall out x, body out x = (p <- piece x ;; Ok (out ++ p))) ->
  map piece l = map Ok ps ->
  for_each body l out = Ok (out ++ String.concat EmptyString ps).
Proof.
  intros Hb. revert ps out. induction l as [|x l IH]; intros ps out E.
  - destruct ps; [|discriminate]. simpl. now rewrite string_app_nil.
  - destruct ps as [|p ps]; [discriminate|]. cbn [map] in E. inversion E as [[E1 E2]].
    cbn [for_each]. rewrite Hb, E1. cbn [bind]. rewrite (IH ps _ E2).
    rewrite string_concat_cons, string_app_assoc. reflexivity.
Qed.

Lemma plain_record_facts (name digits sequence : string) :
  plain_record (name, digits, sequence) = true ->
  mentions ";" name = false /\ mentions newline name = false
  /\ only_digits digits = true /\ digits <> EmptyString /\ 1 <= int_of_digits digits
  /\ mentions newline sequence = false /\ startswith ">" sequence = false.
Proof.
  unfold plain_record. intros H.
  repeat (apply andb_prop in H; destruct H as [H ?]).
  repeat match goal with
         | H : negb _ = true |- _ => apply negb_true_iff in H
         end.
  match goal with H : (1 <=? _) = true |- _ => apply Z.leb_le in H end.
  repeat split; try assumption.
  intros ->. change (int_of_digits EmptyString) with 0 in *. lia.
Qed.

Lemma header_line_scan (name digits : string) :
  mentions ";" name = false -> only_digits digits = true -> digits <> EmptyString ->
  first_is_gt (">" ++ name ++ ";size=" ++ digits ++ nl) = Ok true
  /\ search_size (">" ++ name ++ ";size=" ++ digits ++ nl)
     = Some (S (String.length name), digits).
Proof.
  intros Hn Hd Nd. split; [reflexivity|].
  change (">" ++ name ++ ";size=" ++ digits ++ nl)
    with (String ">" name ++ ";size=" ++ (digits ++ nl)).
  rewrite (header_scan (String ">" name) (digits ++ nl) digits).
  - reflexivity.
  - cbn [mentions]. now rewrite Hn.
  - unfold nl. rewrite span_digits_app; [reflexivity | exact Hd | reflexivity].
  - exact Nd.
Qed.

Lemma sequence_line_first (sequence : string) :
  startswith ">" sequence = false -> first_is_gt (sequence ++ nl) = Ok false.
Proof.
  destruct sequence as [|c s]; [reflexivity|].
  cbn [startswith]. rewrite andb_true_r. intros H.
  change (String c s ++ nl) with (String c (s ++ nl)). cbn [first_is_gt].
  now rewrite Ascii.eqb_sym, H.
Qed.

Lemma total_loop (records : list (string * string * string)) (idx : list nat) (acc : Z) :
  Forall (fun r => plain_record r = true) records ->
  List.length idx = List.length (cluster_lines records) ->
  for_each (fun acc item =>
              h <- first_is_gt (snd item) ;;
              if (h : bool) then
                n_search <- group_or_fail (search_size (snd item)) ;;
                Ok (acc + int_of_digits (snd n_search))
              else Ok acc)
           (combine idx (cluster_lines records)) acc
  = Ok (acc + total_size records).
Proof.
  intros F. revert idx acc. induction F as [|[[name digits] sequence] rs Hr _ IH];
    intros idx acc L.
  - destruct idx; [|discriminate]. simpl. f_equal. unfold total_size. simpl. lia.
  - destruct (plain_record_facts _ _ _ Hr) as [P1 [P2 [P3 [P4 [P5 [P6 P7]]]]]].
    cbn [cluster_lines flat_map app List.length] in L |- *. fold (cluster_lines rs) in L |- *.
    destruct idx as [|i1 [|i2 idx]]; try discriminate.
    cbn [combine for_each snd].
    destruct (header_line_scan name digits P1 P3 P4) as [H1 H2].
    rewrite H1. cbn [bind]. rewrite H2. cbn [group_or_fail bind snd].
    rewrite (sequence_line_first sequence P7). cbn [bind].
    rewrite IH by (simpl in L; lia).
    f_equal. unfold total_size. cbn [map fold_right]. unfold record_size at 2. cbn [fst snd].
    lia.
Qed.

Lemma total_size_positive (records : list (string * string * string)) :
  Forall (fun r => plain_record r = true) records ->
  0 <= total_size records /\ (records <> [] -> 1 <= total_size records).
Proof.
  induction 1 as [|[[name digits] sequence] rs Hr _ [IH1 IH2]].
  - split; [unfold total_size; simpl; lia | congruence].
  - destruct (plain_record_facts _ _ _ Hr) as [_ [_ [_ [_ [P5 _]]]]].
    unfold total_size in *. cbn [map fold_right]. unfold record_size at 1 3. cbn [fst snd].
    split; [lia | intros _; lia].
Qed.

(** What both writers write for the lines of clusters, line by line. *)
Lemma pieces_of_records (sep : string) (whole : list string) (total : Z) (perc : Q)
    (records : list (string * string * string)) (pre : list string) :
  whole = (pre ++ cluster_lines records)%list ->
  Forall (fun r => plain_record r = true) records ->
  total <> 0 ->
  map (write_piece sep whole total perc)
      (combine (seq (List.length pre) (List.length (cluster_lines records)))
               (cluster_lines records))
  = map Ok
      (flat_map (fun r =>
                   [ if Qle_bool (float_mul (inject_Z total) perc) (inject_Z (record_size r))
                     then written_header sep total r ++ (snd r ++ nl)
                     else EmptyString;
                     EmptyString ])
                records).
Proof.
  intros W F T. revert pre W. induction F as [|[[name digits] sequence] rs Hr _ IH];
    intros pre W; [reflexivity|].
  destruct (plain_record_facts _ _ _ Hr) as [P1 [P2 [P3 [P4 [P5 [P6 P7]]]]]].
  cbn [cluster_lines flat_map app List.length seq combine map].
  fold (cluster_lines rs).
  f_equal; [|f_equal].
  - unfold write_piece.
    destruct (header_line_scan name digits P1 P3 P4) as [H1 H2].
    rewrite H1. cbn [bind]. rewrite H2. cbn [group_or_fail bind snd]. cbv zeta.
    unfold record_size. cbn [fst snd].
    destruct (Qle_bool (float_mul (inject_Z total) perc) (inject_Z (int_of_digits digits)));
      [|reflexivity].
    unfold float_true_div. destruct (Z.eqb_spec total 0); [contradiction|]. cbn [bind].
    assert (I : index_or_fail whole (List.length pre + 1) = Ok (sequence ++ nl)).
    { unfold index_or_fail. rewrite W, nth_error_app2 by lia.
      replace (List.length pre + 1 - List.length pre)%nat with 1%nat by lia.
      reflexivity. }
    rewrite I. cbn [bind]. rewrite (rstrip_header name digits P3 P4).
    unfold written_header. rewrite !string_app_assoc. reflexivity.
  - unfold write_piece. rewrite (sequence_line_first sequence P7). reflexivity.
  - specialize (IH (pre ++ [(">" ++ name ++ ";size=" ++ digits ++ nl)%string;
                            (sequence ++ nl)%string])%list).
    rewrite length_app in IH. cbn [List.length] in IH.
    replace (List.length pre + 2)%nat with (S (S (List.length pre))) in IH by lia.
    apply IH. rewrite W, <- app_assoc. reflexivity.
Qed.

Lemma written_lines (sep : string) (total : Z) (perc : Q)
    (records : list (string * string * string)) :
  String.concat EmptyString
    (flat_map (fun r =>
                 [ if Qle_bool (float_mul (inject_Z total) perc) (inject_Z (record_size r))
                   then written_header sep total r ++ (snd r ++ nl)
                   else EmptyString;
                   EmptyString ])
              records)
  = String.concat EmptyString
      (flat_map (fun r => [written_header sep total r; snd r ++ nl])
                (filter (fun r => Qle_bool (float_mul (inject_Z total) perc)
                                           (inject_Z (record_size r)))
                        records)).
Proof.
  induction records as [|r rs IH]; [reflexivity|].
  cbn [flat_map filter app]. rewrite !string_concat_cons, IH.
  destruct (Qle_bool (float_mul (inject_Z total) perc) (inject_Z (record_size r))).
  - cbn [flat_map app]. rewrite !string_concat_cons, string_app_assoc. reflexivity.
  - reflexivity.
Qed.

Lemma str_digits_mentions (c : ascii) (fuel : nat) (n : Z) (acc : string) :
  is_digit c = false -> mentions c acc = false ->
  mentions c (str_digits fuel n acc) = false.
Proof.
  intros Hc. revert n acc. induction fuel as [|fuel IH]; intros n acc H; [exact H|].
  cbn [str_digits].
  assert (H' : mentions c (String (digit_char (n mod 10)) acc) = false).
  { cbn [mentions]. rewrite H, orb_false_r.
    destruct (Ascii.eqb_spec (digit_char (n mod 10)) c) as [E|E]; [|reflexivity].
    rewrite <- E, digit_char_is_digit in Hc; [discriminate|].
    apply Z.mod_pos_bound. lia. }
  destruct (n <? 10); [exact H' | apply IH; exact H'].
Qed.

Lemma str_int_mentions (c : ascii) (n : Z) :
  is_digit c = false -> Ascii.eqb "-" c = false -> mentions c (str_int n) = false.
Proof.
  intros Hc Hm. unfold str_int. destruct (n <? 0).
  - cbn [mentions]. rewrite Hm. cbn [orb]. now apply str_digits_mentions.
  - now apply str_digits_mentions.
Qed.

Lemma frac_digits_mentions (c : ascii) (fuel : nat) (r d : Z) :
  is_digit c = false -> 0 <= r < d -> mentions c (frac_digits fuel r d) = false.
Proof.
  intros Hc. revert r. induction fuel as [|fuel IH]; intros r H; [reflexivity|].
  cbn [frac_digits]. destruct (r =? 0); [reflexivity|].
  cbn [mentions]. rewrite IH by (apply Z.mod_pos_bound; lia). rewrite orb_false_r.
  destruct (Ascii.eqb_spec (digit_char (10 * r / d)) c) as [E|E]; [|reflexivity].
  rewrite <- E, digit_char_is_digit in Hc; [discriminate|].
  split; [apply Z.div_pos; lia | apply Z.div_lt_upper_bound; lia].
Qed.

Lemma str_float_mentions (c : ascii) (x : Q) :
  is_digit c = false -> Ascii.eqb "-" c = false -> Ascii.eqb "." c = false ->
  mentions c (str_float x) = false.
Proof.
  intros Hc Hm Hp. unfold str_float.
  rewrite !mentions_app, (str_int_mentions c _ Hc Hm).
  assert (F : mentions c (frac_digits 17 (Z.abs (Qnum x) mod Z.pos (Qden x))
                                      (Z.pos (Qden x))) = false).
  { apply frac_digits_mentions; [exact Hc | apply Z.mod_pos_bound; lia]. }
  assert (M : mentions c (if Qnum x <? 0 then "-" else EmptyString) = false).
  { destruct (Qnum x <? 0); [|reflexivity]. cbn [mentions]. now rewrite Hm. }
  rewrite M. cbn [mentions orb]. rewrite Hp. cbn [orb].
  destruct (frac_digits 17 (Z.abs (Qnum x) mod Z.pos (Qden x)) (Z.pos (Qden x)));
    [|exact F].
  cbn [mentions]. rewrite orb_false_r.
  destruct (Ascii.eqb_spec "0" c) as [E|E]; [|reflexivity].
  rewrite <- E in Hc. discriminate.
Qed.

Lemma written_header_full_line (sep : string) (total : Z) (r : string * string * string) :
  plain_record r = true -> mentions newline sep = false ->
  full_line (written_header sep total r) = true
  /\ startswith ">" (written_header sep total r) = true.
Proof.
  destruct r as [[name digits] sequence]. intros Hr Hsep.
  destruct (plain_record_facts _ _ _ Hr) as [P1 [P2 [P3 [P4 [P5 [P6 P7]]]]]].
  unfold written_header. split; [|reflexivity].
  set (q := percentage_of (int_of_digits digits) total).
  replace (">" ++ name ++ ";size=" ++ digits ++ sep ++ str_float q ++ "%" ++ nl)
    with ((">" ++ name ++ ";size=" ++ digits ++ sep ++ str_float q ++ "%") ++ nl)
    by (rewrite !string_app_assoc; reflexivity).
  apply full_line_terminated.
  rewrite !mentions_app, P2, Hsep.
  rewrite (only_digits_mentions newline digits eq_refl P3).
  rewrite (str_float_mentions newline q eq_refl eq_refl eq_refl).
  reflexivity.
Qed.

(** The text of the output file of either writer. *)
Lemma writers_output (sep : string) (records : list (string * string * string)) (perc : Q) :
  Forall (fun r => plain_record r = true) records ->
  mentions newline sep = false ->
  let out := String.concat EmptyString
               (flat_map (fun r => [written_header sep (total_size records) r; snd r ++ nl])
                         (kept records perc)) in
  for_each (fun out item => p <- write_piece sep (cluster_lines records)
                                   (total_size records) perc item ;;
                            Ok (out ++ p))
           (enumerate (cluster_lines records)) EmptyString
  = Ok out
  /\ readlines out
     = flat_map (fun r => [written_header sep (total_size records) r; snd r ++ nl])
                (kept records perc).
Proof.
  intros F Hsep out. split.
  - destruct records as [|r0 rs]; [reflexivity|].
    assert (T : total_size (r0 :: rs) <> 0).
    { destruct (total_size_positive _ F) as [_ P].
      assert (1 <= total_size (r0 :: rs)) by (apply P; discriminate). lia. }
    refine (eq_trans
              (for_each_known_pieces _ (write_piece sep (cluster_lines (r0 :: rs))
                                          (total_size (r0 :: rs)) perc)
                 _ _ EmptyString (fun out x => eq_refl)
                 (pieces_of_records sep _ _ perc (r0 :: rs) [] eq_refl F T)) _).
    rewrite written_lines. reflexivity.
  - apply readlines_full_lines. unfold kept.
    apply Forall_forall. intros p Hin. apply in_flat_map in Hin.
    destruct Hin as [r [Hr Hp]]. apply filter_In in Hr. destruct Hr as [Hr _].
    rewrite Forall_forall in F. specialize (F r Hr).
    destruct Hp as [<-|[<-|[]]].
    + apply written_header_full_line; assumption.
    + destruct r as [[name digits] sequence]. cbn [snd].
      apply full_line_terminated.
      destruct (plain_record_facts _ _ _ F) as [_ [_ [_ [_ [_ [P6 _]]]]]]. exact P6.
Qed.

Lemma read_back_loop {R : Type} (hdr seqline : R -> string) (rs : list R) :
  (forall r, In r rs -> startswith ">" (hdr r) = true /\ startswith ">" (seqline r) = false) ->
  forall (idx : list nat) (c c' : Clusters),
    List.length idx = List.length (flat_map (fun r => [hdr r; seqline r]) rs) ->
    for_each Clusters_init_line (combine idx (flat_map (fun r => [hdr r; seqline r]) rs)) c
    = Ok c' ->
    number_reads c' = (number_reads c ++ map (fun r => read_size (hdr r)) rs)%list.
Proof.
  induction rs as [|r rs IH]; intros H idx c c' L E.
  - destruct idx; [|discriminate]. simpl in E. inversion E. subst.
    simpl. now rewrite app_nil_r.
  - cbn [flat_map app List.length] in L, E.
    destruct idx as [|i1 [|i2 idx]]; try discriminate.
    cbn [combine for_each] in E.
    destruct (H r) as [H1 H2]; [now left|].
    destruct (Clusters_init_line c (i1, hdr r)) as [c1|] eqn:E1; cbn [bind] in E;
      [|discriminate].
    rewrite (Clusters_init_line_other c1 i2 (seqline r) H2) in E. cbn [bind] in E.
    rewrite (IH (fun r' Hr' => H r' (or_intror Hr')) idx c1 c' ltac:(simpl in L; lia) E).
    unfold Clusters_init_line in E1. rewrite H1 in E1.
    destruct (search_size (hdr r)) as [[i g]|] eqn:G; cbn [group_or_fail bind] in E1;
      [|discriminate].
    assert (RS : read_size (hdr r) = int_of_digits g)
      by (unfold read_size; rewrite G; reflexivity).
    destruct (search_percent (hdr r)) as [t|]; cbn [group_or_fail bind] in E1;
      [|discriminate].
    destruct (float_of_text t) as [q|]; cbn [bind] in E1; [|discriminate].
    destruct (index_or_fail (fasta_file c) (i1 + 1)) as [sequence|];
      cbn [bind] in E1; [|discriminate].
    injection E1 as <-. cbn [number_reads map fst snd].
    rewrite RS, <- app_assoc. reflexivity.
Qed.

Lemma read_size_underscore (total : Z) (r : string * string * string) :
  plain_record r = true -> read_size (written_header "_" total r) = record_size r.
Proof.
  destruct r as [[name digits] sequence]. intros Hr.
  destruct (plain_record_facts _ _ _ Hr) as [P1 [P2 [P3 [P4 _]]]].
  unfold read_size, written_header, record_size. cbn [fst snd].
  set (q := percentage_of (int_of_digits digits) total).
  change (">" ++ name ++ ";size=" ++ digits ++ "_" ++ str_float q ++ "%" ++ nl)
    with (String ">" name ++ ";size=" ++ (digits ++ String "_" (str_float q ++ "%" ++ nl))).
  rewrite (header_scan (String ">" name) _ digits); [reflexivity | | | exact P4].
  - cbn [mentions]. now rewrite P1.
  - rewrite span_digits_app; [reflexivity | exact P3 | reflexivity].
Qed.

Lemma read_size_no_separator (total : Z) (r : string * string * string) :
  plain_record r = true -> 0 < total ->
  10 * record_size r <= read_size (written_header EmptyString total r).
Proof.
  destruct r as [[name digits] sequence]. intros Hr T.
  destruct (plain_record_facts _ _ _ Hr) as [P1 [P2 [P3 [P4 [P5 _]]]]].
  unfold read_size, written_header, record_size. cbn [fst snd].
  set (q := percentage_of (int_of_digits digits) total).
  assert (Q0 : 0 <= Qnum q).
  { apply percentage_of_nonneg; lia. }
  destruct (str_float_nonneg q Q0) as [a [rest [E [A1 A2]]]].
  rewrite E.
  replace (">" ++ name ++ ";size=" ++ digits ++ EmptyString
           ++ (a ++ String "." rest) ++ "%" ++ nl)
    with (String ">" name ++ ";size=" ++ ((digits ++ a) ++ String "." (rest ++ "%" ++ nl))).
  - rewrite (header_scan (String ">" name) _ (digits ++ a)).
    + apply int_of_digits_app; assumption.
    + cbn [mentions]. now rewrite P1.
    + rewrite span_digits_app; [reflexivity | | reflexivity].
      apply only_digits_app; assumption.
    + destruct digits; [congruence | discriminate].
  - cbn [String.append]. f_equal. rewrite !string_app_assoc. reflexivity.
Qed.

Lemma for_each_ext {A S : Type} (body body' : S -> A -> result S) (l : list A) (s : S) :
  (forall s a, body s a = body' s a) -> for_each body l s = for_each body' l s.
Proof.
  intros H. revert s. induction l as [|a l IH]; intros s; [reflexivity|].
  cbn [for_each]. rewrite H. destruct (body' s a); cbn [bind]; [apply IH | reflexivity].
Qed.

Lemma filter_function_output (records : list (string * string * string)) (perc : Q) :
  Forall (fun r => plain_record r = true) records ->
  filtering_fastaclusters_by_percentage (cluster_lines records) perc
  = Ok (String.concat EmptyString
          (flat_map (fun r => [written_header "_" (total_size records) r; snd r ++ nl])
                    (kept records perc))).
Proof.
  intros F. unfold filtering_fastaclusters_by_percentage.
  unfold enumerate at 1. rewrite (total_loop records _ 0 F) by apply length_seq.
  cbn [bind]. rewrite Z.add_0_l.
  rewrite (for_each_ext _ _ _ _
             (write_body "_" (cluster_lines records) (total_size records) perc)).
  exact (proj1 (writers_output "_" records perc F eq_refl)).
Qed.

Lemma writing_function_output (records : list (string * string * string)) (perc : Q) :
  Forall (fun r => plain_record r = true) records ->
  writing_percentage_to_clusters (cluster_lines records) perc
  = Ok (String.concat EmptyString
          (flat_map (fun r => [written_header EmptyString (total_size records) r;
                               snd r ++ nl])
                    (kept records perc))).
Proof.
  intros F. unfold writing_percentage_to_clusters.
  unfold enumerate at 1. rewrite (total_loop records _ 0 F) by apply length_seq.
  cbn [bind]. rewrite Z.add_0_l.
  rewrite (for_each_ext _ _ _ _
             (write_body EmptyString (cluster_lines records) (total_size records) perc)).
  exact (proj1 (writers_output EmptyString records perc F eq_refl)).
Qed.

Lemma read_back_sizes (sep : string) (records : list (string * string * string)) (perc : Q)
    (self : Clusters) :
  Forall (fun r => plain_record r = true) records ->
  mentions newline sep = false ->
  Clusters_init (flat_map (fun r => [written_header sep (total_size records) r; snd r ++ nl])
                          (kept records perc))
  = Ok self ->
  number_reads self
  = map (fun r => read_size (written_header sep (total_size records) r)) (kept records perc).
Proof.
  intros F Hsep L. rewrite Clusters_init_unfold in L. unfold enumerate in L.
  assert (H : forall r, In r (kept records perc) ->
                startswith ">" (written_header sep (total_size records) r) = true
                /\ startswith ">" (snd r ++ nl) = false).
  2: { rewrite (read_back_loop (written_header sep (total_size records))
                  (fun r => snd r ++ nl) (kept records perc) H _ _ self
                  (length_seq _ _) L).
       reflexivity. }
  intros r Hr. unfold kept in Hr. apply filter_In in Hr. destruct Hr as [Hr _].
  rewrite Forall_forall in F. specialize (F r Hr).
  split; [apply written_header_full_line; assumption|].
  destruct r as [[name digits] sequence]. cbn [snd].
  destruct (plain_record_facts _ _ _ F) as [_ [_ [_ [_ [_ [_ P7]]]]]].
  destruct sequence as [|c s]; [reflexivity|].
  cbn [startswith] in *. exact P7.
Qed.

(** X21.  On the lines of clusters [>name;size=<digits>] and a
    sequence, names without [;], sizes of 1 or more,
    [filtering_fastaclusters_by_percentage] returns; it writes, for the
    clusters whose size is at least the product of floats
    [total * minimun_perc], the header with [_], the percentage as the
    floats give it, rounded to two decimals, and [%] appended, and the
    sequence line; and whenever the file it wrote is loaded with
    [Clusters.__init__], the sizes read are the sizes of these
    clusters. *)
Theorem filter_function_sizes_read_back
    (records : list (string * string * string)) (minimun_perc : Q) :
  Forall (fun r => plain_record r = true) records ->
  exists out,
    filtering_fastaclusters_by_percentage (cluster_lines records) minimun_perc = Ok out
    /\ readlines out
       = flat_map (fun r => [written_header "_" (total_size records) r; snd r ++ nl])
                  (kept records minimun_perc)
    /\ forall self,
        Clusters_init (readlines out) = Ok self ->
        number_reads self = map record_size (kept records minimun_perc).
Proof.
  intros F. eexists. split; [exact (filter_function_output records minimun_perc F)|].
  pose proof (proj2 (writers_output "_" records minimun_perc F eq_refl)) as RL.
  cbv zeta in RL. split; [exact RL|].
  intros self L. rewrite RL in L.
  rewrite (read_back_sizes "_" records minimun_perc self F eq_refl L).
  apply map_ext_in. intros r Hr. apply read_size_underscore.
  unfold kept in Hr. apply filter_In in Hr. destruct Hr as [Hr _].
  rewrite Forall_forall in F. exact (F r Hr).
Qed.

(** X22.  On the same lines [writing_percentage_to_clusters] returns
    and writes the same clusters, the percentage appended to the header
    without a separator; whenever the file it wrote is loaded with
    [Clusters.__init__], each size read is at least ten times the size
    of the cluster: the digits of the percentage are read as digits of
    the size. *)
Theorem writing_percentage_sizes_grow
    (records : list (string * string * string)) (minimun_perc : Q) :
  Forall (fun r => plain_record r = true) records ->
  exists out,
    writing_percentage_to_clusters (cluster_lines records) minimun_perc = Ok out
    /\ readlines out
       = flat_map (fun r => [written_header EmptyString (total_size records) r;
                             snd r ++ nl])
                  (kept records minimun_perc)
    /\ forall self,
        Clusters_init (readlines out) = Ok self ->
        Forall2 (fun r n => 10 * record_size r <= n)
                (kept records minimun_perc) (number_reads self).
Proof.
  intros F. eexists. split; [exact (writing_function_output records minimun_perc F)|].
  pose proof (proj2 (writers_output EmptyString records minimun_perc F eq_refl)) as RL.
  cbv zeta in RL. split; [exact RL|].
  intros self L. rewrite RL in L.
  rewrite (read_back_sizes EmptyString records minimun_perc self F eq_refl L).
  assert (K : forall r, In r (kept records minimun_perc) ->
                        10 * record_size r
                        <= read_size (written_header EmptyString (total_size records) r)).
  { intros r Hr. unfold kept in Hr. apply filter_In in Hr. destruct Hr as [Hr _].
    apply read_size_no_separator.
    - rewrite Forall_forall in F. exact (F r Hr).
    - destruct (total_size_positive records F) as [_ P].
      assert (1 <= total_size records) by (apply P; intros ->; destruct Hr). lia. }
  clear RL L. revert K. generalize (kept records minimun_perc). intros l K.
  induction l as [|r rs IH]; [constructor|].
  cbn [map]. constructor; [apply K; now left | apply IH; intros; apply K; now right].
Qed.

Lemma filter_function_sizes_read_back_witness :
  Forall (fun r => plain_record r = true) vsearch_example
  /\ exists out,
      filtering_fastaclusters_by_percentage (cluster_lines vsearch_example) 0 = Ok out
      /\ readlines out
         = flat_map (fun r => [written_header "_" (total_size vsearch_example) r;
                               snd r ++ nl])
                    (kept vsearch_example 0)
      /\ forall self,
          Clusters_init (readlines out) = Ok self ->
          number_reads self = map record_size (kept vsearch_example 0).
Proof.
  assert (H : Forall (fun r => plain_record r = true) vsearch_example)
    by (repeat constructor).
  split; [exact H|].
  exact (filter_function_sizes_read_back vsearch_example 0 H).
Defined.

Lemma writing_percentage_sizes_grow_witness :
  Forall (fun r => plain_record r = true) vsearch_example
  /\ exists out,
      writing_percentage_to_clusters (cluster_lines vsearch_example) 0 = Ok out
      /\ readlines out
         = flat_map (fun r => [written_header EmptyString (total_size vsearch_example) r;
                               snd r ++ nl])
                    (kept vsearch_example 0)
      /\ forall self,
          Clusters_init (readlines out) = Ok self ->
          Forall2 (fun r n => 10 * record_size r <= n)
                  (kept vsearch_example 0) (number_reads self).
Proof.
  assert (H : Forall (fun r => plain_record r = true) vsearch_example)
    by (repeat constructor).
  split; [exact H|].
  exact (writing_percentage_sizes_grow vsearch_example 0 H).
Defined.

(** On the two clusters of 180 and 20 reads: the file written with the
    underscore loads with the sizes 180 and 20, the file written
    without it loads with 18090 and 2010. *)
Example sizes_read_back_example :
  (exists out self,
      filtering_fastaclusters_by_percentage (cluster_lines vsearch_example) 0 = Ok out
      /\ Clusters_init (readlines out) = Ok self
      /\ names self = ["ReadA"; "ReadB"]
      /\ number_reads self = [180; 20])
  /\ (exists out self,
         writing_percentage_to_clusters (cluster_lines vsearch_example) 0 = Ok out
         /\ out = ">ReadA;size=18090.0%" ++ nl ++ "AAATTTCCCGGG" ++ nl
                  ++ ">ReadB;size=2010.0%" ++ nl ++ "TTTAAATTTGGG" ++ nl
         /\ Clusters_init (readlines out) = Ok self
         /\ number_reads self = [18090; 2010]).
Proof.
  split.
  - eexists. eexists. split; [vm_compute; reflexivity|].
    split; [vm_compute; reflexivity|]. split; reflexivity.
  - eexists. eexists. split; [vm_compute; reflexivity|].
    split; [reflexivity|]. split; [vm_compute; reflexivity | reflexivity].
Qed.

(** At the edge of the float arithmetic.  Of 160 reads the 23 are
    14.375 percent; the floats give 14.374999999999998, and 14.37 is
    written.  Of the clusters of 7 and 93 reads the fraction 0.07 keeps
    the second only: the product of floats is above 7. *)
Example writers_float_example :
  filtering_fastaclusters_by_percentage
    (cluster_lines [("a", "23", "AAA"); ("b", "137", "CCC")]) 0
  = Ok (">a;size=23_14.37%" ++ nl ++ "AAA" ++ nl
        ++ ">b;size=137_85.62%" ++ nl ++ "CCC" ++ nl)
  /\ writing_percentage_to_clusters
       (cluster_lines [("a", "23", "AAA"); ("b", "137", "CCC")]) 0
     = Ok (">a;size=2314.37%" ++ nl ++ "AAA" ++ nl
           ++ ">b;size=13785.62%" ++ nl ++ "CCC" ++ nl)
  /\ kept [("a", "7", "AAA"); ("b", "93", "CCC")] (7 # 100) = [("b", "93", "CCC")]
  /\ filtering_fastaclusters_by_percentage
       (cluster_lines [("a", "7", "AAA"); ("b", "93", "CCC")]) (7 # 100)
     = Ok (">b;size=93_93.0%" ++ nl ++ "CCC" ++ nl).
Proof. repeat split; vm_compute; reflexivity. Qed.

(** ** multiline_fasta_to_singleline *)

Lemma sub_semicolon_bar_cons (c : ascii) (s : string) :
  Ascii.eqb c ";" = false ->
  sub_semicolon_bar (String c s) = String c (sub_semicolon_bar s).
Proof.
  intros H. cbn [sub_semicolon_bar]. rewrite H. cbn [andb].
  destruct s; reflexivity.
Qed.

Lemma sub_semicolon_bar_plain (s rest : string) :
  mentions ";" s = false ->
  sub_semicolon_bar (s ++ rest) = s ++ sub_semicolon_bar rest.
Proof.
  induction s as [|c s IH]; [reflexivity|].
  cbn [mentions]. intros H. apply orb_false_elim in H. destruct H as [H1 H2].
  change (String c s ++ rest) with (String c (s ++ rest)).
  rewrite sub_semicolon_bar_cons by exact H1. rewrite (IH H2). reflexivity.
Qed.

Lemma sub_semicolon_bar_step (c c2 : ascii) (r : string) :
  sub_semicolon_bar (String c (String c2 r))
  = if Ascii.eqb c ";" && Ascii.eqb c2 "|"
    then String newline (sub_semicolon_bar r)
    else String c (sub_semicolon_bar (String c2 r)).
Proof. reflexivity. Qed.

Lemma sub_semicolon_bar_header (h rest : string) :
  mentions "|" h = false ->
  sub_semicolon_bar (h ++ String ";" (String "|" rest))
  = h ++ String newline (sub_semicolon_bar rest).
Proof.
  induction h as [|c h IH]; [reflexivity|].
  cbn [mentions]. intros H. apply orb_false_elim in H. destruct H as [H1 H2].
  change (String c h ++ String ";" (String "|" rest))
    with (String c (h ++ String ";" (String "|" rest))).
  specialize (IH H2).
  destruct (h ++ String ";" (String "|" rest)) as [|c2 r] eqn:E.
  - destruct h; discriminate.
  - assert (N : Ascii.eqb c2 "|" = false).
    { destruct h as [|c3 h']; simpl in E; inversion E; subst; [reflexivity|].
      cbn [mentions] in H2. apply orb_false_elim in H2. tauto. }
    rewrite sub_semicolon_bar_step, N, andb_false_r, IH. reflexivity.
Qed.

Lemma sub_semicolon_bar_id (s : string) :
  mentions ";" s = false -> sub_semicolon_bar s = s.
Proof.
  intros H. pose proof (sub_semicolon_bar_plain s EmptyString H) as P.
  cbn [sub_semicolon_bar] in P. rewrite !string_app_nil in P. exact P.
Qed.

Lemma remove_bars_app (a b : string) :
  remove_bars (a ++ b) = remove_bars a ++ remove_bars b.
Proof.
  induction a as [|c a IH]; [reflexivity|].
  change (String c a ++ b) with (String c (a ++ b)). cbn [remove_bars].
  destruct (Ascii.eqb c "|"); rewrite IH; reflexivity.
Qed.

Lemma remove_bars_plain (s : string) : mentions "|" s = false -> remove_bars s = s.
Proof.
  induction s as [|c s IH]; [reflexivity|].
  cbn [mentions remove_bars]. intros H. apply orb_false_elim in H. destruct H as [H1 H2].
  now rewrite H1, (IH H2).
Qed.

Lemma join_cons (x y : string) (l : list string) :
  String.concat "|" (x :: y :: l) = x ++ String "|" (String.concat "|" (y :: l)).
Proof. reflexivity. Qed.

Lemma rstrip_no_space (s : string) : no_space s = true -> rstrip (s ++ nl) = s.
Proof.
  induction s as [|c s IH]; [reflexivity|].
  cbn [no_space]. intros H. apply andb_prop in H. destruct H as [H1 H2].
  apply negb_true_iff in H1.
  change (String c s ++ nl) with (String c (s ++ nl)). cbn [rstrip].
  rewrite (IH H2). destruct s; [now rewrite H1 | reflexivity].
Qed.

Lemma rstrip_semicolon (p : string) : rstrip (p ++ ";" ++ nl) = p ++ ";".
Proof. rewrite rstrip_app; [reflexivity | discriminate]. Qed.

(** The line of a sequence after the first loop. *)
Lemma sequence_line_kept (s : string) :
  sequence_text s = true ->
  (if startswith ">" (s ++ nl) then nl ++ rstrip (s ++ nl) else rstrip (s ++ nl)) = s
  /\ mentions "|" s = false /\ mentions ";" s = false.
Proof.
  unfold sequence_text. intros H.
  repeat (apply andb_prop in H; destruct H as [H ?]).
  repeat match goal with
         | H : negb _ = true |- _ => apply negb_true_iff in H
         end.
  split; [|split; assumption].
  assert (S0 : startswith ">" (s ++ nl) = false).
  { destruct s as [|c s]; [reflexivity|]. cbn [startswith] in *. assumption. }
  rewrite S0. apply rstrip_no_space. assumption.
Qed.

(** The text made of the lines of a sequence followed by [tl]. *)
Lemma sequence_lines_text (seqs : list string) (tl : list string) :
  forallb sequence_text seqs = true -> seqs <> [] ->
  remove_bars
    (sub_semicolon_bar
       (String.concat "|"
          (map (fun line => if startswith ">" line then nl ++ rstrip line else rstrip line)
               (map (fun s => s ++ nl) seqs) ++ tl)))
  = String.concat EmptyString seqs
    ++ match tl with
       | [] => EmptyString
       | _ => remove_bars (sub_semicolon_bar (String.concat "|" tl))
       end.
Proof.
  induction seqs as [|s seqs IH]; [congruence|].
  cbn [forallb]. intros H _. apply andb_prop in H. destruct H as [Hs Hr].
  destruct (sequence_line_kept s Hs) as [K [B Sc]].
  cbn [map app]. rewrite K. rewrite string_concat_cons.
  destruct seqs as [|s2 seqs].
  - cbn [map app]. destruct tl as [|t tl].
    + cbn [String.concat]. rewrite (sub_semicolon_bar_id s Sc), (remove_bars_plain s B).
      rewrite !string_app_nil. reflexivity.
    + rewrite join_cons, (sub_semicolon_bar_plain s _ Sc).
      rewrite sub_semicolon_bar_cons by reflexivity.
      rewrite remove_bars_app, (remove_bars_plain s B). cbn [remove_bars].
      change (Ascii.eqb "|" "|") with true. cbv iota.
      cbn [String.concat]. rewrite string_app_nil. reflexivity.
  - specialize (IH Hr ltac:(discriminate)).
    cbn [map app] in IH |- *.
    destruct (sequence_line_kept s2) as [K2 _].
    { cbn [forallb] in Hr. apply andb_prop in Hr. tauto. }
    rewrite K2 in IH |- *.
    rewrite join_cons, (sub_semicolon_bar_plain s _ Sc).
    rewrite sub_semicolon_bar_cons by reflexivity.
    rewrite remove_bars_app, (remove_bars_plain s B). cbn [remove_bars].
    change (Ascii.eqb "|" "|") with true. cbv iota.
    rewrite IH, string_app_assoc. reflexivity.
Qed.

(** The text made of the lines of a record followed by [tl]. *)
Lemma record_lines_text (h : string) (seqs : list string) (tl : list string) :
  multiline_record (h, seqs) = true ->
  remove_bars
    (sub_semicolon_bar
       (String.concat "|"
          (map (fun line => if startswith ">" line then nl ++ rstrip line else rstrip line)
               ((">" ++ h ++ ";" ++ nl) :: map (fun s => s ++ nl) seqs) ++ tl)))
  = (nl ++ ">" ++ h ++ nl ++ String.concat EmptyString seqs)
    ++ match tl with
       | [] => EmptyString
       | _ => remove_bars (sub_semicolon_bar (String.concat "|" tl))
       end.
Proof.
  unfold multiline_record. cbn [fst snd]. intros H.
  apply andb_prop in H. destruct H as [H H3].
  apply andb_prop in H. destruct H as [H1 H2].
  apply negb_true_iff in H1.
  assert (N : seqs <> []) by (destruct seqs; [discriminate | discriminate]).
  pose proof (sequence_lines_text seqs tl H3 N) as T.
  cbn [map app].
  change (startswith ">" (">" ++ h ++ ";" ++ nl)) with true. cbv iota.
  change (">" ++ h ++ ";" ++ nl) with ((String ">" h) ++ ";" ++ nl).
  rewrite rstrip_semicolon.
  destruct (map (fun line => if startswith ">" line then (nl ++ rstrip line)%string
                             else rstrip line)
                (map (fun s => (s ++ nl)%string) seqs) ++ tl)%list as [|y l] eqn:E.
  - destruct seqs; [congruence | discriminate].
  - rewrite join_cons.
    replace ((nl ++ String ">" h ++ ";") ++ String "|" (String.concat "|" (y :: l)))
      with ((nl ++ String ">" h) ++ String ";" (String "|" (String.concat "|" (y :: l))))
      by (rewrite !string_app_assoc; reflexivity).
    rewrite sub_semicolon_bar_header.
    + rewrite remove_bars_app, remove_bars_plain.
      * cbn [remove_bars]. change (Ascii.eqb newline "|") with false. cbv iota.
        rewrite T. rewrite !string_app_assoc. reflexivity.
      * unfold nl. cbn [String.append mentions]. rewrite H1. reflexivity.
    + unfold nl. cbn [String.append mentions]. rewrite H1. reflexivity.
Qed.

Lemma records_text (records : list (string * list string)) :
  Forall (fun r => multiline_record r = true) records -> records <> [] ->
  remove_bars
    (sub_semicolon_bar
       (String.concat "|"
          (map (fun line => if startswith ">" line then nl ++ rstrip line else rstrip line)
               (multiline_lines records))))
  = String.concat EmptyString
      (map (fun r => nl ++ ">" ++ fst r ++ nl ++ String.concat EmptyString (snd r)) records).
Proof.
  induction 1 as [|[h seqs] rs Hr F IH]; [congruence|]. intros _.
  cbn [multiline_lines flat_map fst snd]. fold (multiline_lines rs).
  rewrite map_app.
  rewrite (record_lines_text h seqs _ Hr).
  cbn [map fst snd]. rewrite string_concat_cons.
  destruct rs as [|r2 rs].
  - cbn [multiline_lines flat_map map String.concat]. reflexivity.
  - rewrite <- IH by discriminate.
    destruct (map (fun line => if startswith ">" line then nl ++ rstrip line else rstrip line)
                  (multiline_lines (r2 :: rs))) eqn:E; [|reflexivity].
    destruct r2 as [h2 s2]. cbn [multiline_lines flat_map fst snd app map] in E. discriminate.
Qed.

Lemma shift_newline (B : string * list string -> string)
    (records : list (string * list string)) :
  records <> [] ->
  drop 1 (String.concat EmptyString (map (fun r => nl ++ B r) records)) ++ nl
  = String.concat EmptyString (map (fun r => B r ++ nl) records).
Proof.
  destruct records as [|r rs]; [congruence|]. intros _.
  cbn [map]. rewrite !string_concat_cons.
  change (drop 1 ((nl ++ B r) ++ ?x)) with (B r ++ x).
  revert r. induction rs as [|r2 rs IH]; intros r.
  - cbn [map String.concat]. rewrite !string_app_nil. reflexivity.
  - cbn [map]. rewrite !string_concat_cons.
    rewrite <- (IH r2). rewrite !string_app_assoc. reflexivity.
Qed.

Lemma drop_sub_remove (x : string) :
  remove_bars (sub_semicolon_bar (drop 1 (nl ++ x)))
  = drop 1 (remove_bars (sub_semicolon_bar (nl ++ x))).
Proof.
  change (nl ++ x) with (String newline x).
  rewrite sub_semicolon_bar_cons by reflexivity. reflexivity.
Qed.

(** X27.  On a file of records whose header lines end with [;], with
    one or more sequence lines each, free of blanks, [|] and [;],
    [multiline_fasta_to_singleline] writes of each record the header
    without its last [;] and the sequence lines joined in one line. *)
Theorem multiline_fasta_to_singleline_records (records : list (string * list string)) :
  Forall (fun r => multiline_record r = true) records -> records <> [] ->
  multiline_fasta_to_singleline (multiline_lines records) = singleline_text records.
Proof.
  intros F N. unfold multiline_fasta_to_singleline, singleline_text.
  pose proof (records_text records F N) as T.
  assert (D : exists x,
             String.concat "|"
               (map (fun line => if startswith ">" line then nl ++ rstrip line
                                 else rstrip line)
                    (multiline_lines records))
             = nl ++ x).
  { destruct records as [|[h seqs] rs]; [congruence|].
    cbn [multiline_lines flat_map fst snd app map].
    change (startswith ">" (">" ++ h ++ ";" ++ nl)) with true. cbv iota.
    match goal with
    | |- exists x, String.concat "|" ((nl ++ ?a) :: ?l) = _ =>
        destruct l as [|y l']; [exists a; reflexivity|];
        exists (a ++ String "|" (String.concat "|" (y :: l')))
    end.
    rewrite join_cons, string_app_assoc. reflexivity. }
  destruct D as [x D]. rewrite D in T |- *.
  rewrite drop_sub_remove, T.
  rewrite (shift_newline
             (fun r => ">" ++ fst r ++ nl ++ String.concat EmptyString (snd r)) records N).
  f_equal. apply map_ext. intros r. rewrite !string_app_assoc. reflexivity.
Qed.

Lemma multiline_fasta_to_singleline_records_witness :
  Forall (fun r => multiline_record r = true) multiline_example
  /\ multiline_example <> []
  /\ multiline_fasta_to_singleline (multiline_lines multiline_example)
     = singleline_text multiline_example.
Proof.
  assert (H1 : Forall (fun r => multiline_record r = true) multiline_example)
    by (repeat constructor).
  assert (H2 : multiline_example <> []) by discriminate.
  split; [exact H1|]. split; [exact H2|].
  exact (multiline_fasta_to_singleline_records multiline_example H1 H2).
Defined.

(** On two records: with the semicolon the name and the sequence are on
    lines of their own; without it they are written on one line. *)
Example multiline_fasta_to_singleline_example :
  multiline_fasta_to_singleline (multiline_lines multiline_example)
  = ">ReadA;size=180" ++ nl ++ "AAATTTCCCGGG" ++ nl
    ++ ">ReadB;size=20" ++ nl ++ "TTTAAA" ++ nl
  /\ multiline_fasta_to_singleline
       [ ">ReadA;size=180" ++ nl; "AAATTT" ++ nl; "CCCGGG" ++ nl ]
     = ">ReadA;size=180AAATTTCCCGGG" ++ nl.
Proof. split; reflexivity. Qed.

(** ** The percentage of a header *)

Lemma frac_digits_only_digits (fuel : nat) (r d : Z) :
  0 <= r < d -> only_digits (frac_digits fuel r d) = true.
Proof.
  revert r. induction fuel as [|fuel IH]; intros r H; [reflexivity|].
  cbn [frac_digits]. destruct (r =? 0); [reflexivity|].
  cbn [only_digits]. rewrite IH by (apply Z.mod_pos_bound; lia).
  rewrite digit_char_is_digit; [reflexivity|].
  split; [apply Z.div_pos; lia | apply Z.div_lt_upper_bound; lia].
Qed.

(** A float that is not negative is printed as digits, a point and
    digits. *)
Lemma str_float_digits (x : Q) :
  0 <= Qnum x ->
  exists a b, str_float x = a ++ String "." b
              /\ only_digits a = true /\ a <> EmptyString
              /\ only_digits b = true /\ b <> EmptyString.
Proof.
  intros H. unfold str_float.
  destruct (Z.ltb_spec (Qnum x) 0); [lia|].
  change (EmptyString ++ ?y) with y.
  exists (str_int (Z.abs (Qnum x) / Z.pos (Qden x))).
  exists (match frac_digits 17 (Z.abs (Qnum x) mod Z.pos (Qden x)) (Z.pos (Qden x)) with
          | EmptyString => "0"
          | String c f => String c f
          end).
  split; [|split; [|split; [|split]]].
  - destruct (frac_digits 17 _ _); reflexivity.
  - apply str_int_only_digits. apply Z.div_pos; lia.
  - apply str_int_only_digits. apply Z.div_pos; lia.
  - pose proof (frac_digits_only_digits 17 (Z.abs (Qnum x) mod Z.pos (Qden x))
                  (Z.pos (Qden x))) as F.
    destruct (frac_digits 17 _ _); [reflexivity|]. apply F. apply Z.mod_pos_bound. lia.
  - destruct (frac_digits 17 _ _); discriminate.
Qed.

Lemma drop_app (k : nat) (w rest : string) :
  (k <= String.length w)%nat -> drop k (w ++ rest) = drop k w ++ rest.
Proof.
  revert w. induction k as [|k IH]; intros w H; [destruct w; reflexivity|].
  destruct w as [|c w]; [simpl in H; lia|].
  cbn [drop String.append]. apply IH. simpl in H. lia.
Qed.

Lemma mentions_drop (c : ascii) (k : nat) (w : string) :
  mentions c w = false -> mentions c (drop k w) = false.
Proof.
  revert w. induction k as [|k IH]; intros w H; [destruct w; exact H|].
  destruct w as [|d w]; [reflexivity|].
  cbn [mentions] in H. apply orb_false_elim in H. cbn [drop]. apply IH. tauto.
Qed.

(** After the digits at the head of a text without a percent sign, up
    to a point, there is no percent sign. *)
Lemma span_digits_stop (x y : string) :
  mentions "%" x = false ->
  match snd (span_digits (x ++ String "." y)) with
  | String p _ => Ascii.eqb p "%" = false
  | EmptyString => True
  end.
Proof.
  induction x as [|c x IH]; intros H.
  - reflexivity.
  - cbn [mentions] in H. apply orb_false_elim in H. destruct H as [H1 H2].
    change (String c x ++ String "." y) with (String c (x ++ String "." y)).
    cbn [span_digits]. destruct (is_digit c).
    + specialize (IH H2). destruct (span_digits (x ++ String "." y)) as [d r]. exact IH.
    + cbn [snd]. exact H1.
Qed.

Lemma match_percent_with_none (k : nat) (w y : string) :
  mentions "%" w = false -> (k < String.length w)%nat ->
  match_percent_with k (w ++ String "." y) = None.
Proof.
  intros H L. unfold match_percent_with.
  rewrite drop_app by lia.
  destruct (drop k w) as [|c x] eqn:E.
  - exfalso. clear -E L. revert w E L. induction k as [|k IH]; intros w E L.
    + destruct w; [simpl in L; lia | discriminate].
    + destruct w as [|d w]; [simpl in L; lia|]. cbn [drop] in E.
      apply (IH w E). simpl in L. lia.
  - change (String c x ++ String "." y) with (String c (x ++ String "." y)).
    cbv beta iota. destruct (Ascii.eqb c newline); [reflexivity|].
    assert (Hx : mentions "%" x = false).
    { pose proof (mentions_drop "%" k w H) as M. rewrite E in M.
      cbn [mentions] in M. apply orb_false_elim in M. tauto. }
    pose proof (span_digits_stop x y Hx) as S.
    destruct (span_digits (x ++ String "." y)) as [[|d ds] [|p r]]; try reflexivity.
    cbn [snd] in S. rewrite S. reflexivity.
Qed.

Lemma match_percent_from_none (k : nat) (w y : string) :
  mentions "%" w = false -> (k < String.length w)%nat ->
  match_percent_from k (w ++ String "." y) = None.
Proof.
  intros H. induction k as [|k IH]; intros L; [reflexivity|].
  cbn [match_percent_from]. rewrite (match_percent_with_none (S k) w y H L).
  apply IH. lia.
Qed.

Lemma span_digits_length (a r : string) (c : ascii) :
  is_digit c = false ->
  (String.length (fst (span_digits (a ++ String c r))) <= String.length a)%nat.
Proof.
  intros Hc. induction a as [|d a IH].
  - simpl. rewrite Hc. simpl. lia.
  - change (String d a ++ String c r) with (String d (a ++ String c r)).
    cbn [span_digits]. destruct (is_digit d); [|simpl; lia].
    destruct (span_digits (a ++ String c r)) as [x y]. simpl in *. lia.
Qed.

Lemma string_length_app (a b : string) :
  String.length (a ++ b) = (String.length a + String.length b)%nat.
Proof. induction a as [|c a IH]; [reflexivity|]. simpl. now rewrite IH. Qed.

(** No percentage begins in a text without a percent sign that ends
    with an underscore, whatever digits, point and text follow. *)
Lemma match_percent_here_none (a i y : string) :
  mentions "%" a = false -> mentions "%" i = false ->
  match_percent_here ((a ++ String "_" i) ++ String "." y) = None.
Proof.
  intros Ha Hi. unfold match_percent_here.
  apply match_percent_from_none.
  - rewrite mentions_app. cbn [mentions]. now rewrite Ha, Hi.
  - rewrite string_app_assoc.
    change (String "_" i ++ String "." y) with (String "_" (i ++ String "." y)).
    pose proof (span_digits_length a (i ++ String "." y) "_" eq_refl) as L.
    rewrite string_length_app. cbn [String.length]. lia.
Qed.

Lemma match_percent_here_found (i f rest : string) :
  only_digits i = true -> i <> EmptyString ->
  only_digits f = true -> f <> EmptyString ->
  match_percent_here (i ++ String "." (f ++ String "%" rest)) = Some (i ++ String "." f).
Proof.
  intros Hi Ni Hf Nf. unfold match_percent_here.
  rewrite (span_digits_app i _ "." Hi eq_refl). cbn [fst].
  destruct i as [|d i']; [congruence|].
  cbn [String.length match_percent_from].
  assert (W : match_percent_with (S (String.length i'))
                (String d i' ++ String "." (f ++ String "%" rest))
              = Some (String d i' ++ String "." f)).
  { unfold match_percent_with.
    change (S (String.length i')) with (String.length (String d i')).
    rewrite drop_app by lia.
    assert (D : drop (String.length (String d i')) (String d i') = EmptyString).
    { generalize (String d i'). intros u. induction u as [|c u IH]; [reflexivity|].
      simpl. exact IH. }
    rewrite D. change (EmptyString ++ ?x) with x. cbv beta iota.
    change (Ascii.eqb "." newline) with false. cbv iota.
    rewrite (span_digits_app f rest "%" Hf eq_refl).
    destruct f as [|e f']; [congruence|].
    change (Ascii.eqb "%" "%") with true. cbv iota. f_equal.
    replace (String d i' ++ String "." (String e f' ++ String "%" rest))
      with ((String d i' ++ String "." (String e f')) ++ String "%" rest)
      by (rewrite string_app_assoc; reflexivity).
    replace (String.length (String d i') + 1 + String.length (String e f'))%nat
      with (String.length (String d i' ++ String "." (String e f'))).
    - apply take_length_app.
    - rewrite string_length_app. cbn [String.length]. lia. }
  rewrite W. reflexivity.
Qed.

Lemma sub_percent_skip (u v repl : string) :
  sub_percent_from (String.length u) repl (u ++ v) = sub_percent_from 0 repl v.
Proof.
  induction u as [|c u IH]; [reflexivity|].
  cbn [String.length String.append sub_percent_from]. exact IH.
Qed.

(** The substitution on a header that ends with an underscore and a
    percentage. *)
Lemma sub_percent_header (a i f repl : string) :
  mentions "%" a = false ->
  only_digits i = true -> i <> EmptyString ->
  only_digits f = true -> f <> EmptyString ->
  sub_percent repl ((a ++ String "_" i) ++ String "." (f ++ String "%" nl))
  = a ++ String "_" (repl ++ nl).
Proof.
  intros Ha Hi Ni Hf Nf. unfold sub_percent.
  assert (Pi : mentions "%" i = false) by (apply only_digits_mentions; [reflexivity | exact Hi]).
  induction a as [|c a IH].
  - pose proof (match_percent_here_none EmptyString i (f ++ String "%" nl) eq_refl Pi) as M.
    change ((EmptyString ++ String "_" i) ++ String "." (f ++ String "%" nl))
      with (String "_" (i ++ String "." (f ++ String "%" nl))) in M |- *.
    cbn [sub_percent_from]. rewrite M.
    change (EmptyString ++ String "_" (repl ++ nl)) with (String "_" (repl ++ nl)).
    f_equal.
    pose proof (match_percent_here_found i f nl Hi Ni Hf Nf) as G.
    destruct i as [|d i']; [congruence|].
    change (String d i' ++ String "." (f ++ String "%" nl))
      with (String d (i' ++ String "." (f ++ String "%" nl))) in G |- *.
    cbn [sub_percent_from]. rewrite G. f_equal.
    replace (i' ++ String "." (f ++ String "%" nl))
      with ((i' ++ String "." (f ++ "%")) ++ nl).
    + replace (String.length (String d i' ++ String "." f))
        with (String.length (i' ++ String "." (f ++ "%"))).
      * rewrite sub_percent_skip. reflexivity.
      * rewrite !string_length_app. cbn [String.length String.append].
        rewrite !string_length_app. cbn [String.length]. lia.
    + rewrite string_app_assoc. cbn [String.append]. rewrite string_app_assoc. reflexivity.
  - cbn [mentions] in Ha. apply orb_false_elim in Ha. destruct Ha as [H1 H2].
    pose proof (match_percent_here_none (String c a) i (f ++ String "%" nl)) as M.
    change ((String c a ++ String "_" i) ++ String "." (f ++ String "%" nl))
      with (String c ((a ++ String "_" i) ++ String "." (f ++ String "%" nl))) in M |- *.
    cbn [sub_percent_from]. rewrite M.
    + rewrite (IH H2). reflexivity.
    + cbn [mentions]. now rewrite H1, H2.
    + exact Pi.
Qed.

(** ** normalize_percentage after the filter *)

Lemma normalize_body (fasta_in : list string) (number_reads : Z) (out : string)
    (item : nat * string) :
  (let (number, line) := item in
   h <- first_is_gt line ;;
   if (h : bool) then
     n_search <- group_or_fail (search_size line) ;;
     let n := int_of_digits (snd n_search) in
     p <- float_true_div n number_reads ;;
     let new_n := py_round (float_mul 100 p) 2 in
     let new_line := sub_percent (str_float new_n) line in
     sequence <- index_or_fail fasta_in (number + 1) ;;
     Ok (out ++ (rstrip new_line ++ "%" ++ nl) ++ sequence)
   else Ok out)
  = (p <- normalize_piece fasta_in number_reads item ;; Ok (out ++ p)).
Proof.
  unfold normalize_piece. destruct item as [number line].
  destruct (first_is_gt line) as [[|]|]; cbn [bind];
    [|now rewrite string_app_nil | reflexivity].
  destruct (group_or_fail (search_size line)) as [n_search|]; cbn [bind]; [|reflexivity].
  cbv zeta.
  destruct (float_true_div _ _); cbn [bind]; [|reflexivity].
  destruct (index_or_fail _ _); cbn [bind]; reflexivity.
Qed.

Lemma percent_free_record_facts (r : string * string * string) :
  percent_free_record r = true ->
  plain_record r = true /\ mentions "%" (fst (fst r)) = false.
Proof.
  unfold percent_free_record. intros H. apply andb_prop in H. destruct H as [H1 H2].
  apply negb_true_iff in H2. now split.
Qed.

Ltac string_assoc :=
  repeat (rewrite ?string_app_assoc; cbn [String.append]); reflexivity.

(** A header written by the filter, seen by [normalize_percentage]. *)
Lemma filtered_header (total : Z) (name digits sequence : string) :
  percent_free_record (name, digits, sequence) = true -> 0 < total ->
  first_is_gt (written_header "_" total (name, digits, sequence)) = Ok true
  /\ search_size (written_header "_" total (name, digits, sequence))
     = Some (S (String.length name), digits)
  /\ forall q, 0 <= Qnum q ->
       rstrip (sub_percent (str_float q) (written_header "_" total (name, digits, sequence)))
       ++ "%" ++ nl
       = ">" ++ name ++ ";size=" ++ digits ++ "_" ++ str_float q ++ "%" ++ nl.
Proof.
  intros Hr T. destruct (percent_free_record_facts _ Hr) as [Hp Hn]. cbn [fst] in Hn.
  destruct (plain_record_facts _ _ _ Hp) as [P1 [P2 [P3 [P4 [P5 _]]]]].
  unfold written_header.
  set (P := percentage_of (int_of_digits digits) total).
  split; [reflexivity|]. split.
  - change (">" ++ name ++ ";size=" ++ digits ++ "_" ++ str_float P ++ "%" ++ nl)
      with (String ">" name ++ ";size=" ++ (digits ++ String "_" (str_float P ++ "%" ++ nl))).
    rewrite (header_scan (String ">" name) _ digits); [reflexivity | | | exact P4].
    + cbn [mentions]. now rewrite P1.
    + rewrite span_digits_app; [reflexivity | exact P3 | reflexivity].
  - intros q Hq.
    assert (P0 : 0 <= Qnum P).
    { apply percentage_of_nonneg; lia. }
    destruct (str_float_digits P P0) as [i [f [E [I1 [I2 [F1 F2]]]]]].
    destruct (str_float_digits q Hq) as [i' [f' [E' [I1' [I2' [F1' F2']]]]]].
    rewrite E.
    replace (">" ++ name ++ ";size=" ++ digits ++ "_" ++ (i ++ String "." f) ++ "%" ++ nl)
      with (((">" ++ name ++ ";size=" ++ digits) ++ String "_" i)
            ++ String "." (f ++ String "%" nl))
      by string_assoc.
    rewrite sub_percent_header; try assumption.
    + rewrite E'.
      replace ((">" ++ name ++ ";size=" ++ digits) ++ String "_" ((i' ++ String "." f') ++ nl))
        with (((">" ++ name ++ ";size=" ++ digits) ++ String "_" (i' ++ ".")) ++ (f' ++ nl))
        by string_assoc.
      rewrite rstrip_app; rewrite (rstrip_digits f' F1' F2'); [|exact F2'].
      string_assoc.
    + change (">" ++ name ++ ";size=" ++ digits) with (String ">" (name ++ ";size=" ++ digits)).
      cbn [mentions]. rewrite !mentions_app, Hn.
      rewrite (only_digits_mentions "%" digits eq_refl P3). reflexivity.
Qed.

Lemma total_loop_headers {R : Type} (hdr seqline : R -> string) (size : R -> Z)
    (rs : list R) :
  (forall r, In r rs ->
             first_is_gt (hdr r) = Ok true
             /\ (exists i g, search_size (hdr r) = Some (i, g) /\ int_of_digits g = size r)
             /\ first_is_gt (seqline r) = Ok false) ->
  forall (idx : list nat) (acc : Z),
    List.length idx = List.length (flat_map (fun r => [hdr r; seqline r]) rs) ->
    for_each (fun acc item =>
                h <- first_is_gt (snd item) ;;
                if (h : bool) then
                  n_search <- group_or_fail (search_size (snd item)) ;;
                  Ok (acc + int_of_digits (snd n_search))
                else Ok acc)
             (combine idx (flat_map (fun r => [hdr r; seqline r]) rs)) acc
    = Ok (acc + fold_right Z.add 0 (map size rs)).
Proof.
  induction rs as [|r rs IH]; intros H idx acc L.
  - destruct idx; [|discriminate]. simpl. f_equal. lia.
  - cbn [flat_map app List.length] in L |- *.
    destruct idx as [|i1 [|i2 idx]]; try discriminate.
    cbn [combine for_each snd].
    destruct (H r) as [H1 [[i [g [H2 H3]]] H4]]; [now left|].
    rewrite H1. cbn [bind]. rewrite H2. cbn [group_or_fail bind snd].
    rewrite H4. cbn [bind].
    rewrite (IH (fun r' Hr' => H r' (or_intror Hr')) idx _ ltac:(simpl in L; lia)).
    f_equal. cbn [map fold_right]. rewrite H3. lia.
Qed.

Lemma normalize_pieces (whole : list string) (total total' : Z)
    (rs : list (string * string * string)) (pre : list string) :
  whole = (pre ++ flat_map (fun r => [written_header "_" total r; (snd r ++ nl)%string]) rs)%list ->
  Forall (fun r => percent_free_record r = true) rs ->
  0 < total -> 0 < total' ->
  map (normalize_piece whole total')
      (combine (seq (List.length pre)
                    (List.length (flat_map (fun r => [written_header "_" total r;
                                                      (snd r ++ nl)%string]) rs)))
               (flat_map (fun r => [written_header "_" total r; (snd r ++ nl)%string]) rs))
  = map Ok (flat_map (fun r => [(written_header "_" total' r ++ (snd r ++ nl))%string;
                                EmptyString]) rs).
Proof.
  intros W F T T'. revert pre W. induction F as [|[[name digits] sequence] rs Hr _ IH];
    intros pre W; [reflexivity|].
  destruct (percent_free_record_facts _ Hr) as [Hp Hn].
  destruct (plain_record_facts _ _ _ Hp) as [P1 [P2 [P3 [P4 [P5 [P6 P7]]]]]].
  destruct (filtered_header total name digits sequence Hr T) as [H1 [H2 H3]].
  cbn [flat_map app List.length seq combine map snd].
  f_equal; [|f_equal].
  - unfold normalize_piece. rewrite H1. cbn [bind]. rewrite H2.
    cbn [group_or_fail bind snd]. cbv zeta.
    unfold float_true_div. destruct (Z.eqb_spec total' 0); [lia|]. cbn [bind].
    assert (I : index_or_fail whole (List.length pre + 1) = Ok (sequence ++ nl)).
    { unfold index_or_fail. rewrite W, nth_error_app2 by lia.
      replace (List.length pre + 1 - List.length pre)%nat with 1%nat by lia.
      reflexivity. }
    rewrite I. cbn [bind]. rewrite H3.
    + unfold written_header, percentage_of.
      rewrite (py_round_compat
                 (float_mul 100 (binary64 (inject_Z (int_of_digits digits) / inject_Z total')))
                 (float_mul (binary64 (inject_Z (int_of_digits digits) / inject_Z total')) 100)
                 2)
        by apply float_mul_comm.
      rewrite !string_app_assoc. reflexivity.
    + apply py_round_nonneg.
      apply float_mul_nonneg; [discriminate|].
      apply binary64_nonneg.
      apply Qle_shift_div_l; [unfold Qlt; simpl; lia|].
      rewrite Qmult_0_l. unfold Qle. simpl. lia.
  - unfold normalize_piece. rewrite (sequence_line_first sequence P7). reflexivity.
  - specialize (IH (pre ++ [written_header "_" total (name, digits, sequence);
                            (sequence ++ nl)%string])%list).
    rewrite length_app in IH. cbn [List.length] in IH.
    replace (List.length pre + 2)%nat with (S (S (List.length pre))) in IH by lia.
    apply IH. rewrite W, <- app_assoc. reflexivity.
Qed.

Lemma kept_all (rs : list (string * string * string)) :
  Forall (fun r => plain_record r = true) rs -> kept rs 0 = rs.
Proof.
  intros F. unfold kept. generalize (total_size rs). intros t.
  induction F as [|[[name digits] sequence] rs Hr _ IH]; [reflexivity|].
  cbn [filter]. rewrite IH.
  destruct (plain_record_facts _ _ _ Hr) as [_ [_ [_ [_ [P5 _]]]]].
  assert (S0 : Qle_bool (float_mul (inject_Z t) 0)
                        (inject_Z (record_size (name, digits, sequence)))
               = true).
  { apply Qle_bool_iff. rewrite float_mul_zero_r. unfold record_size. cbn [fst snd].
    unfold Qle. simpl. lia. }
  rewrite S0. reflexivity.
Qed.

Lemma pairs_text (X Y : string * string * string -> string)
    (rs : list (string * string * string)) :
  String.concat EmptyString (flat_map (fun r => [(X r ++ Y r)%string; EmptyString]) rs)
  = String.concat EmptyString (flat_map (fun r => [X r; Y r]) rs).
Proof.
  induction rs as [|r rs IH]; [reflexivity|].
  cbn [flat_map app]. rewrite !string_concat_cons, IH, string_app_assoc. reflexivity.
Qed.

(** X23.  On the lines of clusters whose names hold no [%] either,
    [normalize_percentage] applied to the file
    [filtering_fastaclusters_by_percentage] wrote gives the file the
    filter writes for the kept clusters alone with fraction 0: the
    percentages are those of the sizes in the total of the kept
    clusters.  The kept clusters are those whose size is at least the
    product of floats [total * minimun_perc]. *)
Theorem normalize_after_filter
    (records : list (string * string * string)) (minimun_perc : Q) :
  Forall (fun r => percent_free_record r = true) records ->
  exists out,
    filtering_fastaclusters_by_percentage (cluster_lines records) minimun_perc = Ok out
    /\ normalize_percentage (readlines out)
       = filtering_fastaclusters_by_percentage
           (cluster_lines (kept records minimun_perc)) 0.
Proof.
  intros F.
  assert (Fp : Forall (fun r => plain_record r = true) records).
  { apply Forall_forall. intros r Hr. rewrite Forall_forall in F.
    exact (proj1 (percent_free_record_facts r (F r Hr))). }
  set (K := kept records minimun_perc).
  assert (FK : Forall (fun r => percent_free_record r = true) K).
  { apply Forall_forall. intros r Hr. unfold K, kept in Hr. apply filter_In in Hr.
    rewrite Forall_forall in F. apply F. tauto. }
  assert (FKp : Forall (fun r => plain_record r = true) K).
  { apply Forall_forall. intros r Hr. rewrite Forall_forall in FK.
    exact (proj1 (percent_free_record_facts r (FK r Hr))). }
  eexists. split; [exact (filter_function_output records minimun_perc Fp)|].
  pose proof (proj2 (writers_output "_" records minimun_perc Fp eq_refl)) as RL.
  cbv zeta in RL. rewrite RL. fold K.
  rewrite (filter_function_output K 0 FKp), (kept_all K FKp).
  destruct K as [|r0 K'] eqn:EK; [reflexivity|]. rewrite <- EK in *.
  assert (T : 0 < total_size records).
  { destruct (total_size_positive records Fp) as [_ P].
    assert (1 <= total_size records); [|lia].
    apply P. intros E0. unfold K, kept in EK. rewrite E0 in EK. discriminate. }
  assert (T' : 0 < total_size K).
  { destruct (total_size_positive K FKp) as [_ P].
    assert (1 <= total_size K); [|lia]. apply P. rewrite EK. discriminate. }
  unfold normalize_percentage. unfold enumerate at 1.
  rewrite (total_loop_headers (written_header "_" (total_size records))
             (fun r => snd r ++ nl) record_size K).
  - cbn [bind]. rewrite Z.add_0_l. fold (total_size K).
    rewrite (for_each_ext _ _ _ _
               (normalize_body
                  (flat_map (fun r => [written_header "_" (total_size records) r;
                                       snd r ++ nl]) K)
                  (total_size K))).
    refine (eq_trans
              (for_each_known_pieces _ _ _ _ EmptyString (fun out x => eq_refl)
                 (normalize_pieces _ (total_size records) (total_size K) K []
                    eq_refl FK T T')) _).
    rewrite pairs_text. reflexivity.
  - intros r Hr. rewrite Forall_forall in FK. specialize (FK r Hr).
    destruct r as [[name digits] sequence].
    destruct (filtered_header (total_size records) name digits sequence FK T)
      as [H1 [H2 _]].
    split; [exact H1|]. split.
    + eexists. eexists. split; [exact H2 | reflexivity].
    + cbn [snd]. apply sequence_line_first.
      destruct (percent_free_record_facts _ FK) as [Hp _].
      destruct (plain_record_facts _ _ _ Hp) as [_ [_ [_ [_ [_ [_ P7]]]]]]. exact P7.
  - apply length_seq.
Qed.

Lemma normalize_after_filter_witness :
  Forall (fun r => percent_free_record r = true) vsearch_example
  /\ exists out,
      filtering_fastaclusters_by_percentage (cluster_lines vsearch_example) (1 # 2) = Ok out
      /\ normalize_percentage (readlines out)
         = filtering_fastaclusters_by_percentage
             (cluster_lines (kept vsearch_example (1 # 2))) 0.
Proof.
  assert (H : Forall (fun r => percent_free_record r = true) vsearch_example)
    by (repeat constructor).
  split; [exact H|].
  exact (normalize_after_filter vsearch_example (1 # 2) H).
Defined.

(** The two clusters of 180 and 20 reads filtered at one half, and
    normalised: the cluster that is left has all the reads. *)
Example normalize_after_filter_example :
  filtering_fastaclusters_by_percentage (cluster_lines vsearch_example) (1 # 2)
  = Ok (">ReadA;size=180_90.0%" ++ nl ++ "AAATTTCCCGGG" ++ nl)
  /\ normalize_percentage [">ReadA;size=180_90.0%" ++ nl; "AAATTTCCCGGG" ++ nl]
     = Ok (">ReadA;size=180_100.0%" ++ nl ++ "AAATTTCCCGGG" ++ nl).
Proof. split; vm_compute; reflexivity. Qed.
